(** * dfvfs volume scanner: identifier resolution and base path specifications

    A shallow embedding of [dfvfs/helpers/volume_scanner.py] (classes
    [VolumeScanner] and [WindowsVolumeScanner]) together with the properties
    of its identifier resolution, of its recursive walk over the scan tree,
    of [GetBasePathSpecs] and of [ScanForWindowsVolume].

    Python objects that the scanner mutates in place (the scan context, the
    scan nodes it owns and the [base_path_specs] list) live in an explicit
    state that every method threads; exceptions are an explicit outcome. *)

From Stdlib Require Import String Ascii List ZArith Lia Bool DecimalString DecimalPos
  Permutation.
Import ListNotations.
Open Scope string_scope.

(** ** Python values used by the scanner *)

Module Py.

(** The exceptions that cross the scanner. [ScannerError], [UserAbort] and
    [BackEndError] are errors of [dfvfs.lib.errors]; the others come from
    collaborators or from the interpreter. [Subclass name base] is an
    instance of a class [name] derived from the class of [base], with the
    message of [base]: a [UnicodeDecodeError] is
    [Subclass "UnicodeDecodeError" (Subclass "UnicodeError" (ValueError m))].
    [OtherException] stands for a class that derives from none of the
    classes listed before it. *)
Inductive exn : Type :=
| ScannerError (message : string)
| UserAbort (message : string)
| BackEndError (message : string)
| ValueError (message : string)
| TypeError (message : string)
| KeyboardInterrupt
| OtherException (name message : string)
| Subclass (name : string) (base : exn).

(** The listed class that an exception is an instance of: what an [except]
    clause that names a class matches on. *)
Fixpoint listed_class (e : exn) : exn :=
  match e with
  | Subclass _ base => listed_class base
  | _ => e
  end.

(** [str(exception)], as used by ['{0!s}'.format(exception)]. *)
Fixpoint str_of_exn (e : exn) : string :=
  match e with
  | ScannerError m | UserAbort m | BackEndError m
  | ValueError m | TypeError m => m
  | KeyboardInterrupt => ""
  | OtherException _ m => m
  | Subclass _ base => str_of_exn base
  end.

(** [isinstance(e, errors.ScannerError)] and [isinstance(e, errors.UserAbort)]. *)
Definition is_ScannerError (e : exn) : bool :=
  match listed_class e with ScannerError _ => true | _ => false end.

Definition is_UserAbort (e : exn) : bool :=
  match listed_class e with UserAbort _ => true | _ => false end.

(** ['{0:d}'.format(n)]: the decimal numeral of an integer, with a leading
    minus sign for negative ones. Integers are unbounded and the conversion
    is total: the limit that an interpreter may put on the length of
    conversions between [int] and [str] ([sys.set_int_max_str_digits]) is a
    setting of the run, and is taken to be off. *)
Definition format_d (n : Z) : string := NilZero.string_of_int (Z.to_int n).

(** [s.startswith(prefix)]. *)
Definition startswith (s prefix : string) : bool := String.prefix prefix s.

(** A [str] is held in UTF-8, as the string literals of this file are, a
    lone surrogate the way UTF-8 would encode it. [code_points] gives the
    characters of a [str], and [None] for bytes that hold no [str]. *)
Definition continuation (c : ascii) : option N :=
  let n := N_of_ascii c in
  if ((128 <=? n) && (n <? 192))%N then Some (n - 128)%N else None.

Fixpoint code_points (s : string) : option (list N) :=
  match s with
  | EmptyString => Some []
  | String c rest =>
      let n := N_of_ascii c in
      if (n <? 128)%N then option_map (cons n) (code_points rest)
      else if (n <? 194)%N then None
      else if (n <? 224)%N then
        match rest with
        | String c1 rest =>
            match continuation c1 with
            | Some n1 =>
                option_map (cons ((n - 192) * 64 + n1)%N) (code_points rest)
            | None => None
            end
        | EmptyString => None
        end
      else if (n <? 240)%N then
        match rest with
        | String c1 (String c2 rest) =>
            match continuation c1, continuation c2 with
            | Some n1, Some n2 =>
                let cp := ((n - 224) * 4096 + n1 * 64 + n2)%N in
                if (cp <? 2048)%N then None
                else option_map (cons cp) (code_points rest)
            | _, _ => None
            end
        | _ => None
        end
      else if (n <? 245)%N then
        match rest with
        | String c1 (String c2 (String c3 rest)) =>
            match continuation c1, continuation c2, continuation c3 with
            | Some n1, Some n2, Some n3 =>
                let cp :=
                  ((n - 240) * 262144 + n1 * 4096 + n2 * 64 + n3)%N in
                if ((cp <? 65536) || (1114111 <? cp))%N then None
                else option_map (cons cp) (code_points rest)
            | _, _, _ => None
            end
        | _ => None
        end
      else None
  end.

(** [Py_UNICODE_ISSPACE]: the characters that [str.isspace] accepts. *)
Definition unicode_isspace (cp : N) : bool :=
  (((9 <=? cp) && (cp <=? 13)) || ((28 <=? cp) && (cp <=? 32))
   || (cp =? 0x85) || (cp =? 0xa0) || (cp =? 0x1680)
   || ((0x2000 <=? cp) && (cp <=? 0x200a))
   || (cp =? 0x2028) || (cp =? 0x2029) || (cp =? 0x202f) || (cp =? 0x205f)
   || (cp =? 0x3000))%N.

(** The digit zero of every run of ten decimal digits beyond ASCII (general
    category [Nd]) in Unicode 14.0.0, the character database of
    CPython 3.11. *)
Definition decimal_zeros : list N :=
  [0x660; 0x6f0; 0x7c0; 0x966; 0x9e6; 0xa66; 0xae6; 0xb66;
   0xbe6; 0xc66; 0xce6; 0xd66; 0xde6; 0xe50; 0xed0; 0xf20;
   0x1040; 0x1090; 0x17e0; 0x1810; 0x1946; 0x19d0; 0x1a80; 0x1a90;
   0x1b50; 0x1bb0; 0x1c40; 0x1c50; 0xa620; 0xa8d0; 0xa900; 0xa9d0;
   0xa9f0; 0xaa50; 0xabf0; 0xff10; 0x104a0; 0x10d30; 0x11066; 0x110f0;
   0x11136; 0x111d0; 0x112f0; 0x11450; 0x114d0; 0x11650; 0x116c0; 0x11730;
   0x118e0; 0x11950; 0x11c50; 0x11d50; 0x11da0; 0x16a60; 0x16ac0; 0x16b50;
   0x1d7ce; 0x1d7d8; 0x1d7e2; 0x1d7ec; 0x1d7f6; 0x1e140; 0x1e2f0; 0x1e950;
   0x1fbf0]%N.

(** [Py_UNICODE_TODECIMAL]. *)
Definition unicode_todecimal (cp : N) : option N :=
  if ((48 <=? cp) && (cp <=? 57))%N then Some (cp - 48)%N
  else
    option_map (fun zero => (cp - zero)%N)
      (find (fun zero => ((zero <=? cp) && (cp <=? zero + 9))%N)
         decimal_zeros).

(** [_PyUnicode_TransformDecimalAndSpaceToASCII] on a [str] with a
    character beyond ASCII: a character below 127 stays, a space becomes
    [' '], a decimal digit its ASCII digit, and the result ends in ['?']
    at the first character that is none of these. *)
Fixpoint to_ascii_decimal_and_space (characters : list N) : string :=
  match characters with
  | [] => EmptyString
  | cp :: rest =>
      if (cp <? 127)%N then
        String (ascii_of_N cp) (to_ascii_decimal_and_space rest)
      else if unicode_isspace cp then
        String " " (to_ascii_decimal_and_space rest)
      else
        match unicode_todecimal cp with
        | Some d =>
            String (ascii_of_N (48 + d)) (to_ascii_decimal_and_space rest)
        | None => "?"
        end
  end.

Definition is_digit (c : ascii) : bool :=
  let n := nat_of_ascii c in (48 <=? n)%nat && (n <=? 57)%nat.

Definition digit_value (c : ascii) : Z := Z.of_nat (nat_of_ascii c - 48).

(** [Py_ISSPACE]: the white space that [PyLong_FromString] skips on both
    sides of the literal. *)
Definition is_space (c : ascii) : bool :=
  let n := nat_of_ascii c in
  ((9 <=? n)%nat && (n <=? 13)%nat) || (n =? 32)%nat.

Fixpoint lstrip (s : string) : string :=
  match s with
  | String c rest => if is_space c then lstrip rest else s
  | EmptyString => EmptyString
  end.

Fixpoint rstrip (s : string) : string :=
  match s with
  | EmptyString => EmptyString
  | String c rest =>
      match rstrip rest with
      | EmptyString => if is_space c then EmptyString else String c EmptyString
      | rest' => String c rest'
      end
  end.

(** The digits of a decimal literal; a single underscore may separate two
    digits. [after_digit] tells whether the previous character was a
    digit. *)
Fixpoint digits_value (s : string) (acc : Z) (after_digit : bool) : option Z :=
  match s with
  | EmptyString => if after_digit then Some acc else None
  | String c rest =>
      if is_digit c then digits_value rest (10 * acc + digit_value c) true
      else if Ascii.eqb c "_" && after_digit then digits_value rest acc false
      else None
  end.

(** [PyLong_FromString(s, base=10)] on ASCII characters: white space, an
    optional sign, the digits, white space. *)
Definition long_from_string (s : string) : option Z :=
  match rstrip (lstrip s) with
  | String "-" body => option_map Z.opp (digits_value body 0 false)
  | String "+" body => digits_value body 0 false
  | body => digits_value body 0 false
  end.

(** [int(s, 10)] on a [str]: [Some n] when it returns [n], [None] when it
    raises [ValueError]. A [str] of ASCII characters is parsed as it is, any
    other after [_PyUnicode_TransformDecimalAndSpaceToASCII]. *)
Definition int_base10 (s : string) : option Z :=
  match code_points s with
  | None => None
  | Some characters =>
      long_from_string
        (if forallb (fun cp => (cp <? 128)%N) characters then s
         else to_ascii_decimal_and_space characters)
  end.

End Py.

Import Py.

(** ** Path specifications, scan nodes and the scan context *)

(** Type indicators and source types of [dfvfs.lib.definitions]; only the
    ones the volume scanner names are listed. The properties below depend on
    them being pairwise distinct, not on their spelling. *)
Module definitions.
Definition TYPE_INDICATOR_APFS_CONTAINER : string := "APFS_CONTAINER".
Definition TYPE_INDICATOR_TSK : string := "TSK".
Definition TYPE_INDICATOR_TSK_PARTITION : string := "TSK_PARTITION".
Definition TYPE_INDICATOR_VSHADOW : string := "VSHADOW".

Inductive SourceType : Type :=
| SOURCE_TYPE_DIRECTORY
| SOURCE_TYPE_FILE
| SOURCE_TYPE_STORAGE_MEDIA_DEVICE
| SOURCE_TYPE_STORAGE_MEDIA_IMAGE.
End definitions.

Import definitions.

(** A path specification: one container layer chained to the layer below. *)
#[warnings="-register-all"]
Inductive PathSpec : Type :=
| NewPathSpec (type_indicator : string) (location : option string)
              (parent : option PathSpec).

(** Scan nodes are Python objects that [Scan] extends in place; the scanner
    holds references to them. A reference is a [NodeRef] and the objects live
    in the heap of the scan context. *)
Definition NodeRef : Type := nat.

(** What the scanner reads of a [SourceScanNode], a class of
    [dfvfs.helpers.source_scanner]: two attributes, the [sub_nodes] list and
    the answers of its three query methods. *)
Record ScanNode : Type := {
  path_spec : option PathSpec;
  type_indicator : string;
  sub_nodes : list NodeRef;
  IsVolumeSystemRoot : bool;
  IsFileSystem : bool;
  GetSubNodeByLocation : string -> option NodeRef
}.

(** The scan context: the classification of the source, the root scan node,
    the scan nodes behind their references, and [IsLockedScanNode], which is
    called with whatever the [path_spec] attribute of a node holds. *)
Record SourceScannerContext : Type := {
  source_type : option SourceType;
  GetRootScanNode : NodeRef;
  node : NodeRef -> ScanNode;
  IsLockedScanNode : option PathSpec -> bool
}.

(** ** Volume systems *)

Inductive VolumeSystemKind : Type :=
| APFSVolumeSystem
| TSKVolumeSystem
| VShadowVolumeSystem.

(** What [GetVolumeByIdentifier] does for an identifier: it returns a volume,
    returns [None], or raises [KeyError]. *)
Inductive VolumeLookup : Type :=
| VolumeFound
| VolumeNone
| VolumeKeyError.

(** An opened volume system: the identifiers that
    [SourceScanner.GetVolumeIdentifiers] reports for it, in its native
    order, and its [GetVolumeByIdentifier]. *)
Record VolumeSystem : Type := {
  GetVolumeIdentifiers : list string;
  GetVolumeByIdentifier : string -> VolumeLookup
}.

(** A volume identifier as a mediator may hand it back: [list[int|str]]. *)
Inductive VolumeIdentifier : Type :=
| IdInt (n : Z)
| IdStr (s : string).

(** ** [_NormalizedVolumeIdentifiers] *)

(** The rewriting of one identifier (the [isinstance] / [startswith] /
    [int(..., 10)] cascade of the loop body). *)
Definition normalized_form (prefix : string) (volume_identifier : VolumeIdentifier)
  : string :=
  match volume_identifier with
  | IdInt n => prefix ++ format_d n
  | IdStr s =>
      if startswith s prefix then s
      else match int_base10 s with
           | Some n => prefix ++ format_d n
           | None => s
           end
  end.

(** [try: volume = ...GetVolumeByIdentifier(...) except KeyError: volume = None]
    followed by [if not volume]. *)
Definition volume_exists (volume_system : VolumeSystem) (volume_identifier : string)
  : bool :=
  match GetVolumeByIdentifier volume_system volume_identifier with
  | VolumeFound => true
  | VolumeNone | VolumeKeyError => false
  end.

Definition volume_missing (volume_identifier : string) : exn :=
  ScannerError ("Volume missing for identifier: " ++ volume_identifier ++ ".").

Fixpoint _NormalizedVolumeIdentifiers (volume_system : VolumeSystem)
    (volume_identifiers : list VolumeIdentifier) (prefix : string)
  : exn + list string :=
  match volume_identifiers with
  | [] => inr []
  | volume_identifier :: rest =>
      let volume_identifier := normalized_form prefix volume_identifier in
      if volume_exists volume_system volume_identifier then
        match _NormalizedVolumeIdentifiers volume_system rest prefix with
        | inr normalized => inr (volume_identifier :: normalized)
        | inl e => inl e
        end
      else inl (volume_missing volume_identifier)
  end.

(** ** Outcomes and the state-and-exception monad of the scanner *)

(** A method call returns a value or raises. [OutOfFuel] is the outcome of a
    bounded unfolding of the recursion that was cut short; no Python run
    produces it. *)
Inductive Outcome (A : Type) : Type :=
| Returns (a : A)
| Raises (e : exn)
| OutOfFuel.

Arguments Returns {A} a.
Arguments Raises {A} e.
Arguments OutOfFuel {A}.

Definition M (S A : Type) : Type := S -> Outcome A * S.

Definition ret {S A} (a : A) : M S A := fun s => (Returns a, s).

Definition raise {S A} (e : exn) : M S A := fun s => (Raises e, s).

Definition out_of_fuel {S A} : M S A := fun s => (OutOfFuel, s).

Definition bind {S A B} (m : M S A) (k : A -> M S B) : M S B :=
  fun s =>
    match m s with
    | (Returns a, s') => k a s'
    | (Raises e, s') => (Raises e, s')
    | (OutOfFuel, s') => (OutOfFuel, s')
    end.

Definition get {S} : M S S := fun s => (Returns s, s).

Definition modify {S} (f : S -> S) : M S unit := fun s => (Returns tt, f s).

Declare Scope scanner_scope.
Delimit Scope scanner_scope with scanner.
Notation "x <- m ;; k" := (bind m (fun x => k))
  (at level 61, m at next level, right associativity) : scanner_scope.
Notation "m ;; k" := (bind m (fun _ => k))
  (at level 61, right associativity) : scanner_scope.
Open Scope scanner_scope.

(** [for x in xs: body(x)]; an exception leaves the loop. *)
Fixpoint for_each {S A} (xs : list A) (body : A -> M S unit) : M S unit :=
  match xs with
  | [] => ret tt
  | x :: rest => body x ;; for_each rest body
  end.

(** A collaborator's answer: a value, or an exception it raised. *)
Definition answer {S A} (r : exn + A) : M S A :=
  match r with
  | inr a => ret a
  | inl e => raise e
  end.

(** ** Collaborators: mediator, source scanner, volume systems, credentials *)

(** The credentials object that [CredentialsManager.GetCredentials] returns
    for a path specification. *)
Record Credentials : Type := { CREDENTIALS : list string }.

Inductive MediatorCall : Type :=
| CallGetAPFSVolumeIdentifiers (volume_system : VolumeSystem)
                               (volume_identifiers : list string)
| CallGetPartitionIdentifiers (volume_system : VolumeSystem)
                              (volume_identifiers : list string)
| CallGetVSSStoreIdentifiers (volume_system : VolumeSystem)
                             (volume_identifiers : list string)
| CallUnlockEncryptedVolume (locked_scan_node : NodeRef)
                            (credentials : Credentials).

(** What the scanner asks of the world, in the order it asks it. *)
Inductive Event : Type :=
| VolumeSystemOpen (kind : VolumeSystemKind) (path_spec : PathSpec)
| MediatorCalled (call : MediatorCall)
| SourceScannerScan (scan_path_spec : option PathSpec).

Definition is_MediatorCalled (ev : Event) : bool :=
  match ev with MediatorCalled _ => true | _ => false end.

Definition is_VolumeSystemOpen (ev : Event) : bool :=
  match ev with VolumeSystemOpen _ _ => true | _ => false end.

(** [VolumeScannerMediator]: the abstract class. An implementation may keep
    state between calls, so each method also sees what the scanner asked
    before. A selection method returns a list, returns [None], or raises;
    [UnlockEncryptedVolume] may change the scan context it is given. *)
Record VolumeScannerMediator : Type := {
  GetAPFSVolumeIdentifiers :
    list Event -> VolumeSystem -> list string ->
    exn + option (list VolumeIdentifier);
  GetPartitionIdentifiers :
    list Event -> VolumeSystem -> list string ->
    exn + option (list VolumeIdentifier);
  GetVSSStoreIdentifiers :
    list Event -> VolumeSystem -> list string ->
    exn + option (list VolumeIdentifier);
  UnlockEncryptedVolume :
    list Event -> SourceScannerContext -> NodeRef -> Credentials ->
    exn + (bool * SourceScannerContext)
}.

(** The modules the scanner imports and calls into. *)
Record Collaborators : Type := {
  os_path_exists : string -> bool;
  OpenSourcePath : string -> exn + SourceScannerContext;
  Scan : SourceScannerContext -> option PathSpec -> exn + SourceScannerContext;
  Open : VolumeSystemKind -> PathSpec -> exn + VolumeSystem;
  GetCredentials : PathSpec -> option Credentials
}.

(** A [VolumeScanner] instance: its [_mediator] attribute and the
    collaborators it is linked with. *)
Record VolumeScanner : Type := {
  _mediator : option VolumeScannerMediator;
  world : Collaborators
}.

Definition emit (ev : Event) : M (list Event) unit :=
  modify (fun t => (t ++ [ev])%list).

(** [volume_system = XVolumeSystem(); volume_system.Open(scan_node.path_spec)]. *)
Definition open_volume_system (self : VolumeScanner) (kind : VolumeSystemKind)
    (scan_path_spec : PathSpec) : M (list Event) VolumeSystem :=
  emit (VolumeSystemOpen kind scan_path_spec) ;;
  answer (Open (world self) kind scan_path_spec).

(** A call of a mediator selection method inside
    [try: ... except KeyboardInterrupt: raise errors.UserAbort(...)]. *)
Definition select_or_abort
    (method : list Event -> VolumeSystem -> list string ->
              exn + option (list VolumeIdentifier))
    (call : VolumeSystem -> list string -> MediatorCall)
    (volume_system : VolumeSystem) (volume_identifiers : list string)
  : M (list Event) (option (list VolumeIdentifier)) :=
  asked <- get ;;
  emit (MediatorCalled (call volume_system volume_identifiers)) ;;
  match method asked volume_system volume_identifiers with
  | inr selected => ret selected
  | inl e =>
      match listed_class e with
      | KeyboardInterrupt => raise (UserAbort "File system scan aborted.")
      | _ => raise e
      end
  end.

(** [self._NormalizedVolumeIdentifiers(volume_system, volume_identifiers,
    prefix=...)] on what a mediator returned: iterating [None] raises
    [TypeError]. *)
Definition normalize_selection (volume_system : VolumeSystem)
    (volume_identifiers : option (list VolumeIdentifier)) (prefix : string)
  : M (list Event) (list string) :=
  match volume_identifiers with
  | None => raise (TypeError "'NoneType' object is not iterable")
  | Some volume_identifiers =>
      answer (_NormalizedVolumeIdentifiers volume_system volume_identifiers prefix)
  end.

(** [not scan_node or not scan_node.path_spec] is false exactly when this is
    [Some]. *)
Definition valid_path_spec (scan_node : option ScanNode) : option PathSpec :=
  match scan_node with
  | Some scan_node => path_spec scan_node
  | None => None
  end.

Definition _GetAPFSVolumeIdentifiers (self : VolumeScanner)
    (scan_node : option ScanNode) : M (list Event) (list string) :=
  match valid_path_spec scan_node with
  | None => raise (ScannerError "Invalid scan node.")
  | Some scan_path_spec =>
      volume_system <- open_volume_system self APFSVolumeSystem scan_path_spec ;;
      let volume_identifiers := GetVolumeIdentifiers volume_system in
      match volume_identifiers with
      | [] => ret []
      | _ :: _ =>
          if (1 <? length volume_identifiers)%nat then
            match _mediator self with
            | None =>
                raise (ScannerError
                  ("Unable to proceed. APFS volumes found but no mediator to "
                   ++ "determine how they should be used."))
            | Some mediator =>
                selected <- select_or_abort (GetAPFSVolumeIdentifiers mediator)
                              CallGetAPFSVolumeIdentifiers
                              volume_system volume_identifiers ;;
                normalize_selection volume_system selected "apfs"
            end
          else
            normalize_selection volume_system
              (Some (map IdStr volume_identifiers)) "apfs"
      end
  end.

Definition _GetTSKPartitionIdentifiers (self : VolumeScanner)
    (scan_node : option ScanNode) : M (list Event) (list string) :=
  match valid_path_spec scan_node with
  | None => raise (ScannerError "Invalid scan node.")
  | Some scan_path_spec =>
      volume_system <- open_volume_system self TSKVolumeSystem scan_path_spec ;;
      let volume_identifiers := GetVolumeIdentifiers volume_system in
      match volume_identifiers with
      | [] => ret []
      | _ :: _ =>
          if (length volume_identifiers =? 1)%nat then ret volume_identifiers
          else
            match _mediator self with
            | None =>
                raise (ScannerError
                  ("Unable to proceed. Partitions found but no mediator to determine "
                   ++ "how they should be used."))
            | Some mediator =>
                selected <- select_or_abort (GetPartitionIdentifiers mediator)
                              CallGetPartitionIdentifiers
                              volume_system volume_identifiers ;;
                normalize_selection volume_system selected "p"
            end
      end
  end.

Definition _GetVSSStoreIdentifiers (self : VolumeScanner)
    (scan_node : option ScanNode) : M (list Event) (list string) :=
  match valid_path_spec scan_node with
  | None => raise (ScannerError "Invalid scan node.")
  | Some scan_path_spec =>
      volume_system <- open_volume_system self VShadowVolumeSystem scan_path_spec ;;
      let volume_identifiers := GetVolumeIdentifiers volume_system in
      match volume_identifiers with
      | [] => ret []
      | _ :: _ =>
          match _mediator self with
          | None =>
              raise (ScannerError
                ("Unable to proceed. VSS stores found but no mediator to determine "
                 ++ "how they should be used."))
          | Some mediator =>
              selected <- select_or_abort (GetVSSStoreIdentifiers mediator)
                            CallGetVSSStoreIdentifiers
                            volume_system volume_identifiers ;;
              normalize_selection volume_system selected "vss"
          end
      end
  end.

(** ** The walk over the scan tree *)

(** The objects that [_ScanVolume] and the methods it calls mutate in place:
    the scan context (with the scan nodes it owns) and the [base_path_specs]
    list, next to the record of what was asked of the world. An entry of
    [base_path_specs] is whatever a [path_spec] attribute held, hence the
    [option]. *)
Record State : Type := {
  scan_context : SourceScannerContext;
  base_path_specs : list (option PathSpec);
  trace : list Event
}.

Definition with_trace (st : State) (t : list Event) : State :=
  {| scan_context := scan_context st;
     base_path_specs := base_path_specs st;
     trace := t |}.

Definition with_scan_context (st : State) (ctx : SourceScannerContext) : State :=
  {| scan_context := ctx;
     base_path_specs := base_path_specs st;
     trace := trace st |}.

Definition record (ev : Event) (st : State) : State :=
  with_trace st (trace st ++ [ev])%list.

(** [base_path_specs.append(path_spec)]. *)
Definition append (entry : option PathSpec) : M State unit :=
  modify (fun st =>
    {| scan_context := scan_context st;
       base_path_specs := (base_path_specs st ++ [entry])%list;
       trace := trace st |}).

(** A method that only talks to the world, called from the walk. *)
Definition lift {A} (m : M (list Event) A) : M State A :=
  fun st => let (outcome, t) := m (trace st) in (outcome, with_trace st t).

(** [self._mediator.UnlockEncryptedVolume(self._source_scanner, scan_context,
    scan_node, credentials)]. *)
Definition unlock (mediator : VolumeScannerMediator) (scan_node : NodeRef)
    (credentials : Credentials) : M State bool :=
  fun st =>
    let st' := record (MediatorCalled
                         (CallUnlockEncryptedVolume scan_node credentials)) st in
    match UnlockEncryptedVolume mediator (trace st) (scan_context st)
            scan_node credentials with
    | inr (result, ctx) => (Returns result, with_scan_context st' ctx)
    | inl e => (Raises e, st')
    end.

(** [self._source_scanner.Scan(scan_context, scan_path_spec=scan_node.path_spec)]. *)
Definition rescan (self : VolumeScanner) (scan_node : NodeRef) : M State unit :=
  fun st =>
    let scan_path_spec := path_spec (node (scan_context st) scan_node) in
    let st' := record (SourceScannerScan scan_path_spec) st in
    match Scan (world self) (scan_context st) scan_path_spec with
    | inr ctx => (Returns tt, with_scan_context st' ctx)
    | inl e => (Raises e, st')
    end.

Definition _ScanEncryptedVolume (self : VolumeScanner)
    (scan_node : option NodeRef) : M State unit :=
  st <- get ;;
  match scan_node with
  | None => raise (ScannerError "Invalid or missing scan node.")
  | Some this =>
      match path_spec (node (scan_context st) this) with
      | None => raise (ScannerError "Invalid or missing scan node.")
      | Some scan_path_spec =>
          match GetCredentials (world self) scan_path_spec with
          | None => raise (ScannerError "Missing credentials for scan node.")
          | Some credentials =>
              match _mediator self with
              | None =>
                  raise (ScannerError
                    ("Unable to proceed. Encrypted volume found but no mediator to "
                     ++ "determine how it should be unlocked."))
              | Some mediator =>
                  unlocked <- unlock mediator this credentials ;;
                  if unlocked : bool then rescan self this else ret tt
              end
          end
      end
  end.

Definition _ScanFileSystem (scan_node : option NodeRef) : M State unit :=
  st <- get ;;
  match scan_node with
  | None => raise (ScannerError "Invalid or missing file system scan node.")
  | Some this =>
      match path_spec (node (scan_context st) this) with
      | None => raise (ScannerError "Invalid or missing file system scan node.")
      | Some scan_path_spec => append (Some scan_path_spec)
      end
  end.

(** The body of the loop of [_ScanVolumeSystemRoot] over the volume
    identifiers; [_ScanVolume] is the method it calls back. The sub node is
    looked up in [scan_node] as it is when the iteration starts. *)
Definition scan_volume_at (_ScanVolume : option NodeRef -> M State unit)
    (this : NodeRef) (volume_identifier : string) : M State unit :=
  st <- get ;;
  let location := "/" ++ volume_identifier in
  match GetSubNodeByLocation (node (scan_context st) this) location with
  | None =>
      raise (ScannerError
        ("Scan node missing for volume identifier: "
         ++ volume_identifier ++ "."))
  | Some sub_scan_node => _ScanVolume (Some sub_scan_node)
  end.

Definition _ScanVolumeSystemRoot (self : VolumeScanner)
    (_ScanVolume : option NodeRef -> M State unit)
    (scan_node : option NodeRef) : M State unit :=
  st <- get ;;
  match scan_node with
  | None => raise (ScannerError "Invalid scan node.")
  | Some this =>
      let this_node := node (scan_context st) this in
      match path_spec this_node with
      | None => raise (ScannerError "Invalid scan node.")
      | Some _ =>
          volume_identifiers <-
            (if type_indicator this_node =? TYPE_INDICATOR_APFS_CONTAINER then
               lift (_GetAPFSVolumeIdentifiers self (Some this_node))
             else if type_indicator this_node =? TYPE_INDICATOR_VSHADOW then
               volume_identifiers <-
                 lift (_GetVSSStoreIdentifiers self (Some this_node)) ;;
               ret (rev volume_identifiers)
             else
               raise (ScannerError
                 ("Unsupported volume system type: "
                  ++ type_indicator this_node ++ "."))) ;;
          for_each volume_identifiers (scan_volume_at _ScanVolume this)
      end
  end.

(** The part of [_ScanVolume] below the lock check: the dispatch on what the
    scan node is. [_ScanVolume] is the method it calls back for sub nodes. *)
Definition scan_unlocked (self : VolumeScanner)
    (_ScanVolume : option NodeRef -> M State unit)
    (this : NodeRef) : M State unit :=
  st <- get ;;
  let this_node := node (scan_context st) this in
  if IsVolumeSystemRoot this_node then
    _ScanVolumeSystemRoot self _ScanVolume (Some this)
  else if IsFileSystem this_node then
    _ScanFileSystem (Some this)
  else if type_indicator this_node =? TYPE_INDICATOR_VSHADOW then
    append (Some (NewPathSpec TYPE_INDICATOR_TSK (Some "/")
                    (path_spec this_node)))
  else
    for_each (sub_nodes this_node) (fun sub_scan_node =>
      _ScanVolume (Some sub_scan_node)).

(** [_ScanVolume], unfolded at most [fuel] calls deep. The attributes of
    [scan_node] are read from the scan context as it is at that point of the
    run: after an unlock the node is the one that the second [Scan] left. *)
Fixpoint _ScanVolume (self : VolumeScanner) (fuel : nat)
    (scan_node : option NodeRef) {struct fuel} : M State unit :=
  match fuel with
  | O => out_of_fuel
  | S fuel =>
      st <- get ;;
      match scan_node with
      | None => raise (ScannerError "Invalid or missing scan node.")
      | Some this =>
          match path_spec (node (scan_context st) this) with
          | None => raise (ScannerError "Invalid or missing scan node.")
          | Some _ =>
              still_locked <-
                (if IsLockedScanNode (scan_context st)
                      (path_spec (node (scan_context st) this))
                 then
                   _ScanEncryptedVolume self scan_node ;;
                   st <- get ;;
                   ret (IsLockedScanNode (scan_context st)
                          (path_spec (node (scan_context st) this)))
                 else ret false) ;;
              if still_locked : bool then ret tt
              else scan_unlocked self (_ScanVolume self fuel) this
          end
      end
  end.

(** ** [GetBasePathSpecs] *)

(** [while len(scan_node.sub_nodes) == 1: scan_node = scan_node.sub_nodes[0]],
    at most [fuel] iterations; [None] when the bound is reached. *)
Fixpoint first_decision_node (fuel : nat) (ctx : SourceScannerContext)
    (scan_node : NodeRef) : option NodeRef :=
  match sub_nodes (node ctx scan_node) with
  | [only] =>
      match fuel with
      | O => None
      | S fuel => first_decision_node fuel ctx only
      end
  | _ => Some scan_node
  end.

(** [self._source_scanner.Scan(scan_context)] inside
    [try: ... except (ValueError, errors.BackEndError) as exception]. *)
Definition first_scan (self : VolumeScanner) (ctx : SourceScannerContext)
  : M (list Event) SourceScannerContext :=
  emit (SourceScannerScan None) ;;
  match Scan (world self) ctx None with
  | inr ctx => ret ctx
  | inl exception =>
      match listed_class exception with
      | ValueError _ | BackEndError _ =>
          raise (ScannerError
            ("Unable to scan source with error: " ++ str_of_exn exception))
      | _ => raise exception
      end
  end.

(** Runs the walk on a fresh [base_path_specs = []] and hands the list
    back. *)
Definition collect (ctx : SourceScannerContext) (walk : M State unit)
  : M (list Event) (list (option PathSpec)) :=
  fun t =>
    match walk {| scan_context := ctx; base_path_specs := []; trace := t |} with
    | (Returns _, st) => (Returns (base_path_specs st), trace st)
    | (Raises e, st) => (Raises e, trace st)
    | (OutOfFuel, st) => (OutOfFuel, trace st)
    end.

Definition is_storage_media (source_type : option SourceType) : bool :=
  match source_type with
  | Some SOURCE_TYPE_STORAGE_MEDIA_DEVICE
  | Some SOURCE_TYPE_STORAGE_MEDIA_IMAGE => true
  | _ => false
  end.

(** The loop over the selected partitions at the end of [GetBasePathSpecs]. *)
Definition scan_partitions (self : VolumeScanner) (fuel : nat)
    (scan_node : NodeRef) (partition_identifiers : list string) : M State unit :=
  for_each partition_identifiers (fun partition_identifier =>
    st <- get ;;
    let location := "/" ++ partition_identifier in
    let sub_scan_node :=
      GetSubNodeByLocation (node (scan_context st) scan_node) location in
    _ScanVolume self fuel sub_scan_node).

(** [GetBasePathSpecs]. The assignments to [self._source_path] and
    [self._source_type] are left out: no method of [VolumeScanner] reads
    them. [fuel] bounds the descent and the walk. *)
Definition GetBasePathSpecs (self : VolumeScanner) (fuel : nat)
    (source_path : string) : M (list Event) (list (option PathSpec)) :=
  if (source_path =? "")%string then raise (ScannerError "Invalid source path.")
  else if negb (startswith source_path "\\.\")
          && negb (os_path_exists (world self) source_path) then
    raise (ScannerError
      ("No such device, file or directory: " ++ source_path ++ "."))
  else
    scan_context <- answer (OpenSourcePath (world self) source_path) ;;
    scan_context <- first_scan self scan_context ;;
    if negb (is_storage_media (source_type scan_context)) then
      ret [path_spec (node scan_context (GetRootScanNode scan_context))]
    else
      match first_decision_node fuel scan_context
              (GetRootScanNode scan_context) with
      | None => out_of_fuel
      | Some scan_node =>
          collect scan_context
            (if negb (type_indicator (node scan_context scan_node)
                      =? TYPE_INDICATOR_TSK_PARTITION) then
               _ScanVolume self fuel (Some scan_node)
             else
               partition_identifiers <-
                 lift (_GetTSKPartitionIdentifiers self
                         (Some (node scan_context scan_node))) ;;
               scan_partitions self fuel scan_node partition_identifiers)
      end.

(** ** The three identifier resolutions, by kind of volume system *)

Definition resolve (kind : VolumeSystemKind)
  : VolumeScanner -> option ScanNode -> M (list Event) (list string) :=
  match kind with
  | APFSVolumeSystem => _GetAPFSVolumeIdentifiers
  | TSKVolumeSystem => _GetTSKPartitionIdentifiers
  | VShadowVolumeSystem => _GetVSSStoreIdentifiers
  end.

(** The [prefix=] argument each of them passes to the normalization. *)
Definition resolution_prefix (kind : VolumeSystemKind) : string :=
  match kind with
  | APFSVolumeSystem => "apfs"
  | TSKVolumeSystem => "p"
  | VShadowVolumeSystem => "vss"
  end.

(** The mediator method each of them calls. *)
Definition selection_method (kind : VolumeSystemKind)
    (mediator : VolumeScannerMediator)
  : list Event -> VolumeSystem -> list string ->
    exn + option (list VolumeIdentifier) :=
  match kind with
  | APFSVolumeSystem => GetAPFSVolumeIdentifiers mediator
  | TSKVolumeSystem => GetPartitionIdentifiers mediator
  | VShadowVolumeSystem => GetVSSStoreIdentifiers mediator
  end.

Definition selection_call (kind : VolumeSystemKind)
  : VolumeSystem -> list string -> MediatorCall :=
  match kind with
  | APFSVolumeSystem => CallGetAPFSVolumeIdentifiers
  | TSKVolumeSystem => CallGetPartitionIdentifiers
  | VShadowVolumeSystem => CallGetVSSStoreIdentifiers
  end.

(** The guards in front of the mediator call, as a function of the number of
    identifiers the volume system reports: [len(...) > 1] for APFS, neither
    empty nor [len(...) == 1] for partitions, not empty for VSS. *)
Definition reaches_mediator (kind : VolumeSystemKind) (count : nat) : bool :=
  match kind with
  | APFSVolumeSystem => (1 <? count)%nat
  | TSKVolumeSystem => negb (count =? 0)%nat && negb (count =? 1)%nat
  | VShadowVolumeSystem => negb (count =? 0)%nat
  end.

(** The events of a trace that are mediator calls. *)
Definition mediator_calls (t : list Event) : list Event :=
  filter is_MediatorCalled t.

(** ** Bare numerals *)



(** ** Concrete sources *)

Module Examples.

(** A volume system that holds exactly the volumes it reports. *)
Definition volume_system_of (identifiers : list string) : VolumeSystem :=
  {| GetVolumeIdentifiers := identifiers;
     GetVolumeByIdentifier := fun identifier =>
       if existsb (String.eqb identifier) identifiers
       then VolumeFound else VolumeKeyError |}.

Definition two_partitions : VolumeSystem := volume_system_of ["p1"; "p2"].

Definition two_stores : VolumeSystem := volume_system_of ["vss1"; "vss2"].

Definition Selection : Type :=
  list Event -> VolumeSystem -> list string ->
  exn + option (list VolumeIdentifier).

(** A mediator that answers every selection the same way and never
    unlocks. *)
Definition mediator_with (selection : Selection) : VolumeScannerMediator :=
  {| GetAPFSVolumeIdentifiers := selection;
     GetPartitionIdentifiers := selection;
     GetVSSStoreIdentifiers := selection;
     UnlockEncryptedVolume := fun _ ctx _ _ => inr (false, ctx) |}.

Definition select_all : Selection :=
  fun _ _ identifiers => inr (Some (map IdStr identifiers)).

Definition select_all_backwards : Selection :=
  fun _ _ identifiers => inr (Some (rev (map IdStr identifiers))).



Definition select_nothing : Selection := fun _ _ _ => inr None.

Definition interrupted : Selection := fun _ _ _ => inl KeyboardInterrupt.

Definition os_spec : PathSpec := NewPathSpec "OS" (Some "/image.raw") None.

Definition raw_spec : PathSpec := NewPathSpec "RAW" None (Some os_spec).

Definition child (type_indicator location : string) (parent : PathSpec)
  : PathSpec :=
  NewPathSpec type_indicator (Some location) (Some parent).

(** A scan node; [GetSubNodeByLocation] searches the given table. *)
Definition scan_node_of (spec : PathSpec) (type_indicator : string)
    (volume_system_root file_system : bool)
    (subs : list (string * NodeRef)) : ScanNode :=
  {| path_spec := Some spec;
     type_indicator := type_indicator;
     sub_nodes := map snd subs;
     IsVolumeSystemRoot := volume_system_root;
     IsFileSystem := file_system;
     GetSubNodeByLocation := fun location =>
       option_map snd
         (find (fun entry => (fst entry =? location)%string) subs) |}.

(** Locked are the BDE volumes, and they stay locked. *)
Definition bde_locked (spec : option PathSpec) : bool :=
  match spec with
  | Some (NewPathSpec indicator _ _) => (indicator =? "BDE")%string
  | None => false
  end.

Definition context_of (source_type : SourceType) (nodes : NodeRef -> ScanNode)
  : SourceScannerContext :=
  {| source_type := Some source_type;
     GetRootScanNode := 0%nat;
     node := nodes;
     IsLockedScanNode := bde_locked |}.

(** An image with two partitions: [p1] holds a locked BDE volume, [p2] an
    NTFS file system. *)
Module TwoPartitions.
Definition table_spec : PathSpec := child "TSK_PARTITION" "/" raw_spec.
Definition p1_spec : PathSpec := child "TSK_PARTITION" "/p1" raw_spec.
Definition p2_spec : PathSpec := child "TSK_PARTITION" "/p2" raw_spec.
Definition bde_spec : PathSpec := NewPathSpec "BDE" None (Some p1_spec).
Definition ntfs_spec : PathSpec := child "NTFS" "/" p2_spec.

Definition nodes (ref : NodeRef) : ScanNode :=
  match ref with
  | 0 => scan_node_of os_spec "OS" false false [("/image.raw", 1)]
  | 1 => scan_node_of raw_spec "RAW" false false [("", 2)]
  | 2 => scan_node_of table_spec "TSK_PARTITION" true false
           [("/p1", 3); ("/p2", 4)]
  | 3 => scan_node_of p1_spec "TSK_PARTITION" false false [("", 5)]
  | 4 => scan_node_of p2_spec "TSK_PARTITION" false false [("/", 6)]
  | 5 => scan_node_of bde_spec "BDE" false false []
  | _ => scan_node_of ntfs_spec "NTFS" false true []
  end%nat.

Definition context : SourceScannerContext :=
  context_of SOURCE_TYPE_STORAGE_MEDIA_IMAGE nodes.
End TwoPartitions.

(** A volume with two shadow stores. *)
Module TwoStores.
Definition vss_root_spec : PathSpec := child "VSHADOW" "/" raw_spec.
Definition vss1_spec : PathSpec := child "VSHADOW" "/vss1" raw_spec.
Definition vss2_spec : PathSpec := child "VSHADOW" "/vss2" raw_spec.

Definition nodes (ref : NodeRef) : ScanNode :=
  match ref with
  | 0 => scan_node_of vss_root_spec "VSHADOW" true false
           [("/vss1", 1); ("/vss2", 2)]
  | 1 => scan_node_of vss1_spec "VSHADOW" false false []
  | _ => scan_node_of vss2_spec "VSHADOW" false false []
  end%nat.

Definition context : SourceScannerContext :=
  context_of SOURCE_TYPE_STORAGE_MEDIA_IMAGE nodes.
End TwoStores.

(** An APFS container. *)
Module OneContainer.
Definition container_spec : PathSpec := child "APFS_CONTAINER" "/" raw_spec.
Definition apfs1_spec : PathSpec := child "APFS_CONTAINER" "/apfs1" raw_spec.
Definition apfs_spec : PathSpec := child "APFS" "/" apfs1_spec.

Definition nodes (ref : NodeRef) : ScanNode :=
  match ref with
  | 0 => scan_node_of container_spec "APFS_CONTAINER" true false
           [("/apfs1", 1)]
  | 1 => scan_node_of apfs1_spec "APFS_CONTAINER" false false [("/", 2)]
  | _ => scan_node_of apfs_spec "APFS" false true []
  end%nat.

Definition context : SourceScannerContext :=
  context_of SOURCE_TYPE_STORAGE_MEDIA_IMAGE nodes.
End OneContainer.

(** An image that is one BDE volume, locked. *)
Module LockedVolume.
Definition bde_spec : PathSpec := NewPathSpec "BDE" None (Some raw_spec).

Definition nodes (ref : NodeRef) : ScanNode :=
  match ref with
  | 0 => scan_node_of os_spec "OS" false false [("/image.raw", 1)]
  | 1 => scan_node_of raw_spec "RAW" false false [("", 2)]
  | _ => scan_node_of bde_spec "BDE" false false []
  end%nat.

Definition context : SourceScannerContext :=
  context_of SOURCE_TYPE_STORAGE_MEDIA_IMAGE nodes.
End LockedVolume.

(** A plain file. *)
Module PlainFile.
Definition file_spec : PathSpec := NewPathSpec "OS" (Some "/notes.txt") None.

Definition nodes (_ : NodeRef) : ScanNode :=
  scan_node_of file_spec "OS" false false [].

Definition context : SourceScannerContext :=
  context_of SOURCE_TYPE_FILE nodes.
End PlainFile.

Definition bde_credentials : Credentials :=
  {| CREDENTIALS := ["password"; "recovery_password"; "startup_key"] |}.

(** Collaborators for a source that scans to [ctx] and whose volume systems
    all open to [volume_system]. *)
Definition collaborators (ctx : SourceScannerContext)
    (volume_system : VolumeSystem) : Collaborators :=
  {| os_path_exists := fun path => negb (path =? "/no/such/path")%string;
     OpenSourcePath := fun _ => inr ctx;
     Scan := fun ctx _ => inr ctx;
     Open := fun _ _ => inr volume_system;
     GetCredentials := fun spec =>
       if bde_locked (Some spec) then Some bde_credentials else None |}.

Definition scanner (selection : option Selection) (ctx : SourceScannerContext)
    (volume_system : VolumeSystem) : VolumeScanner :=
  {| _mediator := option_map mediator_with selection;
     world := collaborators ctx volume_system |}.

Definition start (ctx : SourceScannerContext) : State :=
  {| scan_context := ctx; base_path_specs := []; trace := [] |}.

End Examples.

(** ** Conditions on what the scanner is given *)

(** [sys.int_info.default_max_str_digits]: the number of digits up to which
    every interpreter converts between [int] and [str], whatever its
    settings. *)
Definition default_max_str_digits : nat := 4300.

(** An identifier whose conversions stay within that number of digits: an
    integer below [10 ** 4300] in absolute value, a [str] of at most 4300
    bytes. *)
Definition within_default_limit (volume_identifier : VolumeIdentifier) : bool :=
  match volume_identifier with
  | IdInt n => (Z.abs n <? 10 ^ Z.of_nat default_max_str_digits)%Z
  | IdStr s => (String.length s <=? default_max_str_digits)%nat
  end.


(** ** The calls of a run *)

(** [unlocked self this st st1]: the call [_ScanVolume(this)] that is
    entered in state [st] gets past its lock check, in state [st1]. Either
    the node was not locked, or the unlock attempt returned and the node is
    no longer locked. *)
Definition unlocked (self : VolumeScanner) (this : NodeRef) (st st1 : State)
  : Prop :=
  exists spec : PathSpec,
    path_spec (node (scan_context st) this) = Some spec
    /\ ((IsLockedScanNode (scan_context st) (Some spec) = false /\ st1 = st)
        \/ (IsLockedScanNode (scan_context st) (Some spec) = true
            /\ _ScanEncryptedVolume self (Some this) st = (Returns tt, st1)
            /\ IsLockedScanNode (scan_context st1)
                 (path_spec (node (scan_context st1) this)) = false)).

(** The resolution that [_ScanVolumeSystemRoot] runs at a node, by the type
    indicator of the node, and the order in which it then goes through the
    identifiers. *)
Definition root_kind (scan_node : ScanNode) : option VolumeSystemKind :=
  if type_indicator scan_node =? TYPE_INDICATOR_APFS_CONTAINER then
    Some APFSVolumeSystem
  else if type_indicator scan_node =? TYPE_INDICATOR_VSHADOW then
    Some VShadowVolumeSystem
  else None.

Definition processing_order (kind : VolumeSystemKind)
    (volume_identifiers : list string) : list string :=
  match kind with
  | VShadowVolumeSystem => rev volume_identifiers
  | _ => volume_identifiers
  end.

(** [calls self fuel this st fuel' target st']: the call [_ScanVolume(this)]
    that is entered in state [st] is, or makes through nested calls, the
    call [_ScanVolume(target)] that is entered in state [st']; [fuel] and
    [fuel'] are the depths left to the two calls. A call at a volume system
    root makes the call for a selected volume once the loop of
    [_ScanVolumeSystemRoot] has returned from the volumes before it; a call
    at a node that is neither a volume system root, nor a file system, nor
    of type [VSHADOW] makes the call for a sub node once the loop of
    [_ScanVolume] has returned from the sub nodes before it. *)
Inductive calls (self : VolumeScanner)
  : nat -> NodeRef -> State -> nat -> NodeRef -> State -> Prop :=
| calls_itself (fuel : nat) (this : NodeRef) (st : State) :
    calls self fuel this st fuel this st
| calls_volume (fuel : nat) (this : NodeRef) (st st1 : State)
    (spec : PathSpec) (kind : VolumeSystemKind)
    (volume_identifiers : list string) (t1 : list Event)
    (before : list string) (volume_identifier : string) (after : list string)
    (st2 : State) (sub_scan_node : NodeRef)
    (fuel' : nat) (target : NodeRef) (st' : State) :
    unlocked self this st st1 ->
    IsVolumeSystemRoot (node (scan_context st1) this) = true ->
    path_spec (node (scan_context st1) this) = Some spec ->
    root_kind (node (scan_context st1) this) = Some kind ->
    resolve kind self (Some (node (scan_context st1) this)) (trace st1)
    = (Returns volume_identifiers, t1) ->
    processing_order kind volume_identifiers
    = (before ++ volume_identifier :: after)%list ->
    for_each before (scan_volume_at (_ScanVolume self fuel) this)
      (with_trace st1 t1)
    = (Returns tt, st2) ->
    GetSubNodeByLocation (node (scan_context st2) this)
      ("/" ++ volume_identifier) = Some sub_scan_node ->
    calls self fuel sub_scan_node st2 fuel' target st' ->
    calls self (S fuel) this st fuel' target st'
| calls_sub_node (fuel : nat) (this : NodeRef) (st st1 : State)
    (before : list NodeRef) (sub_scan_node : NodeRef) (after : list NodeRef)
    (st2 : State) (fuel' : nat) (target : NodeRef) (st' : State) :
    unlocked self this st st1 ->
    IsVolumeSystemRoot (node (scan_context st1) this) = false ->
    IsFileSystem (node (scan_context st1) this) = false ->
    type_indicator (node (scan_context st1) this) <> TYPE_INDICATOR_VSHADOW ->
    sub_nodes (node (scan_context st1) this)
    = (before ++ sub_scan_node :: after)%list ->
    for_each before
      (fun sub_scan_node => _ScanVolume self fuel (Some sub_scan_node)) st1
    = (Returns tt, st2) ->
    calls self fuel sub_scan_node st2 fuel' target st' ->
    calls self (S fuel) this st fuel' target st'.

(** The walk that [GetBasePathSpecs] runs from the node at which it
    decides: the last statements of the method, from [base_path_specs = []]
    on, without the [return]. *)
Definition walk_from (self : VolumeScanner) (fuel : nat)
    (ctx : SourceScannerContext) (scan_node : NodeRef) : M State unit :=
  if negb (type_indicator (node ctx scan_node)
           =? TYPE_INDICATOR_TSK_PARTITION) then
    _ScanVolume self fuel (Some scan_node)
  else
    partition_identifiers <-
      lift (_GetTSKPartitionIdentifiers self (Some (node ctx scan_node))) ;;
    scan_partitions self fuel scan_node partition_identifiers.

(** [walk_calls self fuel ctx scan_node st fuel' target st']: that walk,
    started in state [st], makes the call [_ScanVolume(target)] that is
    entered in state [st']: from the node itself, or, from a partition
    table, through the call for a selected partition once the loop has
    returned from the partitions before it. *)
Inductive walk_calls (self : VolumeScanner) (fuel : nat)
    (ctx : SourceScannerContext) (scan_node : NodeRef) (st : State)
  : nat -> NodeRef -> State -> Prop :=
| walk_calls_volume (fuel' : nat) (target : NodeRef) (st' : State) :
    type_indicator (node ctx scan_node) <> TYPE_INDICATOR_TSK_PARTITION ->
    calls self fuel scan_node st fuel' target st' ->
    walk_calls self fuel ctx scan_node st fuel' target st'
| walk_calls_partition (t1 : list Event)
    (before : list string) (partition_identifier : string)
    (after : list string) (st1 : State) (sub_scan_node : NodeRef)
    (fuel' : nat) (target : NodeRef) (st' : State) :
    type_indicator (node ctx scan_node) = TYPE_INDICATOR_TSK_PARTITION ->
    _GetTSKPartitionIdentifiers self (Some (node ctx scan_node)) (trace st)
    = (Returns (before ++ partition_identifier :: after)%list, t1) ->
    scan_partitions self fuel scan_node before (with_trace st t1)
    = (Returns tt, st1) ->
    GetSubNodeByLocation (node (scan_context st1) scan_node)
      ("/" ++ partition_identifier) = Some sub_scan_node ->
    calls self fuel sub_scan_node st1 fuel' target st' ->
    walk_calls self fuel ctx scan_node st fuel' target st'.

(** ** Invariants of the walk *)

(** [st'] continues [st]: the base path specifications and the record of
    what was asked are those of [st], followed by what was added, and every
    added base path specification is a path specification. *)
Definition grows (st st' : State) : Prop :=
  (exists added : list (option PathSpec),
      base_path_specs st' = (base_path_specs st ++ added)%list
      /\ Forall (fun entry => entry <> None) added)
  /\ exists events : list Event, trace st' = (trace st ++ events)%list.

(** A computation of the walk that, from every state, ends in a state that
    continues it. *)
Definition growing {A} (m : M State A) : Prop :=
  forall st : State, grows st (snd (m st)).

(** The same for a computation that only talks to the world. *)
Definition asking {A} (m : M (list Event) A) : Prop :=
  forall t : list Event, exists events : list Event, snd (m t) = (t ++ events)%list.

(** ** Bounds of the unfolding *)

(** [m'] agrees with [m] wherever [m] was not cut short. *)
Definition settled_by {S A} (m m' : M S A) : Prop :=
  forall s : S, fst (m s) <> OutOfFuel -> m' s = m s.

(** ** [WindowsVolumeScanner] *)

Definition TYPE_INDICATOR_OS : string := "OS".

(** The members of the [_WINDOWS_DIRECTORIES] frozenset. *)
Definition _WINDOWS_DIRECTORIES : list string :=
  ["C:\Windows"; "C:\WINNT"; "C:\WTSRV"; "C:\WINNT35"].

Definition spec_type_indicator (spec : PathSpec) : string :=
  match spec with NewPathSpec type_indicator _ _ => type_indicator end.

Definition spec_parent (spec : PathSpec) : option PathSpec :=
  match spec with NewPathSpec _ _ parent => parent end.

(** File systems and file objects are objects of the resolver; the scanner
    only holds them. *)
Definition FileSystem : Type := nat.
Definition FileObject : Type := nat.

(** A [WindowsPathResolver], known by what it was made from. Its
    environment variables are its own state. *)
Record WindowsPathResolver : Type := {
  resolver_file_system : option FileSystem;
  resolver_mount_point : option PathSpec
}.

(** What the Windows scanner asks of the resolver, of file systems and of
    path resolvers, in the order it asks it. *)
Inductive WindowsEvent : Type :=
| FileSystemOpened (path_spec : option PathSpec) (file_system : option FileSystem)
| FileSystemClosed (file_system : FileSystem)
| PathResolverMade (file_system : option FileSystem) (mount_point : option PathSpec)
| PathResolved (path_resolver : WindowsPathResolver) (windows_path : string)
| EnvironmentVariableSet (path_resolver : WindowsPathResolver) (name value : string)
| FileObjectAsked (file_system : FileSystem) (path_spec : PathSpec).

(** The collaborators of the Windows scanner. A path resolver and a file
    system keep state, so their methods also see what was asked before. *)
Record WindowsCollaborators : Type := {
  OpenFileSystem : option PathSpec -> exn + option FileSystem;
  Close : FileSystem -> option exn;
  WindowsPathResolver_init : option FileSystem -> option PathSpec -> option exn;
  ResolvePath :
    list WindowsEvent -> WindowsPathResolver -> string -> exn + option PathSpec;
  SetEnvironmentVariable :
    list WindowsEvent -> WindowsPathResolver -> string -> string -> option exn;
  GetFileObjectByPathSpec :
    list WindowsEvent -> FileSystem -> PathSpec -> exn + option FileObject
}.

(** A [WindowsVolumeScanner] instance: what it inherits, the collaborators
    it adds, and the order in which a [for] loop visits the frozenset of
    known directories. *)
Record WindowsVolumeScanner : Type := {
  inherited : VolumeScanner;
  windows_world : WindowsCollaborators;
  iteration_order : list string
}.

(** The attributes that the methods assign, and the record of what was
    asked. *)
Record Attributes : Type := {
  _source_path : option string;
  _source_type : option SourceType;
  _file_system : option FileSystem;
  _path_resolver : option WindowsPathResolver;
  _windows_directory : option string;
  asked_of_windows : list WindowsEvent
}.

(** The attributes after [__init__]. *)
Definition initial_attributes : Attributes :=
  {| _source_path := None; _source_type := None; _file_system := None;
     _path_resolver := None; _windows_directory := None;
     asked_of_windows := [] |}.

Definition note (ev : WindowsEvent) : M Attributes unit :=
  modify (fun a =>
    {| _source_path := _source_path a; _source_type := _source_type a;
       _file_system := _file_system a; _path_resolver := _path_resolver a;
       _windows_directory := _windows_directory a;
       asked_of_windows := (asked_of_windows a ++ [ev])%list |}).

Definition set_source (source_path : string) (source_type : option SourceType)
  : M Attributes unit :=
  modify (fun a =>
    {| _source_path := Some source_path; _source_type := source_type;
       _file_system := _file_system a; _path_resolver := _path_resolver a;
       _windows_directory := _windows_directory a;
       asked_of_windows := asked_of_windows a |}).

Definition set_file_system (file_system : option FileSystem)
  : M Attributes unit :=
  modify (fun a =>
    {| _source_path := _source_path a; _source_type := _source_type a;
       _file_system := file_system; _path_resolver := _path_resolver a;
       _windows_directory := _windows_directory a;
       asked_of_windows := asked_of_windows a |}).

Definition set_path_resolver (path_resolver : WindowsPathResolver)
  : M Attributes unit :=
  modify (fun a =>
    {| _source_path := _source_path a; _source_type := _source_type a;
       _file_system := _file_system a; _path_resolver := Some path_resolver;
       _windows_directory := _windows_directory a;
       asked_of_windows := asked_of_windows a |}).

Definition set_windows_directory (windows_path : string) : M Attributes unit :=
  modify (fun a =>
    {| _source_path := _source_path a; _source_type := _source_type a;
       _file_system := _file_system a; _path_resolver := _path_resolver a;
       _windows_directory := Some windows_path;
       asked_of_windows := asked_of_windows a |}).

(** [try: body finally: cleanup]: the cleanup runs whatever the body did,
    and an exception of the cleanup is the one that leaves. *)
Definition finally {S A} (body : M S A) (cleanup : M S unit) : M S A :=
  fun s =>
    let (outcome, s') := body s in
    match cleanup s' with
    | (Returns _, s'') => (outcome, s'')
    | (Raises e, s'') => (Raises e, s'')
    | (OutOfFuel, s'') => (OutOfFuel, s'')
    end.

(** A method that touches only the attributes, or only the rest of the
    state, run on both. *)
Definition on_self {T A} (m : M Attributes A) : M (Attributes * T) A :=
  fun s => let (outcome, a) := m (fst s) in (outcome, (a, snd s)).

Definition on_rest {T A} (m : M T A) : M (Attributes * T) A :=
  fun s => let (outcome, t) := m (snd s) in (outcome, (fst s, t)).

Module Windows.

(** [resolver.Resolver.OpenFileSystem(path_spec)]. *)
Definition open_file_system (self : WindowsVolumeScanner)
    (path_spec : option PathSpec) : M Attributes (option FileSystem) :=
  match OpenFileSystem (windows_world self) path_spec with
  | inr file_system =>
      note (FileSystemOpened path_spec file_system) ;; ret file_system
  | inl e => note (FileSystemOpened path_spec None) ;; raise e
  end.

(** [file_system.Close()]. *)
Definition close (self : WindowsVolumeScanner) (file_system : FileSystem)
  : M Attributes unit :=
  note (FileSystemClosed file_system) ;;
  match Close (windows_world self) file_system with
  | None => ret tt
  | Some e => raise e
  end.

(** [windows_path_resolver.WindowsPathResolver(file_system, mount_point)]. *)
Definition new_path_resolver (self : WindowsVolumeScanner)
    (file_system : option FileSystem) (mount_point : option PathSpec)
  : M Attributes WindowsPathResolver :=
  note (PathResolverMade file_system mount_point) ;;
  match WindowsPathResolver_init (windows_world self) file_system mount_point with
  | None => ret {| resolver_file_system := file_system;
                   resolver_mount_point := mount_point |}
  | Some e => raise e
  end.

(** [path_resolver.ResolvePath(windows_path)]. *)
Definition resolve_path (self : WindowsVolumeScanner)
    (path_resolver : WindowsPathResolver) (windows_path : string)
  : M Attributes (option PathSpec) :=
  a <- get ;;
  note (PathResolved path_resolver windows_path) ;;
  answer (ResolvePath (windows_world self) (asked_of_windows a)
            path_resolver windows_path).

(** [path_resolver.SetEnvironmentVariable(name, value)]. *)
Definition set_environment_variable (self : WindowsVolumeScanner)
    (path_resolver : WindowsPathResolver) (name value : string)
  : M Attributes unit :=
  a <- get ;;
  note (EnvironmentVariableSet path_resolver name value) ;;
  match SetEnvironmentVariable (windows_world self) (asked_of_windows a)
          path_resolver name value with
  | None => ret tt
  | Some e => raise e
  end.

(** The loop of [_ScanFileSystemForWindowsDirectory] over the directories
    still to visit. *)
Fixpoint scan_directories (self : WindowsVolumeScanner)
    (path_resolver : WindowsPathResolver) (windows_paths : list string)
  : M Attributes bool :=
  match windows_paths with
  | [] => ret false
  | windows_path :: rest =>
      windows_path_spec <- resolve_path self path_resolver windows_path ;;
      match windows_path_spec with
      | Some _ => set_windows_directory windows_path ;; ret true
      | None => scan_directories self path_resolver rest
      end
  end.

Definition _ScanFileSystemForWindowsDirectory (self : WindowsVolumeScanner)
    (path_resolver : WindowsPathResolver) : M Attributes bool :=
  scan_directories self path_resolver (iteration_order self).

(** The override of [_ScanFileSystem]. *)
Definition _ScanFileSystem (self : WindowsVolumeScanner)
    (scan_node : option NodeRef) : M (Attributes * State) unit :=
  s <- get ;;
  match scan_node with
  | None => raise (ScannerError "Invalid or missing file system scan node.")
  | Some this =>
      match path_spec (node (scan_context (snd s)) this) with
      | None => raise (ScannerError "Invalid or missing file system scan node.")
      | Some scan_path_spec =>
          file_system <- on_self (open_file_system self (Some scan_path_spec)) ;;
          match file_system with
          | None => ret tt
          | Some file_system =>
              finally
                (path_resolver <-
                   on_self (new_path_resolver self (Some file_system)
                              (spec_parent scan_path_spec)) ;;
                 found <-
                   on_self (_ScanFileSystemForWindowsDirectory self
                              path_resolver) ;;
                 if found : bool then on_rest (append (Some scan_path_spec))
                 else ret tt)
                (on_self (close self file_system))
          end
      end
  end.

(** The methods that the Windows scanner inherits call [self._ScanFileSystem];
    here they are with that method as [method]. *)
Section Inherited.

Variable self : VolumeScanner.
Variable method : option NodeRef -> M (Attributes * State) unit.

Definition scan_volume_at
    (_ScanVolume : option NodeRef -> M (Attributes * State) unit)
    (this : NodeRef) (volume_identifier : string)
  : M (Attributes * State) unit :=
  s <- get ;;
  let location := "/" ++ volume_identifier in
  match GetSubNodeByLocation (node (scan_context (snd s)) this) location with
  | None =>
      raise (ScannerError
        ("Scan node missing for volume identifier: "
         ++ volume_identifier ++ "."))
  | Some sub_scan_node => _ScanVolume (Some sub_scan_node)
  end.

Definition _ScanVolumeSystemRoot
    (_ScanVolume : option NodeRef -> M (Attributes * State) unit)
    (scan_node : option NodeRef) : M (Attributes * State) unit :=
  s <- get ;;
  match scan_node with
  | None => raise (ScannerError "Invalid scan node.")
  | Some this =>
      let this_node := node (scan_context (snd s)) this in
      match path_spec this_node with
      | None => raise (ScannerError "Invalid scan node.")
      | Some _ =>
          volume_identifiers <-
            (if type_indicator this_node =? TYPE_INDICATOR_APFS_CONTAINER then
               on_rest (lift (_GetAPFSVolumeIdentifiers self (Some this_node)))
             else if type_indicator this_node =? TYPE_INDICATOR_VSHADOW then
               volume_identifiers <-
                 on_rest (lift (_GetVSSStoreIdentifiers self (Some this_node))) ;;
               ret (rev volume_identifiers)
             else
               raise (ScannerError
                 ("Unsupported volume system type: "
                  ++ type_indicator this_node ++ "."))) ;;
          for_each volume_identifiers (scan_volume_at _ScanVolume this)
      end
  end.

Definition scan_unlocked
    (_ScanVolume : option NodeRef -> M (Attributes * State) unit)
    (this : NodeRef) : M (Attributes * State) unit :=
  s <- get ;;
  let this_node := node (scan_context (snd s)) this in
  if IsVolumeSystemRoot this_node then
    _ScanVolumeSystemRoot _ScanVolume (Some this)
  else if IsFileSystem this_node then
    method (Some this)
  else if type_indicator this_node =? TYPE_INDICATOR_VSHADOW then
    on_rest (append (Some (NewPathSpec TYPE_INDICATOR_TSK (Some "/")
                             (path_spec this_node))))
  else
    for_each (sub_nodes this_node) (fun sub_scan_node =>
      _ScanVolume (Some sub_scan_node)).

Fixpoint _ScanVolume (fuel : nat) (scan_node : option NodeRef) {struct fuel}
  : M (Attributes * State) unit :=
  match fuel with
  | O => out_of_fuel
  | S fuel =>
      s <- get ;;
      match scan_node with
      | None => raise (ScannerError "Invalid or missing scan node.")
      | Some this =>
          match path_spec (node (scan_context (snd s)) this) with
          | None => raise (ScannerError "Invalid or missing scan node.")
          | Some _ =>
              still_locked <-
                (if IsLockedScanNode (scan_context (snd s))
                      (path_spec (node (scan_context (snd s)) this))
                 then
                   on_rest (_ScanEncryptedVolume self scan_node) ;;
                   s <- get ;;
                   ret (IsLockedScanNode (scan_context (snd s))
                          (path_spec (node (scan_context (snd s)) this)))
                 else ret false) ;;
              if still_locked : bool then ret tt
              else scan_unlocked (_ScanVolume fuel) this
          end
      end
  end.

Definition scan_partitions (fuel : nat) (scan_node : NodeRef)
    (partition_identifiers : list string) : M (Attributes * State) unit :=
  for_each partition_identifiers (fun partition_identifier =>
    s <- get ;;
    let location := "/" ++ partition_identifier in
    let sub_scan_node :=
      GetSubNodeByLocation (node (scan_context (snd s)) scan_node) location in
    _ScanVolume fuel sub_scan_node).

(** Runs the walk on a fresh [base_path_specs = []] and hands the list
    back. *)
Definition collect (ctx : SourceScannerContext)
    (walk : M (Attributes * State) unit)
  : M (Attributes * list Event) (list (option PathSpec)) :=
  fun s =>
    match walk (fst s, {| scan_context := ctx; base_path_specs := [];
                          trace := snd s |}) with
    | (Returns _, (a, st)) => (Returns (base_path_specs st), (a, trace st))
    | (Raises e, (a, st)) => (Raises e, (a, trace st))
    | (OutOfFuel, (a, st)) => (OutOfFuel, (a, trace st))
    end.

(** [GetBasePathSpecs], with its two assignments to attributes. *)
Definition GetBasePathSpecs (fuel : nat) (source_path : string)
  : M (Attributes * list Event) (list (option PathSpec)) :=
  if (source_path =? "")%string then raise (ScannerError "Invalid source path.")
  else if negb (startswith source_path "\\.\")
          && negb (os_path_exists (world self) source_path) then
    raise (ScannerError
      ("No such device, file or directory: " ++ source_path ++ "."))
  else
    scan_context <- on_rest (answer (OpenSourcePath (world self) source_path)) ;;
    scan_context <- on_rest (first_scan self scan_context) ;;
    on_self (set_source source_path (source_type scan_context)) ;;
    if negb (is_storage_media (source_type scan_context)) then
      ret [path_spec (node scan_context (GetRootScanNode scan_context))]
    else
      match first_decision_node fuel scan_context
              (GetRootScanNode scan_context) with
      | None => out_of_fuel
      | Some scan_node =>
          collect scan_context
            (if negb (type_indicator (node scan_context scan_node)
                      =? TYPE_INDICATOR_TSK_PARTITION) then
               _ScanVolume fuel (Some scan_node)
             else
               partition_identifiers <-
                 on_rest (lift (_GetTSKPartitionIdentifiers self
                                  (Some (node scan_context scan_node)))) ;;
               scan_partitions fuel scan_node partition_identifiers)
      end.

End Inherited.

(** [not self._windows_directory]. *)
Definition no_windows_directory (a : Attributes) : bool :=
  match _windows_directory a with
  | None => true
  | Some windows_directory => (windows_directory =? "")%string
  end.

(** [OpenFile]. *)
Definition OpenFile (self : WindowsVolumeScanner) (windows_path : string)
  : M Attributes (option FileObject) :=
  a <- get ;;
  match _path_resolver a with
  | None =>
      raise (OtherException "AttributeError"
               "'NoneType' object has no attribute 'ResolvePath'")
  | Some path_resolver =>
      path_spec <- resolve_path self path_resolver windows_path ;;
      match path_spec with
      | None => ret None
      | Some path_spec =>
          a <- get ;;
          match _file_system a with
          | None =>
              raise (OtherException "AttributeError"
                       "'NoneType' object has no attribute 'GetFileObjectByPathSpec'")
          | Some file_system =>
              note (FileObjectAsked file_system path_spec) ;;
              answer (GetFileObjectByPathSpec (windows_world self)
                        (asked_of_windows a) file_system path_spec)
          end
      end
  end.

(** The part of [ScanForWindowsVolume] after [GetBasePathSpecs] returned
    [windows_path_specs]. *)
Definition bind_windows_volume (self : WindowsVolumeScanner)
    (windows_path_specs : list (option PathSpec)) : M Attributes bool :=
  a <- get ;;
  match windows_path_specs with
  | [] => ret false
  | file_system_path_spec :: _ =>
      match _source_type a with
      | Some SOURCE_TYPE_FILE => ret false
      | _ =>
          file_system <- open_file_system self file_system_path_spec ;;
          set_file_system file_system ;;
          match file_system_path_spec with
          | None =>
              raise (OtherException "AttributeError"
                       "'NoneType' object has no attribute 'type_indicator'")
          | Some spec =>
              let mount_point :=
                if spec_type_indicator spec =? TYPE_INDICATOR_OS
                then Some spec else spec_parent spec in
              path_resolver <- new_path_resolver self file_system mount_point ;;
              set_path_resolver path_resolver ;;
              a <- get ;;
              (if no_windows_directory a then
                 _ScanFileSystemForWindowsDirectory self path_resolver ;; ret tt
               else ret tt) ;;
              a <- get ;;
              match _windows_directory a with
              | None => ret false
              | Some windows_directory =>
                  if (windows_directory =? "")%string then ret false
                  else
                    set_environment_variable self path_resolver
                      "SystemRoot" windows_directory ;;
                    set_environment_variable self path_resolver
                      "WinDir" windows_directory ;;
                    ret true
              end
          end
      end
  end.

Definition ScanForWindowsVolume (self : WindowsVolumeScanner) (fuel : nat)
    (source_path : string) : M (Attributes * list Event) bool :=
  windows_path_specs <-
    GetBasePathSpecs (inherited self) (_ScanFileSystem self) fuel source_path ;;
  on_self (bind_windows_volume self windows_path_specs).

End Windows.
(** ** What the Windows scanner asked: file systems opened and closed *)

Definition is_PathResolved (ev : WindowsEvent) : bool :=
  match ev with PathResolved _ _ => true | _ => false end.

Definition opens (file_system : FileSystem) (ev : WindowsEvent) : bool :=
  match ev with
  | FileSystemOpened _ (Some opened) => (file_system =? opened)%nat
  | _ => false
  end.

Definition closes (file_system : FileSystem) (ev : WindowsEvent) : bool :=
  match ev with
  | FileSystemClosed closed => (file_system =? closed)%nat
  | _ => false
  end.

(** Between [a] and [a'] every file system was closed as often as it was
    opened. *)
Definition all_closed_since (a a' : Attributes) : Prop :=
  exists added : list WindowsEvent,
    asked_of_windows a' = (asked_of_windows a ++ added)%list
    /\ forall file_system : FileSystem,
         length (filter (opens file_system) added)
         = length (filter (closes file_system) added).

(** Two computations that do the same from every state. *)
Definition same {S A} (m m' : M S A) : Prop := forall s : S, m s = m' s.

(** A path resolver whose answers for the known directories do not depend
    on what was asked before. *)
Definition answers (self : WindowsVolumeScanner)
    (path_resolver : WindowsPathResolver)
    (known : string -> option PathSpec) : Prop :=
  forall (asked : list WindowsEvent) (windows_path : string),
    ResolvePath (windows_world self) asked path_resolver windows_path
    = inr (known windows_path).

Definition resolves (known : string -> option PathSpec)
    (windows_path : string) : bool :=
  match known windows_path with Some _ => true | None => false end.

Definition is_file_system_event (ev : WindowsEvent) : bool :=
  match ev with
  | FileSystemOpened _ _ | FileSystemClosed _ => true
  | _ => false
  end.

(** A computation that, from every state, ends with attributes related by
    [R] to those it started with; [keeps] is the same for a computation on
    the attributes alone. *)
Definition keeping {T A} (R : Attributes -> Attributes -> Prop)
    (m : M (Attributes * T) A) : Prop :=
  forall s : Attributes * T, R (fst s) (fst (snd (m s))).

Definition keeps {A} (R : Attributes -> Attributes -> Prop)
    (m : M Attributes A) : Prop :=
  forall a : Attributes, R a (snd (m a)).

(** Between [a] and [a'] the file system and the path resolver that the
    scanner holds are the same, and [_windows_directory] is as it was or is
    one of [windows_paths]. *)
Definition directory_among (windows_paths : list string)
    (a a' : Attributes) : Prop :=
  _file_system a' = _file_system a
  /\ _path_resolver a' = _path_resolver a
  /\ (_windows_directory a' = _windows_directory a
      \/ exists windows_path,
           In windows_path windows_paths
           /\ _windows_directory a' = Some windows_path).

(** A method of the Windows scanner that returns and asks what a method of
    the base scanner does, whatever the attributes are. *)
Definition as_inherited {A} (m : M (list Event) A)
    (m' : M (Attributes * list Event) A) : Prop :=
  forall (a : Attributes) (t : list Event),
    fst (m' (a, t)) = fst (m t) /\ snd (snd (m' (a, t))) = snd (m t).

(** The [_ScanFileSystem] of the base class, as the method that the
    inherited methods call. *)
Definition base_method (scan_node : option NodeRef)
  : M (Attributes * State) unit :=
  on_rest (_ScanFileSystem scan_node).

(** ** Concrete sources for the further properties *)

Module MoreExamples.

Import Examples.

(** A mediator that is interrupted while it unlocks. *)
Definition interrupted_unlock : VolumeScannerMediator :=
  {| GetAPFSVolumeIdentifiers := select_all;
     GetPartitionIdentifiers := select_all;
     GetVSSStoreIdentifiers := select_all;
     UnlockEncryptedVolume := fun _ _ _ _ => inl KeyboardInterrupt |}.

Definition scanner_with (mediator : VolumeScannerMediator)
    (ctx : SourceScannerContext) (volume_system : VolumeSystem)
  : VolumeScanner :=
  {| _mediator := Some mediator; world := collaborators ctx volume_system |}.

(** A source whose first scan raises [e]. *)
Definition unscannable (e : exn) (ctx : SourceScannerContext)
  : VolumeScanner :=
  {| _mediator := None;
     world :=
       {| os_path_exists := fun _ => true;
          OpenSourcePath := fun _ => inr ctx;
          Scan := fun _ _ => inl e;
          Open := fun _ _ => inr two_partitions;
          GetCredentials := fun _ => None |} |}.

(** A shadow store that reports a store the scan did not find. *)
Definition stores_with_stranger : VolumeSystem :=
  volume_system_of ["vss1"; "vss3"].

Definition winnt_spec : PathSpec :=
  child "NTFS" "\WINNT" TwoPartitions.p2_spec.

(** Of the known directories only [C:\WINNT] exists. *)
Definition known_winnt (windows_path : string) : option PathSpec :=
  if (windows_path =? "C:\WINNT")%string then Some winnt_spec else None.

Definition windows_collaborators : WindowsCollaborators :=
  {| OpenFileSystem := fun _ => inr (Some 7%nat);
     Close := fun _ => None;
     WindowsPathResolver_init := fun _ _ => None;
     ResolvePath := fun _ _ windows_path => inr (known_winnt windows_path);
     SetEnvironmentVariable := fun _ _ _ _ => None;
     GetFileObjectByPathSpec := fun _ _ _ => inr (Some 1%nat) |}.

(** The frozenset visited from its third member on. *)
Definition visiting_order : list string :=
  ["C:\WTSRV"; "C:\WINNT35"; "C:\Windows"; "C:\WINNT"].

Definition windows_scanner (base : VolumeScanner) : WindowsVolumeScanner :=
  {| inherited := base;
     windows_world := windows_collaborators;
     iteration_order := visiting_order |}.

Definition ntfs_resolver : WindowsPathResolver :=
  {| resolver_file_system := Some 7%nat;
     resolver_mount_point := Some TwoPartitions.p2_spec |}.

(** The attributes of a scanner that found [C:\WINNT] before. *)
Definition found_before : Attributes :=
  {| _source_path := Some "/other.raw";
     _source_type := Some SOURCE_TYPE_STORAGE_MEDIA_IMAGE;
     _file_system := None; _path_resolver := None;
     _windows_directory := Some "C:\WINNT";
     asked_of_windows := [] |}.

(** An image with two partitions: [p1] holds a volume with two shadow
    stores, [p2] an NTFS file system. The mediator selects both partitions
    and, of the stores, [vss2] and then a store [9] that the volume does
    not have. *)
Module StoresInPartition.
Definition table_spec : PathSpec := child "TSK_PARTITION" "/" raw_spec.
Definition p1_spec : PathSpec := child "TSK_PARTITION" "/p1" raw_spec.
Definition p2_spec : PathSpec := child "TSK_PARTITION" "/p2" raw_spec.
Definition vss_root_spec : PathSpec := child "VSHADOW" "/" p1_spec.
Definition vss1_spec : PathSpec := child "VSHADOW" "/vss1" p1_spec.
Definition vss2_spec : PathSpec := child "VSHADOW" "/vss2" p1_spec.
Definition ntfs_spec : PathSpec := child "NTFS" "/" p2_spec.

Definition nodes (ref : NodeRef) : ScanNode :=
  match ref with
  | 0 => scan_node_of os_spec "OS" false false [("/image.raw", 1)]
  | 1 => scan_node_of raw_spec "RAW" false false [("", 2)]
  | 2 => scan_node_of table_spec "TSK_PARTITION" true false
           [("/p1", 3); ("/p2", 4)]
  | 3 => scan_node_of p1_spec "TSK_PARTITION" false false [("/", 5)]
  | 4 => scan_node_of p2_spec "TSK_PARTITION" false false [("/", 8)]
  | 5 => scan_node_of vss_root_spec "VSHADOW" true false
           [("/vss1", 6); ("/vss2", 7)]
  | 6 => scan_node_of vss1_spec "VSHADOW" false false []
  | 7 => scan_node_of vss2_spec "VSHADOW" false false []
  | _ => scan_node_of ntfs_spec "NTFS" false true []
  end%nat.

Definition context : SourceScannerContext :=
  context_of SOURCE_TYPE_STORAGE_MEDIA_IMAGE nodes.

Definition mediator : VolumeScannerMediator :=
  {| GetAPFSVolumeIdentifiers := select_all;
     GetPartitionIdentifiers := select_all;
     GetVSSStoreIdentifiers := fun _ _ _ => inr (Some [IdStr "vss2"; IdInt 9]);
     UnlockEncryptedVolume := fun _ ctx _ _ => inr (false, ctx) |}.

Definition scanner : VolumeScanner :=
  {| _mediator := Some mediator;
     world :=
       {| os_path_exists := fun _ => true;
          OpenSourcePath := fun _ => inr context;
          Scan := fun ctx _ => inr ctx;
          Open := fun kind _ =>
            inr match kind with
                | TSKVolumeSystem => two_partitions
                | _ => two_stores
                end;
          GetCredentials := fun _ => None |} |}.
End StoresInPartition.

End MoreExamples.

(** * Properties *)

(** ** Strings and numerals *)










(** [int] does not take the separators U+001C to U+001F for white space,
    so such an identifier is left as it is; it reads the decimal digits of
    every script, here the fullwidth digit two, and the white space beyond
    ASCII, here a no-break space. *)
Example int_base10_of_a_unit_separator :
  int_base10 (String (ascii_of_nat 31) "2") = None
  /\ normalized_form "p" (IdStr (String (ascii_of_nat 31) "2"))
     = String (ascii_of_nat 31) "2".
Proof. split; reflexivity. Qed.

Example int_base10_of_a_fullwidth_digit :
  let fullwidth_two :=
    String (ascii_of_nat 239)
      (String (ascii_of_nat 188) (String (ascii_of_nat 146) EmptyString)) in
  let no_break_space :=
    String (ascii_of_nat 194) (String (ascii_of_nat 160) EmptyString) in
  int_base10 fullwidth_two = Some 2%Z
  /\ normalized_form "p" (IdStr fullwidth_two) = "p2"
  /\ int_base10 (no_break_space ++ "-1_0" ++ fullwidth_two ++ " ")
     = Some (-102)%Z.
Proof. repeat split. Qed.


(** ** Normalization *)

Lemma normalized_form_prefixed (prefix s : string) :
  startswith s prefix = true -> normalized_form prefix (IdStr s) = s.
Proof. simpl. now intros ->. Qed.


Lemma normalized_inr (volume_system : VolumeSystem) (prefix : string)
    (ids : list VolumeIdentifier) (out : list string) :
  _NormalizedVolumeIdentifiers volume_system ids prefix = inr out ->
  out = map (normalized_form prefix) ids
  /\ forallb (fun id => volume_exists volume_system (normalized_form prefix id))
             ids = true.
Proof.
  revert out. induction ids as [|id ids IH]; simpl; intros out H.
  - now inversion H.
  - destruct (volume_exists volume_system (normalized_form prefix id)); [|discriminate].
    destruct (_NormalizedVolumeIdentifiers volume_system ids prefix) as [e|rest];
      [discriminate|].
    inversion H; subst. destruct (IH rest eq_refl) as [-> ->]. now split.
Qed.

Lemma normalized_all_exist (volume_system : VolumeSystem) (prefix : string)
    (ids : list VolumeIdentifier) :
  forallb (fun id => volume_exists volume_system (normalized_form prefix id))
          ids = true ->
  _NormalizedVolumeIdentifiers volume_system ids prefix
  = inr (map (normalized_form prefix) ids).
Proof.
  induction ids as [|id ids IH]; simpl; [reflexivity|].
  intros H. apply andb_true_iff in H as [-> H]. now rewrite (IH H).
Qed.


(** ** Identifier resolution *)

Ltac run :=
  cbv beta iota delta
    [resolve _GetAPFSVolumeIdentifiers _GetTSKPartitionIdentifiers
     _GetVSSStoreIdentifiers valid_path_spec open_volume_system
     select_or_abort normalize_selection selection_method selection_call
     resolution_prefix bind ret raise get modify emit answer].

(** The resolution of a node without a path specification, or of no node. *)
Lemma resolve_invalid (kind : VolumeSystemKind) (self : VolumeScanner)
    (scan_node : option ScanNode) (t : list Event) :
  valid_path_spec scan_node = None ->
  resolve kind self scan_node t = (Raises (ScannerError "Invalid scan node."), t).
Proof.
  intros H. destruct kind; cbv beta iota delta
    [resolve _GetAPFSVolumeIdentifiers _GetTSKPartitionIdentifiers
     _GetVSSStoreIdentifiers]; now rewrite H.
Qed.

(** An empty volume system: nothing is selected and nobody is asked. *)
Lemma resolve_empty (kind : VolumeSystemKind) (self : VolumeScanner)
    (scan_node : ScanNode) (scan_path_spec : PathSpec)
    (volume_system : VolumeSystem) (t : list Event) :
  path_spec scan_node = Some scan_path_spec ->
  Open (world self) kind scan_path_spec = inr volume_system ->
  GetVolumeIdentifiers volume_system = [] ->
  resolve kind self (Some scan_node) t
  = (Returns [], (t ++ [VolumeSystemOpen kind scan_path_spec])%list).
Proof.
  intros Hps Hopen Hids. destruct kind; run; now rewrite Hps, Hopen, Hids.
Qed.

(** Past the guards and with a mediator: the mediator is called once, right
    after the volume system was opened, and its answer decides the
    outcome. *)
Lemma resolve_asks (kind : VolumeSystemKind) (self : VolumeScanner)
    (scan_node : ScanNode) (scan_path_spec : PathSpec)
    (volume_system : VolumeSystem) (mediator : VolumeScannerMediator)
    (t : list Event) :
  path_spec scan_node = Some scan_path_spec ->
  Open (world self) kind scan_path_spec = inr volume_system ->
  reaches_mediator kind (length (GetVolumeIdentifiers volume_system)) = true ->
  _mediator self = Some mediator ->
  let asked := (t ++ [VolumeSystemOpen kind scan_path_spec])%list in
  let volume_identifiers := GetVolumeIdentifiers volume_system in
  resolve kind self (Some scan_node) t
  = (match selection_method kind mediator asked volume_system
             volume_identifiers with
     | inr (Some selected) =>
         match _NormalizedVolumeIdentifiers volume_system selected
                 (resolution_prefix kind) with
         | inr normalized => Returns normalized
         | inl e => Raises e
         end
     | inr None => Raises (TypeError "'NoneType' object is not iterable")
     | inl e =>
         match listed_class e with
         | KeyboardInterrupt => Raises (UserAbort "File system scan aborted.")
         | _ => Raises e
         end
     end,
     (asked ++ [MediatorCalled
                  (selection_call kind volume_system volume_identifiers)])%list).
Proof.
  intros Hps Hopen Hreach Hmed asked volume_identifiers.
  subst asked volume_identifiers.
  destruct kind; run; rewrite Hps, Hopen;
    destruct (GetVolumeIdentifiers volume_system) as [|id0 [|id1 ids]] eqn:Hids;
    try discriminate Hreach; rewrite Hmed; cbn [length Nat.ltb Nat.leb Nat.eqb];
    match goal with
    | |- context [?method _ volume_system ?l] =>
        destruct (method (t ++ [VolumeSystemOpen _ scan_path_spec])%list
                    volume_system l) as [e|[selected|]]
    end; try reflexivity;
    first [now destruct (listed_class e)
          |now destruct (_NormalizedVolumeIdentifiers volume_system selected _)].
Qed.

(** Past the guards and without a mediator: a scan error, right after the
    volume system was opened. *)
Lemma resolve_no_mediator (kind : VolumeSystemKind) (self : VolumeScanner)
    (scan_node : ScanNode) (scan_path_spec : PathSpec)
    (volume_system : VolumeSystem) (t : list Event) :
  path_spec scan_node = Some scan_path_spec ->
  Open (world self) kind scan_path_spec = inr volume_system ->
  reaches_mediator kind (length (GetVolumeIdentifiers volume_system)) = true ->
  _mediator self = None ->
  exists message,
    resolve kind self (Some scan_node) t
    = (Raises (ScannerError message),
       (t ++ [VolumeSystemOpen kind scan_path_spec])%list).
Proof.
  intros Hps Hopen Hreach Hmed.
  destruct kind; run; rewrite Hps, Hopen;
    destruct (GetVolumeIdentifiers volume_system) as [|id0 [|id1 ids]] eqn:Hids;
    try discriminate Hreach; rewrite Hmed; cbn [length Nat.ltb Nat.leb Nat.eqb];
    eexists; reflexivity.
Qed.

(** One partition: returned as reported, nobody asked, nothing looked up. *)
Lemma resolve_single_partition (self : VolumeScanner)
    (scan_node : ScanNode) (scan_path_spec : PathSpec)
    (volume_system : VolumeSystem) (identifier : string) (t : list Event) :
  path_spec scan_node = Some scan_path_spec ->
  Open (world self) TSKVolumeSystem scan_path_spec = inr volume_system ->
  GetVolumeIdentifiers volume_system = [identifier] ->
  _GetTSKPartitionIdentifiers self (Some scan_node) t
  = (Returns [identifier],
     (t ++ [VolumeSystemOpen TSKVolumeSystem scan_path_spec])%list).
Proof.
  intros Hps Hopen Hids. run. now rewrite Hps, Hopen, Hids.
Qed.

(** One APFS volume: normalized, nobody asked. *)
Lemma resolve_single_apfs (self : VolumeScanner)
    (scan_node : ScanNode) (scan_path_spec : PathSpec)
    (volume_system : VolumeSystem) (identifier : string) (t : list Event) :
  path_spec scan_node = Some scan_path_spec ->
  Open (world self) APFSVolumeSystem scan_path_spec = inr volume_system ->
  GetVolumeIdentifiers volume_system = [identifier] ->
  _GetAPFSVolumeIdentifiers self (Some scan_node) t
  = (match _NormalizedVolumeIdentifiers volume_system [IdStr identifier]
             "apfs" with
     | inr normalized => Returns normalized
     | inl e => Raises e
     end,
     (t ++ [VolumeSystemOpen APFSVolumeSystem scan_path_spec])%list).
Proof.
  intros Hps Hopen Hids. run. rewrite Hps, Hopen, Hids.
  cbn [length Nat.ltb Nat.leb map].
  now destruct (_NormalizedVolumeIdentifiers volume_system [IdStr identifier] _).
Qed.

Lemma mediator_calls_app (t u : list Event) :
  mediator_calls (t ++ u) = (mediator_calls t ++ mediator_calls u)%list.
Proof. apply filter_app. Qed.

(** Below the guards the mediator is not called, whether there is one or
    not. *)
Lemma resolve_quiet (kind : VolumeSystemKind) (self : VolumeScanner)
    (scan_node : ScanNode) (scan_path_spec : PathSpec)
    (volume_system : VolumeSystem) (t : list Event) :
  path_spec scan_node = Some scan_path_spec ->
  Open (world self) kind scan_path_spec = inr volume_system ->
  reaches_mediator kind (length (GetVolumeIdentifiers volume_system)) = false ->
  snd (resolve kind self (Some scan_node) t)
  = (t ++ [VolumeSystemOpen kind scan_path_spec])%list.
Proof.
  intros Hps Hopen Hreach.
  destruct (GetVolumeIdentifiers volume_system) as [|id0 [|id1 ids]] eqn:Hids.
  - now rewrite (resolve_empty kind self scan_node scan_path_spec volume_system).
  - destruct kind; try discriminate Hreach.
    + unfold resolve.
      now rewrite (resolve_single_apfs self scan_node scan_path_spec
                     volume_system id0).
    + unfold resolve.
      now rewrite (resolve_single_partition self scan_node scan_path_spec
                     volume_system id0).
  - destruct kind; discriminate Hreach.
Qed.


(** C3. A partition-table node with no identifier yields the empty list, one
    with exactly one identifier yields that identifier; in both cases the
    mediator is not called. With two or more identifiers the call fails with
    a scan error when no mediator is configured, and otherwise calls the
    mediator. *)
Theorem C3_partition_table_and_mediator
    (self : VolumeScanner) (scan_node : ScanNode)
    (scan_path_spec : PathSpec) (volume_system : VolumeSystem)
    (t : list Event) :
  path_spec scan_node = Some scan_path_spec ->
  Open (world self) TSKVolumeSystem scan_path_spec = inr volume_system ->
  let opened := (t ++ [VolumeSystemOpen TSKVolumeSystem scan_path_spec])%list in
  let volume_identifiers := GetVolumeIdentifiers volume_system in
  let result := _GetTSKPartitionIdentifiers self (Some scan_node) t in
  (volume_identifiers = [] ->
     result = (Returns [], opened)
     /\ mediator_calls (snd result) = mediator_calls t)
  /\ (forall identifier, volume_identifiers = [identifier] ->
     result = (Returns [identifier], opened)
     /\ mediator_calls (snd result) = mediator_calls t)
  /\ ((2 <= length volume_identifiers)%nat ->
      (_mediator self = None ->
         result = (Raises (ScannerError
                     ("Unable to proceed. Partitions found but no mediator to "
                      ++ "determine how they should be used.")), opened))
      /\ (forall mediator, _mediator self = Some mediator ->
         snd result
         = (opened ++ [MediatorCalled
                         (CallGetPartitionIdentifiers volume_system
                            volume_identifiers)])%list
         /\ mediator_calls (snd result)
            = (mediator_calls t
               ++ [MediatorCalled
                     (CallGetPartitionIdentifiers volume_system
                        volume_identifiers)])%list)).
Proof.
  intros Hps Hopen opened volume_identifiers result.
  subst opened volume_identifiers result.
  assert (Hquiet : mediator_calls
            (t ++ [VolumeSystemOpen TSKVolumeSystem scan_path_spec])
            = mediator_calls t).
  { rewrite mediator_calls_app. apply app_nil_r. }
  split; [|split].
  - intros Hids.
    rewrite (resolve_empty TSKVolumeSystem self scan_node scan_path_spec
               volume_system t Hps Hopen Hids : _GetTSKPartitionIdentifiers _ _ _ = _).
    split; [reflexivity | exact Hquiet].
  - intros identifier Hids.
    rewrite (resolve_single_partition self scan_node scan_path_spec volume_system
               identifier t Hps Hopen Hids).
    split; [reflexivity | exact Hquiet].
  - intros Hlen.
    assert (Hreach : reaches_mediator TSKVolumeSystem
                       (length (GetVolumeIdentifiers volume_system)) = true).
    { destruct (GetVolumeIdentifiers volume_system) as [|id0 [|id1 ids]];
        simpl in Hlen |- *; [lia | lia | reflexivity]. }
    split.
    + intros Hmed. run. rewrite Hps, Hopen.
      destruct (GetVolumeIdentifiers volume_system) as [|id0 [|id1 ids]];
        try discriminate Hreach.
      now rewrite Hmed.
    + intros mediator Hmed.
      rewrite (resolve_asks TSKVolumeSystem self scan_node scan_path_spec
                 volume_system mediator t Hps Hopen Hreach Hmed
               : _GetTSKPartitionIdentifiers _ _ _ = _).
      cbn [snd selection_call]. split; [reflexivity|].
      rewrite mediator_calls_app, Hquiet. reflexivity.
Qed.


(** C8. When a selection method of the mediator is called and raises
    [KeyboardInterrupt], the resolution raises [UserAbort], which is not a
    [ScannerError]. *)
Theorem C8_interrupt_becomes_user_abort
    (kind : VolumeSystemKind) (self : VolumeScanner) (scan_node : ScanNode)
    (scan_path_spec : PathSpec) (volume_system : VolumeSystem)
    (mediator : VolumeScannerMediator) (t : list Event) :
  path_spec scan_node = Some scan_path_spec ->
  Open (world self) kind scan_path_spec = inr volume_system ->
  reaches_mediator kind (length (GetVolumeIdentifiers volume_system)) = true ->
  _mediator self = Some mediator ->
  selection_method kind mediator
    (t ++ [VolumeSystemOpen kind scan_path_spec])%list
    volume_system (GetVolumeIdentifiers volume_system)
  = inl KeyboardInterrupt ->
  resolve kind self (Some scan_node) t
  = (Raises (UserAbort "File system scan aborted."),
     (t ++ [VolumeSystemOpen kind scan_path_spec]
        ++ [MediatorCalled (selection_call kind volume_system
                              (GetVolumeIdentifiers volume_system))])%list)
  /\ is_ScannerError (UserAbort "File system scan aborted.") = false.
Proof.
  intros Hps Hopen Hreach Hmed Hint.
  rewrite (resolve_asks kind self scan_node scan_path_spec volume_system
             mediator t Hps Hopen Hreach Hmed).
  cbv zeta. rewrite Hint, <- app_assoc. now split.
Qed.

(** C10. When a selection method of the mediator is called and returns
    [None], the resolution raises, and what it raises is neither a
    [ScannerError] nor a [UserAbort]: the normalization fails to iterate. *)
Theorem C10_none_selection_is_unclassified
    (kind : VolumeSystemKind) (self : VolumeScanner) (scan_node : ScanNode)
    (scan_path_spec : PathSpec) (volume_system : VolumeSystem)
    (mediator : VolumeScannerMediator) (t : list Event) :
  path_spec scan_node = Some scan_path_spec ->
  Open (world self) kind scan_path_spec = inr volume_system ->
  reaches_mediator kind (length (GetVolumeIdentifiers volume_system)) = true ->
  _mediator self = Some mediator ->
  selection_method kind mediator
    (t ++ [VolumeSystemOpen kind scan_path_spec])%list
    volume_system (GetVolumeIdentifiers volume_system)
  = inr None ->
  exists e : exn,
    fst (resolve kind self (Some scan_node) t) = Raises e
    /\ e = TypeError "'NoneType' object is not iterable"
    /\ is_ScannerError e = false
    /\ is_UserAbort e = false.
Proof.
  intros Hps Hopen Hreach Hmed Hnone.
  rewrite (resolve_asks kind self scan_node scan_path_spec volume_system
             mediator t Hps Hopen Hreach Hmed).
  cbv zeta. rewrite Hnone. eexists. cbn [fst]. repeat split.
Qed.

(** ** The walk *)

Lemma lift_run {A} (m : M (list Event) A) (st : State)
    (outcome : Outcome A) (t : list Event) :
  m (trace st) = (outcome, t) -> lift m st = (outcome, with_trace st t).
Proof. unfold lift. now intros ->. Qed.

Lemma bind_returns {S A B} (m : M S A) (k : A -> M S B) (s s' : S) (a : A) :
  m s = (Returns a, s') -> bind m k s = k a s'.
Proof. unfold bind. now intros ->. Qed.

Lemma bind_raises {S A B} (m : M S A) (k : A -> M S B) (s s' : S) (e : exn) :
  m s = (Raises e, s') -> bind m k s = (Raises e, s').
Proof. unfold bind. now intros ->. Qed.

(** An exception in one iteration ends the loop with that exception. *)
Lemma for_each_raises {S A} (body : A -> M S unit) (x : A) (rest : list A)
    (s s' : S) (e : exn) :
  body x s = (Raises e, s') -> for_each (x :: rest) body s = (Raises e, s').
Proof. intros H. cbn [for_each]. now apply bind_raises. Qed.

(** An iteration that returns hands its state to the rest of the loop. *)
Lemma for_each_returns {S A} (body : A -> M S unit) (x : A) (rest : list A)
    (s s' : S) :
  body x s = (Returns tt, s') -> for_each (x :: rest) body s = for_each rest body s'.
Proof. intros H. cbn [for_each]. now rewrite (bind_returns _ _ _ _ _ H). Qed.

(** The unlock attempt never touches [base_path_specs]. *)
Lemma _ScanEncryptedVolume_frame (self : VolumeScanner)
    (scan_node : option NodeRef) (st : State) :
  base_path_specs (snd (_ScanEncryptedVolume self scan_node st))
  = base_path_specs st.
Proof.
  unfold _ScanEncryptedVolume, bind, get, raise, ret.
  destruct scan_node as [this|]; [|reflexivity].
  destruct (path_spec (node (scan_context st) this)) as [spec|]; [|reflexivity].
  destruct (GetCredentials (world self) spec) as [credentials|]; [|reflexivity].
  destruct (_mediator self) as [mediator|]; [|reflexivity].
  unfold unlock.
  destruct (UnlockEncryptedVolume mediator (trace st) (scan_context st) this
              credentials) as [e|[[] ctx]]; try reflexivity.
  unfold rescan. cbn [scan_context with_scan_context record with_trace].
  now destruct (Scan (world self) ctx (path_spec (node ctx this))).
Qed.

(** The start of [GetBasePathSpecs], up to the classification of the
    source. *)
Lemma GetBasePathSpecs_scanned (self : VolumeScanner) (fuel : nat)
    (source_path : string) (opened scanned : SourceScannerContext)
    (t : list Event) :
  source_path <> "" ->
  startswith source_path "\\.\" = true
  \/ os_path_exists (world self) source_path = true ->
  OpenSourcePath (world self) source_path = inr opened ->
  Scan (world self) opened None = inr scanned ->
  GetBasePathSpecs self fuel source_path t
  = (if negb (is_storage_media (source_type scanned)) then
       ret [path_spec (node scanned (GetRootScanNode scanned))]
     else
       match first_decision_node fuel scanned (GetRootScanNode scanned) with
       | None => out_of_fuel
       | Some scan_node =>
           collect scanned
             (if negb (type_indicator (node scanned scan_node)
                       =? TYPE_INDICATOR_TSK_PARTITION) then
                _ScanVolume self fuel (Some scan_node)
              else
                partition_identifiers <-
                  lift (_GetTSKPartitionIdentifiers self
                          (Some (node scanned scan_node))) ;;
                scan_partitions self fuel scan_node partition_identifiers)
       end) (t ++ [SourceScannerScan None])%list.
Proof.
  intros Hne Hexists Hopen Hscan. unfold GetBasePathSpecs.
  destruct (source_path =? "")%string eqn:E;
    [apply String.eqb_eq in E; contradiction|].
  assert (G : negb (startswith source_path "\\.\")
              && negb (os_path_exists (world self) source_path) = false).
  { destruct Hexists as [-> | ->]; [reflexivity | apply andb_false_r]. }
  rewrite G, Hopen. unfold first_scan.
  cbv beta iota delta [bind answer ret emit modify]. now rewrite Hscan.
Qed.

(** C4. A source that exists, scans without error and is classified as
    neither a storage media device nor a storage media image yields exactly
    the path specification of the root scan node; all that was asked of the
    world is the scan itself: no volume system was opened and the mediator
    was not called. *)
Theorem C4_plain_source_yields_root
    (self : VolumeScanner) (fuel : nat) (source_path : string)
    (opened scanned : SourceScannerContext) (t : list Event) :
  source_path <> "" ->
  startswith source_path "\\.\" = true
  \/ os_path_exists (world self) source_path = true ->
  OpenSourcePath (world self) source_path = inr opened ->
  Scan (world self) opened None = inr scanned ->
  source_type scanned <> Some SOURCE_TYPE_STORAGE_MEDIA_DEVICE ->
  source_type scanned <> Some SOURCE_TYPE_STORAGE_MEDIA_IMAGE ->
  GetBasePathSpecs self fuel source_path t
  = (Returns [path_spec (node scanned (GetRootScanNode scanned))],
     (t ++ [SourceScannerScan None])%list)
  /\ filter is_VolumeSystemOpen (snd (GetBasePathSpecs self fuel source_path t))
     = filter is_VolumeSystemOpen t
  /\ mediator_calls (snd (GetBasePathSpecs self fuel source_path t))
     = mediator_calls t.
Proof.
  intros Hne Hexists Hopen Hscan Hdevice Himage.
  rewrite (GetBasePathSpecs_scanned self fuel source_path opened scanned t
             Hne Hexists Hopen Hscan).
  assert (E : is_storage_media (source_type scanned) = false).
  { destruct (source_type scanned) as [[]|]; try reflexivity; congruence. }
  rewrite E. cbn [negb ret snd]. unfold mediator_calls.
  rewrite !filter_app. cbn [filter is_VolumeSystemOpen is_MediatorCalled].
  now rewrite !app_nil_r.
Qed.

(** [_ScanVolume] at a node that is not locked. *)
Lemma _ScanVolume_not_locked (self : VolumeScanner) (fuel : nat)
    (this : NodeRef) (st : State) (spec : PathSpec) :
  path_spec (node (scan_context st) this) = Some spec ->
  IsLockedScanNode (scan_context st) (Some spec) = false ->
  _ScanVolume self (S fuel) (Some this) st
  = scan_unlocked self (_ScanVolume self fuel) this st.
Proof.
  intros Hps Hlocked. cbn [_ScanVolume].
  cbv beta iota delta [bind get]. rewrite Hps, Hlocked. reflexivity.
Qed.

(** [_ScanVolume] at a locked node on which the unlock attempt returns. *)
Lemma _ScanVolume_locked (self : VolumeScanner) (fuel : nat)
    (this : NodeRef) (st st' : State) (spec : PathSpec) :
  path_spec (node (scan_context st) this) = Some spec ->
  IsLockedScanNode (scan_context st) (Some spec) = true ->
  _ScanEncryptedVolume self (Some this) st = (Returns tt, st') ->
  _ScanVolume self (S fuel) (Some this) st
  = if IsLockedScanNode (scan_context st')
         (path_spec (node (scan_context st') this))
    then (Returns tt, st')
    else scan_unlocked self (_ScanVolume self fuel) this st'.
Proof.
  intros Hps Hlocked Hunlock. cbn [_ScanVolume].
  cbv beta iota delta [bind get]. rewrite Hps, Hlocked, Hunlock.
  cbv beta iota delta [ret].
  now destruct (IsLockedScanNode (scan_context st')
                  (path_spec (node (scan_context st') this))).
Qed.

(** C9. At a node that is not locked, is neither a volume system root nor a
    file system and has the VSHADOW type indicator, [_ScanVolume] appends the
    TSK path specification with location [/] and the node's path
    specification as parent, and does nothing else: the scan context and
    the record of what was asked are as before. The same holds, from the
    state the unlock attempt left, when the node was locked and the attempt
    unlocked it. *)
Theorem C9_vshadow_node_gets_tsk_child
    (self : VolumeScanner) (fuel : nat) (this : NodeRef) (st : State)
    (spec : PathSpec) :
  path_spec (node (scan_context st) this) = Some spec ->
  let synthesized (st : State) : State :=
    {| scan_context := scan_context st;
       base_path_specs :=
         (base_path_specs st
          ++ [Some (NewPathSpec TYPE_INDICATOR_TSK (Some "/")
                      (path_spec (node (scan_context st) this)))])%list;
       trace := trace st |} in
  let plain_vshadow (st : State) : Prop :=
    IsLockedScanNode (scan_context st)
      (path_spec (node (scan_context st) this)) = false
    /\ IsVolumeSystemRoot (node (scan_context st) this) = false
    /\ IsFileSystem (node (scan_context st) this) = false
    /\ type_indicator (node (scan_context st) this) = TYPE_INDICATOR_VSHADOW in
  (plain_vshadow st ->
     _ScanVolume self (S fuel) (Some this) st = (Returns tt, synthesized st)
     /\ base_path_specs (synthesized st)
        = (base_path_specs st
           ++ [Some (NewPathSpec TYPE_INDICATOR_TSK (Some "/") (Some spec))])%list)
  /\ (forall st' : State,
       IsLockedScanNode (scan_context st) (Some spec) = true ->
       _ScanEncryptedVolume self (Some this) st = (Returns tt, st') ->
       plain_vshadow st' ->
       _ScanVolume self (S fuel) (Some this) st = (Returns tt, synthesized st')).
Proof.
  intros Hps synthesized plain_vshadow.
  assert (Hdispatch : forall st0, plain_vshadow st0 ->
            scan_unlocked self (_ScanVolume self fuel) this st0
            = (Returns tt, synthesized st0)).
  { intros st0 (_ & Hroot & Hfs & Hti). unfold scan_unlocked.
    cbv beta iota delta [bind get]. now rewrite Hroot, Hfs, Hti. }
  split.
  - intros Hplain. pose proof Hplain as (Hlocked & _).
    rewrite Hps in Hlocked.
    rewrite (_ScanVolume_not_locked self fuel this st spec Hps Hlocked).
    split; [now apply Hdispatch|].
    subst synthesized. cbn [base_path_specs]. now rewrite Hps.
  - intros st' Hlocked Hunlock Hplain. pose proof Hplain as (Hunlocked & _).
    rewrite (_ScanVolume_locked self fuel this st st' spec Hps Hlocked Hunlock).
    rewrite Hunlocked. now apply Hdispatch.
Qed.

(** The resolution at a shadow-store root, and what follows it. *)
Lemma _ScanVolumeSystemRoot_vshadow (self : VolumeScanner)
    (rec : option NodeRef -> M State unit) (this : NodeRef) (st : State)
    (spec : PathSpec) :
  path_spec (node (scan_context st) this) = Some spec ->
  type_indicator (node (scan_context st) this) = TYPE_INDICATOR_VSHADOW ->
  _ScanVolumeSystemRoot self rec (Some this) st
  = match _GetVSSStoreIdentifiers self (Some (node (scan_context st) this))
            (trace st) with
    | (Returns volume_identifiers, t) =>
        for_each (rev volume_identifiers) (scan_volume_at rec this)
          (with_trace st t)
    | (Raises e, t) => (Raises e, with_trace st t)
    | (OutOfFuel, t) => (OutOfFuel, with_trace st t)
    end.
Proof.
  intros Hps Hti. unfold _ScanVolumeSystemRoot.
  cbv beta iota delta [bind get]. rewrite Hps, Hti.
  cbv beta iota delta [lift ret]. cbn [String.eqb Ascii.eqb Bool.eqb
    TYPE_INDICATOR_VSHADOW TYPE_INDICATOR_APFS_CONTAINER].
  now destruct (_GetVSSStoreIdentifiers self
                  (Some (node (scan_context st) this)) (trace st)) as [[ids|e|] t].
Qed.

(** The resolution at an APFS container root, and what follows it. *)
Lemma _ScanVolumeSystemRoot_apfs (self : VolumeScanner)
    (rec : option NodeRef -> M State unit) (this : NodeRef) (st : State)
    (spec : PathSpec) :
  path_spec (node (scan_context st) this) = Some spec ->
  type_indicator (node (scan_context st) this) = TYPE_INDICATOR_APFS_CONTAINER ->
  _ScanVolumeSystemRoot self rec (Some this) st
  = match _GetAPFSVolumeIdentifiers self (Some (node (scan_context st) this))
            (trace st) with
    | (Returns volume_identifiers, t) =>
        for_each volume_identifiers (scan_volume_at rec this) (with_trace st t)
    | (Raises e, t) => (Raises e, with_trace st t)
    | (OutOfFuel, t) => (OutOfFuel, with_trace st t)
    end.
Proof.
  intros Hps Hti. unfold _ScanVolumeSystemRoot.
  cbv beta iota delta [bind get]. rewrite Hps, Hti.
  cbv beta iota delta [lift ret]. cbn [String.eqb Ascii.eqb Bool.eqb
    TYPE_INDICATOR_VSHADOW TYPE_INDICATOR_APFS_CONTAINER].
  now destruct (_GetAPFSVolumeIdentifiers self
                  (Some (node (scan_context st) this)) (trace st)) as [[ids|e|] t].
Qed.

(** At a shadow-store root the identifiers that the mediator selected are
    normalized and then processed in the reverse of the order in which the
    mediator returned them. When the mediator returns prefixed identifiers
    the order is the reverse of that list, and when it returns the reported
    identifiers as they were offered it is the reverse of the volume
    system's enumeration. *)
Lemma stores_in_reverse_of_selection
    (self : VolumeScanner) (rec : option NodeRef -> M State unit)
    (this : NodeRef) (st : State) (spec : PathSpec)
    (volume_system : VolumeSystem) (mediator : VolumeScannerMediator)
    (selected : list VolumeIdentifier) :
  path_spec (node (scan_context st) this) = Some spec ->
  type_indicator (node (scan_context st) this) = TYPE_INDICATOR_VSHADOW ->
  Open (world self) VShadowVolumeSystem spec = inr volume_system ->
  GetVolumeIdentifiers volume_system <> [] ->
  _mediator self = Some mediator ->
  GetVSSStoreIdentifiers mediator
    (trace st ++ [VolumeSystemOpen VShadowVolumeSystem spec])%list
    volume_system (GetVolumeIdentifiers volume_system)
  = inr (Some selected) ->
  forallb (fun id => volume_exists volume_system (normalized_form "vss" id))
          selected = true ->
  let st' :=
    with_trace st
      (trace st
       ++ [VolumeSystemOpen VShadowVolumeSystem spec;
           MediatorCalled
             (CallGetVSSStoreIdentifiers volume_system
                (GetVolumeIdentifiers volume_system))])%list in
  _ScanVolumeSystemRoot self rec (Some this) st
  = for_each (rev (map (normalized_form "vss") selected))
      (scan_volume_at rec this) st'
  /\ (forall chosen : list string,
        selected = map IdStr chosen ->
        forallb (fun s => startswith s "vss") chosen = true ->
        _ScanVolumeSystemRoot self rec (Some this) st
        = for_each (rev chosen) (scan_volume_at rec this) st')
  /\ (selected = map IdStr (GetVolumeIdentifiers volume_system) ->
      forallb (fun s => startswith s "vss")
              (GetVolumeIdentifiers volume_system) = true ->
      _ScanVolumeSystemRoot self rec (Some this) st
      = for_each (rev (GetVolumeIdentifiers volume_system))
          (scan_volume_at rec this) st').
Proof.
  intros Hps Hti Hopen Hids Hmed Hsel Hfound st'.
  assert (Hreach : reaches_mediator VShadowVolumeSystem
                     (length (GetVolumeIdentifiers volume_system)) = true).
  { now destruct (GetVolumeIdentifiers volume_system). }
  assert (Hmain : _ScanVolumeSystemRoot self rec (Some this) st
                  = for_each (rev (map (normalized_form "vss") selected))
                      (scan_volume_at rec this) st').
  { rewrite (_ScanVolumeSystemRoot_vshadow self rec this st spec Hps Hti).
    rewrite (resolve_asks VShadowVolumeSystem self (node (scan_context st) this)
               spec volume_system mediator (trace st) Hps Hopen Hreach Hmed
             : _GetVSSStoreIdentifiers _ _ _ = _).
    cbv zeta. cbn [selection_method selection_call resolution_prefix].
    rewrite Hsel, (normalized_all_exist _ _ _ Hfound).
    subst st'. now rewrite <- app_assoc. }
  assert (Hchosen : forall chosen : list string,
            selected = map IdStr chosen ->
            forallb (fun s => startswith s "vss") chosen = true ->
            map (normalized_form "vss") selected = chosen).
  { intros chosen -> Hprefix. rewrite forallb_forall in Hprefix.
    rewrite map_map. rewrite <- (map_id chosen) at 2.
    apply map_ext_in. intros s Hin.
    exact (normalized_form_prefixed _ _ (Hprefix s Hin)). }
  split; [exact Hmain|]. split.
  - intros chosen Hc Hp. now rewrite Hmain, (Hchosen chosen Hc Hp).
  - intros Hc Hp. now rewrite Hmain, (Hchosen _ Hc Hp).
Qed.



(** ** The properties on concrete sources *)

Import Examples.



Lemma C3_on_examples :
  _GetTSKPartitionIdentifiers
    (scanner None TwoPartitions.context (volume_system_of ["p1"]))
    (Some (TwoPartitions.nodes 2)) []
  = (Returns ["p1"],
     [VolumeSystemOpen TSKVolumeSystem TwoPartitions.table_spec])
  /\ _GetTSKPartitionIdentifiers
       (scanner None TwoPartitions.context two_partitions)
       (Some (TwoPartitions.nodes 2)) []
     = (Raises (ScannerError
          "Unable to proceed. Partitions found but no mediator to determine how they should be used."),
        [VolumeSystemOpen TSKVolumeSystem TwoPartitions.table_spec])
  /\ mediator_calls
       (snd (_GetTSKPartitionIdentifiers
               (scanner (Some select_all) TwoPartitions.context two_partitions)
               (Some (TwoPartitions.nodes 2)) []))
     = [MediatorCalled
          (CallGetPartitionIdentifiers two_partitions ["p1"; "p2"])].
Proof.
  split; [|split].
  - exact (proj1 (proj1 (proj2 (C3_partition_table_and_mediator
             (scanner None TwoPartitions.context (volume_system_of ["p1"]))
             (TwoPartitions.nodes 2) TwoPartitions.table_spec
             (volume_system_of ["p1"]) [] eq_refl eq_refl)) "p1" eq_refl)).
  - exact (proj1 (proj2 (proj2 (C3_partition_table_and_mediator
             (scanner None TwoPartitions.context two_partitions)
             (TwoPartitions.nodes 2) TwoPartitions.table_spec
             two_partitions [] eq_refl eq_refl)) (le_n 2)) eq_refl).
  - exact (proj2 (proj2 (proj2 (proj2 (C3_partition_table_and_mediator
             (scanner (Some select_all) TwoPartitions.context two_partitions)
             (TwoPartitions.nodes 2) TwoPartitions.table_spec
             two_partitions [] eq_refl eq_refl)) (le_n 2))
             (mediator_with select_all) eq_refl)).
Defined.

Lemma C4_on_examples :
  GetBasePathSpecs (scanner None PlainFile.context (volume_system_of []))
    0 "/notes.txt" []
  = (Returns [Some PlainFile.file_spec], [SourceScannerScan None]).
Proof.
  refine (proj1 (C4_plain_source_yields_root
            (scanner None PlainFile.context (volume_system_of []))
            0 "/notes.txt" PlainFile.context PlainFile.context []
            _ (or_intror eq_refl) eq_refl eq_refl _ _)); discriminate.
Defined.

(** An image whose first partition holds a volume that stays locked and
    whose second holds a file system: the call returns the file system. *)
Example locked_partition_is_skipped :
  fst (GetBasePathSpecs
         (scanner (Some select_all) TwoPartitions.context two_partitions)
         2 "/image.raw" [])
  = Returns [Some TwoPartitions.ntfs_spec].
Proof. reflexivity. Qed.

Example empty_source_path_is_refused :
  GetBasePathSpecs (scanner None PlainFile.context two_partitions) 0 "" []
  = (Raises (ScannerError "Invalid source path."), []).
Proof. reflexivity. Qed.

Example missing_source_path_is_refused :
  GetBasePathSpecs (scanner None PlainFile.context two_partitions)
    0 "/no/such/path" []
  = (Raises (ScannerError
       "No such device, file or directory: /no/such/path."), []).
Proof. reflexivity. Qed.

(** An APFS container with one volume that holds a file system: a chain of
    single sub nodes, so the file system itself is where the scanner
    decides. *)
Example single_apfs_volume_is_found :
  GetBasePathSpecs
    (scanner None OneContainer.context (volume_system_of ["apfs1"]))
    2 "/image.raw" []
  = (Returns [Some OneContainer.apfs_spec], [SourceScannerScan None]).
Proof. reflexivity. Qed.

(** With too little fuel the bounded unfolding says so. *)
Example fuel_runs_out :
  fst (GetBasePathSpecs
         (scanner (Some select_all) TwoPartitions.context two_partitions)
         1 "/image.raw" [])
  = OutOfFuel.
Proof. reflexivity. Qed.

(** C6. The stores are not always processed most recent first: the list
    that is reversed is the mediator's selection, not the enumeration of
    the volume system. For a volume with the stores [vss1] and [vss2],
    enumerated in that order, and a mediator that answers [vss2], [vss1],
    [GetBasePathSpecs] processes [vss1] before [vss2]: the oldest store
    comes first, in the order of the enumeration and not in its reverse. *)
Theorem C6_order_follows_the_mediator :
  GetVolumeIdentifiers two_stores = ["vss1"; "vss2"]
  /\ GetVSSStoreIdentifiers (mediator_with select_all_backwards)
       [SourceScannerScan None;
        VolumeSystemOpen VShadowVolumeSystem TwoStores.vss_root_spec]
       two_stores ["vss1"; "vss2"]
     = inr (Some [IdStr "vss2"; IdStr "vss1"])
  /\ GetBasePathSpecs
       (scanner (Some select_all_backwards) TwoStores.context two_stores)
       2 "/image.raw" []
     = (Returns [Some (child "TSK" "/" TwoStores.vss1_spec);
                 Some (child "TSK" "/" TwoStores.vss2_spec)],
        [SourceScannerScan None;
         VolumeSystemOpen VShadowVolumeSystem TwoStores.vss_root_spec;
         MediatorCalled
           (CallGetVSSStoreIdentifiers two_stores ["vss1"; "vss2"])])
  /\ GetBasePathSpecs
       (scanner (Some select_all) TwoStores.context two_stores)
       2 "/image.raw" []
     = (Returns [Some (child "TSK" "/" TwoStores.vss2_spec);
                 Some (child "TSK" "/" TwoStores.vss1_spec)],
        [SourceScannerScan None;
         VolumeSystemOpen VShadowVolumeSystem TwoStores.vss_root_spec;
         MediatorCalled
           (CallGetVSSStoreIdentifiers two_stores ["vss1"; "vss2"])]).
Proof. repeat split. Qed.


Lemma C8_on_examples :
  resolve TSKVolumeSystem
    (scanner (Some interrupted) TwoPartitions.context two_partitions)
    (Some (TwoPartitions.nodes 2)) []
  = (Raises (UserAbort "File system scan aborted."),
     [VolumeSystemOpen TSKVolumeSystem TwoPartitions.table_spec;
      MediatorCalled (CallGetPartitionIdentifiers two_partitions ["p1"; "p2"])])
  /\ resolve VShadowVolumeSystem
       (scanner (Some interrupted) TwoStores.context two_stores)
       (Some (TwoStores.nodes 0)) []
     = (Raises (UserAbort "File system scan aborted."),
        [VolumeSystemOpen VShadowVolumeSystem TwoStores.vss_root_spec;
         MediatorCalled (CallGetVSSStoreIdentifiers two_stores ["vss1"; "vss2"])]).
Proof.
  split.
  - exact (proj1 (C8_interrupt_becomes_user_abort TSKVolumeSystem
             (scanner (Some interrupted) TwoPartitions.context two_partitions)
             (TwoPartitions.nodes 2) TwoPartitions.table_spec two_partitions
             (mediator_with interrupted) [] eq_refl eq_refl eq_refl eq_refl
             eq_refl)).
  - exact (proj1 (C8_interrupt_becomes_user_abort VShadowVolumeSystem
             (scanner (Some interrupted) TwoStores.context two_stores)
             (TwoStores.nodes 0) TwoStores.vss_root_spec two_stores
             (mediator_with interrupted) [] eq_refl eq_refl eq_refl eq_refl
             eq_refl)).
Defined.

Lemma C9_on_examples :
  _ScanVolume (scanner None TwoStores.context two_stores) 1 (Some 1%nat)
    (start TwoStores.context)
  = (Returns tt,
     {| scan_context := TwoStores.context;
        base_path_specs := [Some (child "TSK" "/" TwoStores.vss1_spec)];
        trace := [] |}).
Proof.
  refine (proj1 (proj1 (C9_vshadow_node_gets_tsk_child
            (scanner None TwoStores.context two_stores) 0 1%nat
            (start TwoStores.context) TwoStores.vss1_spec eq_refl) _)).
  repeat split.
Defined.

Lemma C10_on_examples :
  exists e : exn,
    fst (resolve APFSVolumeSystem
           (scanner (Some select_nothing) OneContainer.context
              (volume_system_of ["apfs1"; "apfs2"]))
           (Some (OneContainer.nodes 0)) [])
    = Raises e
    /\ e = TypeError "'NoneType' object is not iterable"
    /\ is_ScannerError e = false
    /\ is_UserAbort e = false.
Proof.
  exact (C10_none_selection_is_unclassified APFSVolumeSystem
           (scanner (Some select_nothing) OneContainer.context
              (volume_system_of ["apfs1"; "apfs2"]))
           (OneContainer.nodes 0) OneContainer.container_spec
           (volume_system_of ["apfs1"; "apfs2"])
           (mediator_with select_nothing) [] eq_refl eq_refl eq_refl eq_refl
           eq_refl).
Defined.

(** * Further properties of the scanner *)

(** ** More on the normalization *)

Lemma normalized_app (volume_system : VolumeSystem) (prefix : string)
    (first second : list VolumeIdentifier) :
  _NormalizedVolumeIdentifiers volume_system (first ++ second)%list prefix
  = match _NormalizedVolumeIdentifiers volume_system first prefix with
    | inl e => inl e
    | inr normalized_first =>
        match _NormalizedVolumeIdentifiers volume_system second prefix with
        | inl e => inl e
        | inr normalized_second =>
            inr (normalized_first ++ normalized_second)%list
        end
    end.
Proof.
  induction first as [|id first IH]; cbn [app _NormalizedVolumeIdentifiers].
  - now destruct (_NormalizedVolumeIdentifiers volume_system second prefix).
  - destruct (volume_exists volume_system (normalized_form prefix id));
      [|reflexivity].
    rewrite IH.
    destruct (_NormalizedVolumeIdentifiers volume_system first prefix);
      [reflexivity|].
    now destruct (_NormalizedVolumeIdentifiers volume_system second prefix).
Qed.

(** What a normalization returns has volumes. *)
Lemma normalized_have_volumes (volume_system : VolumeSystem) (prefix : string)
    (volume_identifiers : list VolumeIdentifier) (normalized : list string) :
  _NormalizedVolumeIdentifiers volume_system volume_identifiers prefix
  = inr normalized ->
  forallb (volume_exists volume_system) normalized = true.
Proof.
  intros H. apply normalized_inr in H as [-> Hexist].
  rewrite forallb_forall in Hexist. apply forallb_forall.
  intros s Hin. apply in_map_iff in Hin as [id [<- Hin]]. now apply Hexist.
Qed.

(** X2. For identifiers within the number of digits that every interpreter
    converts, a normalization that returns gives one identifier per input,
    in the order of the input, and every identifier it returns has a volume
    in the volume system. A normalization that raises has met an identifier
    whose normalized form has no volume, after identifiers that all had
    one, and raises the scan error that names that normalized form: it
    raises nothing else. *)
Theorem X2_normalization_outcomes
    (volume_system : VolumeSystem) (prefix : string)
    (volume_identifiers : list VolumeIdentifier) :
  forallb within_default_limit volume_identifiers = true ->
  (forall normalized : list string,
      _NormalizedVolumeIdentifiers volume_system volume_identifiers prefix
      = inr normalized ->
      length normalized = length volume_identifiers
      /\ normalized = map (normalized_form prefix) volume_identifiers
      /\ forallb (volume_exists volume_system) normalized = true)
  /\ (forall e : exn,
      _NormalizedVolumeIdentifiers volume_system volume_identifiers prefix
      = inl e ->
      exists before id after,
        volume_identifiers = (before ++ id :: after)%list
        /\ forallb (fun id => volume_exists volume_system
                                (normalized_form prefix id)) before = true
        /\ volume_exists volume_system (normalized_form prefix id) = false
        /\ e = ScannerError ("Volume missing for identifier: "
                             ++ normalized_form prefix id ++ ".")).
Proof.
  intros _. split.
  - intros normalized H.
    pose proof (normalized_have_volumes _ _ _ _ H) as Hvolumes.
    apply normalized_inr in H as [-> _].
    split; [apply length_map|]. now split.
  - induction volume_identifiers as [|id rest IH];
      cbn [_NormalizedVolumeIdentifiers]; intros e H; [discriminate|].
    destruct (volume_exists volume_system (normalized_form prefix id)) eqn:Hid.
    + destruct (_NormalizedVolumeIdentifiers volume_system rest prefix)
        as [e'|normalized]; [|discriminate].
      inversion H; subst e'.
      destruct (IH e eq_refl) as (before & id' & after & -> & Hb & Hid' & ->).
      exists (id :: before), id', after. cbn [app forallb]. rewrite Hid, Hb.
      now repeat split.
    + inversion H. exists [], id, rest. now repeat split.
Qed.

(** X3. Normalizing a concatenation is normalizing its parts in order: the
    result is the concatenation of the results, and the error is the error
    of the first part that has one. *)
Theorem X3_normalization_of_concatenation
    (volume_system : VolumeSystem) (prefix : string)
    (first second : list VolumeIdentifier) :
  (forall e : exn,
      _NormalizedVolumeIdentifiers volume_system first prefix = inl e ->
      _NormalizedVolumeIdentifiers volume_system (first ++ second)%list prefix
      = inl e)
  /\ (forall (normalized_first : list string) (e : exn),
      _NormalizedVolumeIdentifiers volume_system first prefix
      = inr normalized_first ->
      _NormalizedVolumeIdentifiers volume_system second prefix = inl e ->
      _NormalizedVolumeIdentifiers volume_system (first ++ second)%list prefix
      = inl e)
  /\ (forall normalized_first normalized_second : list string,
      _NormalizedVolumeIdentifiers volume_system first prefix
      = inr normalized_first ->
      _NormalizedVolumeIdentifiers volume_system second prefix
      = inr normalized_second ->
      _NormalizedVolumeIdentifiers volume_system (first ++ second)%list prefix
      = inr (normalized_first ++ normalized_second)%list).
Proof.
  repeat split; intros; rewrite normalized_app;
    repeat match goal with
           | H : _NormalizedVolumeIdentifiers _ _ _ = _ |- _ => rewrite H; clear H
           end; reflexivity.
Qed.

(** ** More on the identifier resolution *)

(** X4. Whatever the collaborators do, a resolution asks the world at most
    two things, in this order. A node without a path specification has
    nothing asked. Otherwise one volume system is opened on the path
    specification of the node; and when it opens, the guard of the kind
    lets the count of its identifiers through and there is a mediator, the
    one selection method of the kind is called, once, with that volume
    system and the identifiers it reports. Nothing else is asked. *)
Theorem X4_resolution_asks_at_most_twice
    (kind : VolumeSystemKind) (self : VolumeScanner)
    (scan_node : option ScanNode) (t : list Event) :
  snd (resolve kind self scan_node t)
  = match valid_path_spec scan_node with
    | None => t
    | Some scan_path_spec =>
        (t ++ VolumeSystemOpen kind scan_path_spec
              :: match Open (world self) kind scan_path_spec,
                       _mediator self with
                 | inr volume_system, Some _ =>
                     if reaches_mediator kind
                          (length (GetVolumeIdentifiers volume_system))
                     then [MediatorCalled
                             (selection_call kind volume_system
                                (GetVolumeIdentifiers volume_system))]
                     else []
                 | _, _ => []
                 end)%list
    end.
Proof.
  destruct (valid_path_spec scan_node) as [scan_path_spec|] eqn:Hvalid;
    [|now rewrite (resolve_invalid kind self scan_node t Hvalid)].
  destruct scan_node as [scan_node|]; [|discriminate]. cbn in Hvalid.
  destruct (Open (world self) kind scan_path_spec)
    as [e|volume_system] eqn:Hopen.
  { destruct kind; run; now rewrite Hvalid, Hopen. }
  destruct (reaches_mediator kind
              (length (GetVolumeIdentifiers volume_system))) eqn:Hreach.
  - destruct (_mediator self) as [mediator|] eqn:Hmed.
    + rewrite (resolve_asks kind self scan_node scan_path_spec volume_system
                 mediator t Hvalid Hopen Hreach Hmed).
      cbn [snd]. now rewrite <- app_assoc.
    + destruct (resolve_no_mediator kind self scan_node scan_path_spec
                  volume_system t Hvalid Hopen Hreach Hmed) as [message ->].
      reflexivity.
  - rewrite (resolve_quiet kind self scan_node scan_path_spec
               volume_system t Hvalid Hopen Hreach).
    now destruct (_mediator self).
Qed.

(** X5. Except for the partition table with exactly one partition, every
    identifier that a resolution returns has a volume in the volume system
    it opened. *)
Theorem X5_resolved_identifiers_have_volumes
    (kind : VolumeSystemKind) (self : VolumeScanner) (scan_node : ScanNode)
    (scan_path_spec : PathSpec) (volume_system : VolumeSystem)
    (t : list Event) (volume_identifiers : list string) :
  path_spec scan_node = Some scan_path_spec ->
  Open (world self) kind scan_path_spec = inr volume_system ->
  (kind = TSKVolumeSystem ->
   length (GetVolumeIdentifiers volume_system) <> 1%nat) ->
  fst (resolve kind self (Some scan_node) t) = Returns volume_identifiers ->
  forallb (volume_exists volume_system) volume_identifiers = true.
Proof.
  intros Hps Hopen Hsingle Hreturns.
  assert (Hnormalized : forall selected,
            match _NormalizedVolumeIdentifiers volume_system selected
                    (resolution_prefix kind) with
            | inr normalized => Returns normalized
            | inl e => Raises e
            end = Returns volume_identifiers ->
            forallb (volume_exists volume_system) volume_identifiers = true).
  { intros selected H.
    destruct (_NormalizedVolumeIdentifiers volume_system selected
                (resolution_prefix kind)) as [e|normalized] eqn:E;
      [discriminate|].
    inversion H; subst normalized.
    exact (normalized_have_volumes _ _ _ _ E). }
  destruct (reaches_mediator kind
              (length (GetVolumeIdentifiers volume_system))) eqn:Hreach.
  - destruct (_mediator self) as [mediator|] eqn:Hmed.
    + rewrite (resolve_asks kind self scan_node scan_path_spec volume_system
                 mediator t Hps Hopen Hreach Hmed) in Hreturns.
      cbv zeta in Hreturns. cbn [fst] in Hreturns.
      destruct (selection_method kind mediator _ volume_system _)
        as [e|[selected|]]; [|now apply (Hnormalized selected)|discriminate].
      destruct (listed_class e); discriminate.
    + destruct (resolve_no_mediator kind self scan_node scan_path_spec
                  volume_system t Hps Hopen Hreach Hmed) as [message E].
      rewrite E in Hreturns. discriminate.
  - destruct (GetVolumeIdentifiers volume_system) as [|id0 [|id1 ids]] eqn:Hids.
    + rewrite (resolve_empty kind self scan_node scan_path_spec volume_system
                 t Hps Hopen Hids) in Hreturns.
      now inversion Hreturns.
    + destruct kind; try discriminate Hreach.
      * cbn [resolve] in Hreturns.
        rewrite (resolve_single_apfs self scan_node scan_path_spec
                   volume_system id0 t Hps Hopen Hids) in Hreturns.
        now apply (Hnormalized [IdStr id0]).
      * now elim (Hsingle eq_refl).
    + destruct kind; discriminate Hreach.
Qed.

(** ** More on the walk *)

Lemma for_each_app {S A} (body : A -> M S unit) (first second : list A) :
  forall s : S,
    for_each (first ++ second)%list body s
    = bind (for_each first body) (fun _ => for_each second body) s.
Proof.
  induction first as [|x first IH]; intros s; cbn [app for_each].
  - reflexivity.
  - unfold bind. unfold bind in IH.
    destruct (body x s) as [[[]| |] s1]; try reflexivity. apply IH.
Qed.

(** The loop up to the first iteration that raises. *)
Lemma for_each_raises_after {S A} (body : A -> M S unit)
    (before after : list A) (x : A) (s s1 s2 : S) (e : exn) :
  for_each before body s = (Returns tt, s1) ->
  body x s1 = (Raises e, s2) ->
  for_each (before ++ x :: after)%list body s = (Raises e, s2).
Proof.
  intros Hbefore Hx. rewrite for_each_app.
  rewrite (bind_returns _ _ _ _ _ Hbefore).
  now apply for_each_raises.
Qed.

(** X6. A volume system root whose type indicator is neither APFS_CONTAINER
    nor VSHADOW is refused with a scan error that names the type indicator,
    before any volume system is opened: nothing is asked of the world and
    nothing is appended. This is how [_ScanVolume] ends at such a node, a
    partition table below the node where [GetBasePathSpecs] decides
    included. *)
Theorem X6_unsupported_volume_system_type
    (self : VolumeScanner) (fuel : nat) (this : NodeRef) (st : State)
    (spec : PathSpec) :
  path_spec (node (scan_context st) this) = Some spec ->
  type_indicator (node (scan_context st) this)
  <> TYPE_INDICATOR_APFS_CONTAINER ->
  type_indicator (node (scan_context st) this) <> TYPE_INDICATOR_VSHADOW ->
  let refused :=
    (@Raises unit
       (ScannerError ("Unsupported volume system type: "
                      ++ type_indicator (node (scan_context st) this) ++ ".")),
     st) in
  (forall rec, _ScanVolumeSystemRoot self rec (Some this) st = refused)
  /\ (IsLockedScanNode (scan_context st) (Some spec) = false ->
      IsVolumeSystemRoot (node (scan_context st) this) = true ->
      _ScanVolume self (S fuel) (Some this) st = refused).
Proof.
  intros Hps Hapfs Hvss refused.
  assert (Hroot : forall rec,
            _ScanVolumeSystemRoot self rec (Some this) st = refused).
  { intros rec. unfold _ScanVolumeSystemRoot.
    cbv beta iota delta [bind get]. rewrite Hps.
    apply String.eqb_neq in Hapfs, Hvss. now rewrite Hapfs, Hvss. }
  split; [exact Hroot|].
  intros Hlocked Hvsr.
  rewrite (_ScanVolume_not_locked self fuel this st spec Hps Hlocked).
  unfold scan_unlocked. cbv beta iota delta [bind get]. rewrite Hvsr.
  apply Hroot.
Qed.

(** X7. A selected identifier without a sub node at the location [/] plus
    identifier ends the scan of a volume system root with the scan error
    that names the identifier, once the identifiers processed before it have
    been scanned. For a partition of the table where [GetBasePathSpecs]
    decides, the missing sub node is refused by [_ScanVolume] as an invalid
    or missing scan node. *)
Theorem X7_missing_sub_node
    (self : VolumeScanner) (rec : option NodeRef -> M State unit)
    (this : NodeRef) (st st' : State)
    (before after : list string) (volume_identifier : string) :
  for_each before (scan_volume_at rec this) st = (Returns tt, st') ->
  GetSubNodeByLocation (node (scan_context st') this)
    ("/" ++ volume_identifier) = None ->
  for_each (before ++ volume_identifier :: after)%list
    (scan_volume_at rec this) st
  = (Raises (ScannerError ("Scan node missing for volume identifier: "
                           ++ volume_identifier ++ ".")), st')
  /\ (forall fuel : nat,
        scan_partitions self (S fuel) this (volume_identifier :: after) st'
        = (Raises (ScannerError "Invalid or missing scan node."), st')).
Proof.
  intros Hbefore Hmissing. split.
  - apply (for_each_raises_after _ before after volume_identifier st st' st'
             _ Hbefore).
    unfold scan_volume_at. cbv beta iota delta [bind get]. now rewrite Hmissing.
  - intros fuel. unfold scan_partitions. apply for_each_raises.
    cbv beta iota delta [bind get]. now rewrite Hmissing.
Qed.

(** What the unlock attempt asks of the world, in all its cases. *)
Lemma _ScanEncryptedVolume_cases (self : VolumeScanner) (this : NodeRef)
    (st : State) (spec : PathSpec) :
  path_spec (node (scan_context st) this) = Some spec ->
  _ScanEncryptedVolume self (Some this) st
  = match GetCredentials (world self) spec with
    | None => (Raises (ScannerError "Missing credentials for scan node."), st)
    | Some credentials =>
        match _mediator self with
        | None =>
            (Raises (ScannerError
               ("Unable to proceed. Encrypted volume found but no mediator to "
                ++ "determine how it should be unlocked.")), st)
        | Some mediator =>
            let asked :=
              record (MediatorCalled
                        (CallUnlockEncryptedVolume this credentials)) st in
            match UnlockEncryptedVolume mediator (trace st) (scan_context st)
                    this credentials with
            | inl e => (Raises e, asked)
            | inr (false, ctx) => (Returns tt, with_scan_context asked ctx)
            | inr (true, ctx) =>
                let scan_path_spec := path_spec (node ctx this) in
                let scanned :=
                  record (SourceScannerScan scan_path_spec)
                    (with_scan_context asked ctx) in
                match Scan (world self) ctx scan_path_spec with
                | inr ctx' => (Returns tt, with_scan_context scanned ctx')
                | inl e => (Raises e, scanned)
                end
            end
        end
    end.
Proof.
  intros Hps. unfold _ScanEncryptedVolume.
  cbv beta iota delta [bind get raise ret]. rewrite Hps.
  destruct (GetCredentials (world self) spec) as [credentials|]; [|reflexivity].
  destruct (_mediator self) as [mediator|]; [|reflexivity].
  unfold unlock.
  destruct (UnlockEncryptedVolume mediator (trace st) (scan_context st) this
              credentials) as [e|[[] ctx]]; reflexivity.
Qed.

(** X8. The unlock attempt calls the mediator at most once and only when
    the node has credentials; it scans again exactly when the mediator
    answered true, once, with the path specification the node then has, and
    in the scan context the mediator left. *)
Theorem X8_unlock_attempt_asks
    (self : VolumeScanner) (this : NodeRef) (st : State) (spec : PathSpec) :
  path_spec (node (scan_context st) this) = Some spec ->
  let result := _ScanEncryptedVolume self (Some this) st in
  (GetCredentials (world self) spec = None \/ _mediator self = None ->
     snd result = st /\ exists message, fst result = Raises (ScannerError message))
  /\ (forall credentials mediator,
        GetCredentials (world self) spec = Some credentials ->
        _mediator self = Some mediator ->
        let call := MediatorCalled (CallUnlockEncryptedVolume this credentials) in
        match UnlockEncryptedVolume mediator (trace st) (scan_context st)
                this credentials with
        | inl e =>
            fst result = Raises e /\ trace (snd result) = (trace st ++ [call])%list
        | inr (false, ctx) =>
            fst result = Returns tt
            /\ trace (snd result) = (trace st ++ [call])%list
            /\ scan_context (snd result) = ctx
        | inr (true, ctx) =>
            trace (snd result)
            = (trace st ++ [call; SourceScannerScan (path_spec (node ctx this))])%list
            /\ match Scan (world self) ctx (path_spec (node ctx this)) with
               | inr ctx' =>
                   fst result = Returns tt /\ scan_context (snd result) = ctx'
               | inl e => fst result = Raises e
               end
        end).
Proof.
  intros Hps result. subst result.
  rewrite (_ScanEncryptedVolume_cases self this st spec Hps). split.
  - intros [Hcred|Hmed].
    + rewrite Hcred. split; [reflexivity | eexists; reflexivity].
    + rewrite Hmed.
      destruct (GetCredentials (world self) spec);
        (split; [reflexivity | eexists; reflexivity]).
  - intros credentials mediator Hcred Hmed call. rewrite Hcred, Hmed. cbv zeta.
    destruct (UnlockEncryptedVolume mediator (trace st) (scan_context st) this
                credentials) as [e|[[] ctx]]; cbn [fst snd].
    + now split.
    + destruct (Scan (world self) ctx (path_spec (node ctx this)));
        cbn [fst snd trace scan_context record with_trace with_scan_context];
        rewrite <- app_assoc; now repeat split.
    + now repeat split.
Qed.

(** X9. An interrupt, like any exception, that the mediator raises while it
    unlocks is not caught: it is what [_ScanVolume] raises at the locked
    node, as it came. Unlike the selection methods, the unlock call does
    not turn [KeyboardInterrupt] into [UserAbort]. *)
Theorem X9_unlock_exception_is_not_caught
    (self : VolumeScanner) (fuel : nat) (this : NodeRef) (st : State)
    (spec : PathSpec) (credentials : Credentials)
    (mediator : VolumeScannerMediator) (e : exn) :
  path_spec (node (scan_context st) this) = Some spec ->
  IsLockedScanNode (scan_context st) (Some spec) = true ->
  GetCredentials (world self) spec = Some credentials ->
  _mediator self = Some mediator ->
  UnlockEncryptedVolume mediator (trace st) (scan_context st) this credentials
  = inl e ->
  _ScanVolume self (S fuel) (Some this) st
  = (Raises e,
     record (MediatorCalled (CallUnlockEncryptedVolume this credentials)) st)
  /\ (e = KeyboardInterrupt ->
      forall outcome,
        fst (_ScanVolume self (S fuel) (Some this) st) = Raises outcome ->
        is_UserAbort outcome = false /\ is_ScannerError outcome = false).
Proof.
  intros Hps Hlocked Hcred Hmed Hraise.
  assert (Hscan : _ScanVolume self (S fuel) (Some this) st
                  = (Raises e,
                     record (MediatorCalled
                               (CallUnlockEncryptedVolume this credentials)) st)).
  { cbn [_ScanVolume]. cbv beta iota delta [bind get]. rewrite Hps, Hlocked.
    rewrite (_ScanEncryptedVolume_cases self this st spec Hps).
    now rewrite Hcred, Hmed, Hraise. }
  split; [exact Hscan|].
  intros -> outcome. rewrite Hscan. cbn [fst]. intros H.
  inversion H. now split.
Qed.

(** ** Before the walk *)

(** X10. [GetBasePathSpecs] refuses an empty source path, and a source path
    that does not exist unless it is a Windows device path, with a scan
    error and before anything is asked of the world. It passes on what
    [OpenSourcePath] raises, also for a device path that does not exist,
    turns an exception of the first scan that is an instance of
    [ValueError] or of [BackEndError], of a class derived from them
    included, into a scan error that carries its message, and passes on
    any other exception of that scan as it came. *)
Theorem X10_failures_before_the_walk
    (self : VolumeScanner) (fuel : nat) (source_path : string)
    (t : list Event) :
  (source_path = "" ->
     GetBasePathSpecs self fuel source_path t
     = (Raises (ScannerError "Invalid source path."), t))
  /\ (source_path <> "" ->
      startswith source_path "\\.\" = false ->
      os_path_exists (world self) source_path = false ->
      GetBasePathSpecs self fuel source_path t
      = (Raises (ScannerError ("No such device, file or directory: "
                               ++ source_path ++ ".")), t))
  /\ (source_path <> "" ->
      startswith source_path "\\.\" = true
      \/ os_path_exists (world self) source_path = true ->
      (forall e, OpenSourcePath (world self) source_path = inl e ->
         GetBasePathSpecs self fuel source_path t = (Raises e, t))
      /\ (forall opened e,
            OpenSourcePath (world self) source_path = inr opened ->
            Scan (world self) opened None = inl e ->
            GetBasePathSpecs self fuel source_path t
            = (Raises
                 match listed_class e with
                 | ValueError _ | BackEndError _ =>
                     ScannerError
                       ("Unable to scan source with error: " ++ str_of_exn e)
                 | _ => e
                 end,
               (t ++ [SourceScannerScan None])%list))).
Proof.
  split; [|split].
  - intros ->. reflexivity.
  - intros Hne Hdevice Hexists. unfold GetBasePathSpecs.
    apply String.eqb_neq in Hne. now rewrite Hne, Hdevice, Hexists.
  - intros Hne Hexists.
    assert (G : negb (startswith source_path "\\.\")
                && negb (os_path_exists (world self) source_path) = false).
    { destruct Hexists as [-> | ->]; [reflexivity | apply andb_false_r]. }
    apply String.eqb_neq in Hne. split.
    + intros e Hopen. unfold GetBasePathSpecs. now rewrite Hne, G, Hopen.
    + intros opened e Hopen Hscan. unfold GetBasePathSpecs.
      rewrite Hne, G, Hopen. unfold first_scan.
      cbv beta iota delta [bind answer ret emit modify]. rewrite Hscan.
      now destruct (listed_class e).
Qed.

(** ** What the walk keeps *)

Lemma grows_refl (st : State) : grows st st.
Proof.
  split; [exists []|exists []]; rewrite app_nil_r; [split; constructor|reflexivity].
Qed.

Lemma grows_trans (st1 st2 st3 : State) :
  grows st1 st2 -> grows st2 st3 -> grows st1 st3.
Proof.
  intros [(a1 & E1 & F1) (e1 & T1)] [(a2 & E2 & F2) (e2 & T2)]. split.
  - exists (a1 ++ a2)%list. rewrite E2, E1, app_assoc. split; [reflexivity|].
    apply Forall_app. now split.
  - exists (e1 ++ e2)%list. now rewrite T2, T1, app_assoc.
Qed.

Lemma growing_ret {A} (a : A) : growing (ret a).
Proof. intros st. apply grows_refl. Qed.

Lemma growing_raise {A} (e : exn) : growing (@raise State A e).
Proof. intros st. apply grows_refl. Qed.

Lemma growing_out_of_fuel {A} : growing (@out_of_fuel State A).
Proof. intros st. apply grows_refl. Qed.

Lemma growing_bind {A B} (m : M State A) (k : A -> M State B) :
  growing m -> (forall a, growing (k a)) -> growing (bind m k).
Proof.
  intros Hm Hk st. unfold bind. specialize (Hm st).
  destruct (m st) as [[a|e|] st1]; cbn [snd] in *; try exact Hm.
  apply (grows_trans _ st1); [exact Hm | apply Hk].
Qed.

(** A computation that reads the state and goes on. *)
Lemma growing_get {B} (k : State -> M State B) :
  (forall st, growing (k st)) -> growing (bind get k).
Proof. intros Hk st. unfold bind, get. apply Hk. Qed.

Lemma growing_for_each {A} (xs : list A) (body : A -> M State unit) :
  (forall x, growing (body x)) -> growing (for_each xs body).
Proof.
  intros Hbody. induction xs as [|x xs IH]; cbn [for_each].
  - apply growing_ret.
  - apply growing_bind; [apply Hbody | intros _; exact IH].
Qed.

Lemma growing_append (spec : PathSpec) : growing (append (Some spec)).
Proof.
  intros st. unfold append, modify. cbn [snd]. split.
  - exists [Some spec]. split; [reflexivity|].
    constructor; [discriminate | constructor].
  - exists []. cbn [trace]. now rewrite app_nil_r.
Qed.

Lemma growing_lift {A} (m : M (list Event) A) : asking m -> growing (lift m).
Proof.
  intros Hm st. unfold lift. destruct (Hm (trace st)) as [events E].
  destruct (m (trace st)) as [outcome t]. cbn [snd] in *. subst t. split.
  - exists []. cbn [base_path_specs with_trace]. rewrite app_nil_r.
    split; [reflexivity | constructor].
  - now exists events.
Qed.

(** A resolution only adds to the record of what was asked. *)
Lemma asking_resolve (kind : VolumeSystemKind) (self : VolumeScanner)
    (scan_node : option ScanNode) : asking (resolve kind self scan_node).
Proof.
  intros t. destruct (valid_path_spec scan_node) as [scan_path_spec|] eqn:Hvalid.
  - destruct scan_node as [scan_node|]; [|discriminate]. cbn in Hvalid.
    destruct (Open (world self) kind scan_path_spec)
      as [e|volume_system] eqn:Hopen.
    { exists [VolumeSystemOpen kind scan_path_spec].
      destruct kind; run; now rewrite Hvalid, Hopen. }
    destruct (reaches_mediator kind
                (length (GetVolumeIdentifiers volume_system))) eqn:Hreach.
    + destruct (_mediator self) as [mediator|] eqn:Hmed.
      * rewrite (resolve_asks kind self scan_node scan_path_spec volume_system
                   mediator t Hvalid Hopen Hreach Hmed).
        cbn [snd]. rewrite <- app_assoc. eexists. reflexivity.
      * destruct (resolve_no_mediator kind self scan_node scan_path_spec
                    volume_system t Hvalid Hopen Hreach Hmed) as [message ->].
        eexists. reflexivity.
    + rewrite (resolve_quiet kind self scan_node scan_path_spec
                 volume_system t Hvalid Hopen Hreach).
      eexists. reflexivity.
  - rewrite (resolve_invalid kind self scan_node t Hvalid).
    exists []. cbn [snd]. now rewrite app_nil_r.
Qed.

Lemma growing_ScanEncryptedVolume (self : VolumeScanner)
    (scan_node : option NodeRef) : growing (_ScanEncryptedVolume self scan_node).
Proof.
  intros st. split.
  - exists []. rewrite app_nil_r. split; [|constructor].
    apply _ScanEncryptedVolume_frame.
  - destruct scan_node as [this|];
      [|exists []; cbn; now rewrite app_nil_r].
    destruct (path_spec (node (scan_context st) this)) as [spec|] eqn:Hps.
    + rewrite (_ScanEncryptedVolume_cases self this st spec Hps).
      destruct (GetCredentials (world self) spec) as [credentials|];
        [|exists []; cbn; now rewrite app_nil_r].
      destruct (_mediator self) as [mediator|];
        [|exists []; cbn; now rewrite app_nil_r].
      cbv zeta.
      destruct (UnlockEncryptedVolume mediator (trace st) (scan_context st)
                  this credentials) as [e|[[] ctx]];
        try (eexists; reflexivity).
      destruct (Scan (world self) ctx (path_spec (node ctx this)));
        cbn [snd trace record with_trace with_scan_context];
        rewrite <- app_assoc; eexists; reflexivity.
    + unfold _ScanEncryptedVolume. cbv beta iota delta [bind get raise].
      rewrite Hps. exists []. cbn. now rewrite app_nil_r.
Qed.

Lemma growing_ScanFileSystem (scan_node : option NodeRef) :
  growing (_ScanFileSystem scan_node).
Proof.
  unfold _ScanFileSystem. apply growing_get. intros st.
  destruct scan_node as [this|]; [|apply growing_raise].
  destruct (path_spec (node (scan_context st) this));
    [apply growing_append | apply growing_raise].
Qed.

Lemma growing_scan_volume_at (rec : option NodeRef -> M State unit)
    (this : NodeRef) (volume_identifier : string) :
  (forall scan_node, growing (rec scan_node)) ->
  growing (scan_volume_at rec this volume_identifier).
Proof.
  intros Hrec. unfold scan_volume_at. apply growing_get. intros st.
  destruct (GetSubNodeByLocation (node (scan_context st) this)
              ("/" ++ volume_identifier)); [apply Hrec | apply growing_raise].
Qed.

Lemma growing_ScanVolumeSystemRoot (self : VolumeScanner)
    (rec : option NodeRef -> M State unit) (scan_node : option NodeRef) :
  (forall scan_node, growing (rec scan_node)) ->
  growing (_ScanVolumeSystemRoot self rec scan_node).
Proof.
  intros Hrec. unfold _ScanVolumeSystemRoot. apply growing_get. intros st.
  destruct scan_node as [this|]; [|apply growing_raise].
  destruct (path_spec (node (scan_context st) this)); [|apply growing_raise].
  apply growing_bind.
  - destruct (type_indicator (node (scan_context st) this)
              =? TYPE_INDICATOR_APFS_CONTAINER).
    + apply growing_lift. apply (asking_resolve APFSVolumeSystem).
    + destruct (type_indicator (node (scan_context st) this)
                =? TYPE_INDICATOR_VSHADOW); [|apply growing_raise].
      apply growing_bind; [|intros ids; apply growing_ret].
      apply growing_lift. apply (asking_resolve VShadowVolumeSystem).
  - intros ids. apply growing_for_each. intros id.
    now apply growing_scan_volume_at.
Qed.

Lemma growing_scan_unlocked (self : VolumeScanner)
    (rec : option NodeRef -> M State unit) (this : NodeRef) :
  (forall scan_node, growing (rec scan_node)) ->
  growing (scan_unlocked self rec this).
Proof.
  intros Hrec. unfold scan_unlocked. apply growing_get. intros st.
  destruct (IsVolumeSystemRoot (node (scan_context st) this)).
  { now apply growing_ScanVolumeSystemRoot. }
  destruct (IsFileSystem (node (scan_context st) this)).
  { apply growing_ScanFileSystem. }
  destruct (type_indicator (node (scan_context st) this)
            =? TYPE_INDICATOR_VSHADOW).
  { apply growing_append. }
  apply growing_for_each. intros sub. apply Hrec.
Qed.

Lemma growing_ScanVolume (self : VolumeScanner) (fuel : nat) :
  forall scan_node, growing (_ScanVolume self fuel scan_node).
Proof.
  induction fuel as [|fuel IH]; intros scan_node; cbn [_ScanVolume].
  - apply growing_out_of_fuel.
  - apply growing_get. intros st.
    destruct scan_node as [this|]; [|apply growing_raise].
    destruct (path_spec (node (scan_context st) this)) as [spec|];
      [|apply growing_raise].
    apply growing_bind.
    + destruct (IsLockedScanNode (scan_context st) (Some spec));
        [|apply growing_ret].
      apply growing_bind; [apply growing_ScanEncryptedVolume|].
      intros _. apply growing_get. intros st'. apply growing_ret.
    + intros [|]; [apply growing_ret|].
      now apply growing_scan_unlocked.
Qed.

Lemma growing_scan_partitions (self : VolumeScanner) (fuel : nat)
    (scan_node : NodeRef) (partition_identifiers : list string) :
  growing (scan_partitions self fuel scan_node partition_identifiers).
Proof.
  unfold scan_partitions. apply growing_for_each. intros id.
  apply growing_get. intros st. apply growing_ScanVolume.
Qed.

(** What [collect] returns when the walk grows its state. *)
Lemma collect_growing (ctx : SourceScannerContext) (walk : M State unit)
    (t : list Event) :
  growing walk ->
  (exists events, snd (collect ctx walk t) = (t ++ events)%list)
  /\ (forall specs, fst (collect ctx walk t) = Returns specs ->
      Forall (fun entry => entry <> None) specs).
Proof.
  intros Hwalk. unfold collect.
  destruct (Hwalk {| scan_context := ctx; base_path_specs := []; trace := t |})
    as [(added & Eadded & Fadded) (events & Eevents)].
  destruct (walk {| scan_context := ctx; base_path_specs := []; trace := t |})
    as [[[]|e|] st]; cbn [fst snd base_path_specs trace] in *;
    (split; [now exists events|]); intros specs H; inversion H.
  subst specs. rewrite Eadded. exact Fadded.
Qed.

(** X11. The walk only appends. From any state, [_ScanVolume] ends, whether
    it returns or raises, in a state whose base path specifications are
    those it started with followed by the ones it added, each of them a path
    specification, and whose record of what was asked is the one it started
    with followed by what it asked. So is the loop over the partitions, and
    [GetBasePathSpecs] on a storage media source returns path
    specifications only. *)
Theorem X11_walk_only_appends
    (self : VolumeScanner) (fuel : nat) :
  (forall scan_node st, grows st (snd (_ScanVolume self fuel scan_node st)))
  /\ (forall scan_node partition_identifiers st,
        grows st (snd (scan_partitions self fuel scan_node
                         partition_identifiers st)))
  /\ (forall source_path opened scanned t specs,
        source_path <> "" ->
        startswith source_path "\\.\" = true
        \/ os_path_exists (world self) source_path = true ->
        OpenSourcePath (world self) source_path = inr opened ->
        Scan (world self) opened None = inr scanned ->
        is_storage_media (source_type scanned) = true ->
        fst (GetBasePathSpecs self fuel source_path t) = Returns specs ->
        Forall (fun entry => entry <> None) specs
        /\ exists events,
             snd (GetBasePathSpecs self fuel source_path t)
             = (t ++ SourceScannerScan None :: events)%list).
Proof.
  split; [|split].
  - intros scan_node. apply growing_ScanVolume.
  - intros scan_node ids. apply growing_scan_partitions.
  - intros source_path opened scanned t specs Hne Hexists Hopen Hscan Hmedia.
    rewrite (GetBasePathSpecs_scanned self fuel source_path opened scanned t
               Hne Hexists Hopen Hscan).
    rewrite Hmedia. cbn [negb].
    destruct (first_decision_node fuel scanned (GetRootScanNode scanned))
      as [scan_node|]; [|discriminate].
    match goal with
    | |- fst (collect _ ?walk _) = _ -> _ =>
        assert (Hwalk : growing walk)
    end.
    { destruct (negb (type_indicator (node scanned scan_node)
                      =? TYPE_INDICATOR_TSK_PARTITION)).
      - apply growing_ScanVolume.
      - apply growing_bind.
        + apply growing_lift. apply (asking_resolve TSKVolumeSystem).
        + intros ids. apply growing_scan_partitions. }
    destruct (collect_growing scanned _ (t ++ [SourceScannerScan None])%list
                Hwalk) as [(events & Eevents) Hspecs].
    intros Hreturns. split; [now apply Hspecs|].
    exists events. rewrite Eevents, <- app_assoc. reflexivity.
Qed.

(** ** The run as a whole *)

(** Past the lock check [_ScanVolume] dispatches on the node as it then
    is. *)
Lemma _ScanVolume_unlocked (self : VolumeScanner) (fuel : nat)
    (this : NodeRef) (st st1 : State) :
  unlocked self this st st1 ->
  _ScanVolume self (S fuel) (Some this) st
  = scan_unlocked self (_ScanVolume self fuel) this st1.
Proof.
  intros (spec & Hps & [[Hlocked ->]|(Hlocked & Hunlock & Hafter)]).
  - exact (_ScanVolume_not_locked self fuel this st spec Hps Hlocked).
  - rewrite (_ScanVolume_locked self fuel this st st1 spec Hps Hlocked Hunlock).
    now rewrite Hafter.
Qed.

Lemma root_kind_type_indicator (scan_node : ScanNode)
    (kind : VolumeSystemKind) :
  root_kind scan_node = Some kind ->
  (kind = APFSVolumeSystem
   /\ type_indicator scan_node = TYPE_INDICATOR_APFS_CONTAINER)
  \/ (kind = VShadowVolumeSystem
      /\ type_indicator scan_node = TYPE_INDICATOR_VSHADOW).
Proof.
  unfold root_kind.
  destruct (type_indicator scan_node =? TYPE_INDICATOR_APFS_CONTAINER) eqn:A.
  - intros H. inversion H. left. split; [reflexivity|].
    now apply String.eqb_eq.
  - destruct (type_indicator scan_node =? TYPE_INDICATOR_VSHADOW) eqn:V;
      intros H; inversion H.
    right. split; [reflexivity|]. now apply String.eqb_eq.
Qed.

(** [_ScanVolumeSystemRoot] at a node of one of its two kinds. *)
Lemma _ScanVolumeSystemRoot_resolves (self : VolumeScanner)
    (rec : option NodeRef -> M State unit) (this : NodeRef) (st : State)
    (spec : PathSpec) (kind : VolumeSystemKind) :
  path_spec (node (scan_context st) this) = Some spec ->
  root_kind (node (scan_context st) this) = Some kind ->
  _ScanVolumeSystemRoot self rec (Some this) st
  = match resolve kind self (Some (node (scan_context st) this))
            (trace st) with
    | (Returns volume_identifiers, t) =>
        for_each (processing_order kind volume_identifiers)
          (scan_volume_at rec this) (with_trace st t)
    | (Raises e, t) => (Raises e, with_trace st t)
    | (OutOfFuel, t) => (OutOfFuel, with_trace st t)
    end.
Proof.
  intros Hps Hkind.
  destruct (root_kind_type_indicator _ _ Hkind) as [[-> Hti]|[-> Hti]].
  - exact (_ScanVolumeSystemRoot_apfs self rec this st spec Hps Hti).
  - exact (_ScanVolumeSystemRoot_vshadow self rec this st spec Hps Hti).
Qed.

Lemma scan_unlocked_root (self : VolumeScanner)
    (rec : option NodeRef -> M State unit) (this : NodeRef) (st : State) :
  IsVolumeSystemRoot (node (scan_context st) this) = true ->
  scan_unlocked self rec this st
  = _ScanVolumeSystemRoot self rec (Some this) st.
Proof.
  intros H. unfold scan_unlocked. cbv beta iota delta [bind get].
  now rewrite H.
Qed.

Lemma scan_unlocked_sub_nodes (self : VolumeScanner)
    (rec : option NodeRef -> M State unit) (this : NodeRef) (st : State) :
  IsVolumeSystemRoot (node (scan_context st) this) = false ->
  IsFileSystem (node (scan_context st) this) = false ->
  type_indicator (node (scan_context st) this) <> TYPE_INDICATOR_VSHADOW ->
  scan_unlocked self rec this st
  = for_each (sub_nodes (node (scan_context st) this))
      (fun sub_scan_node => rec (Some sub_scan_node)) st.
Proof.
  intros Hroot Hfs Hti. unfold scan_unlocked. cbv beta iota delta [bind get].
  rewrite Hroot, Hfs. apply String.eqb_neq in Hti. now rewrite Hti.
Qed.

Lemma bind_assoc {S A B C} (m : M S A) (k : A -> M S B) (h : B -> M S C)
    (s : S) :
  bind (bind m k) h s = bind m (fun a => bind (k a) h) s.
Proof.
  unfold bind. now destruct (m s) as [[a|e|] s1].
Qed.

(** A loop that has returned from the elements before [x] goes on with the
    body at [x] and then with the elements after it. *)
Lemma for_each_from {S A} (body : A -> M S unit) (before after : list A)
    (x : A) (s s1 : S) :
  for_each before body s = (Returns tt, s1) ->
  for_each (before ++ x :: after)%list body s
  = bind (body x) (fun _ => for_each after body) s1.
Proof.
  intros Hbefore. rewrite for_each_app.
  now rewrite (bind_returns _ _ _ _ _ Hbefore).
Qed.

(** The call that a call makes is a part of its run: the outer call is the
    inner one followed by the rest of the outer one, and the inner one is
    entered in a state that continues the state of the outer one. *)
Lemma calls_then_the_rest (self : VolumeScanner)
    (fuel : nat) (this : NodeRef) (st : State)
    (fuel' : nat) (target : NodeRef) (st' : State) :
  calls self fuel this st fuel' target st' ->
  grows st st'
  /\ exists rest : M State unit,
       growing rest
       /\ _ScanVolume self fuel (Some this) st
          = bind (_ScanVolume self fuel' (Some target)) (fun _ => rest) st'.
Proof.
  induction 1 as
    [fuel this st
    |fuel this st st1 spec kind volume_identifiers t1 before volume_identifier
       after st2 sub_scan_node fuel' target st' Hunlocked Hroot Hps Hkind
       Hresolve Horder Hbefore Hsub Hcalls [IHgrows (rest & Hrest & IH)]
    |fuel this st st1 before sub_scan_node after st2 fuel' target st'
       Hunlocked Hroot Hfs Hti Hsubs Hbefore Hcalls
       [IHgrows (rest & Hrest & IH)]].
  - split; [apply grows_refl|]. exists (ret tt). split; [apply growing_ret|].
    unfold bind, ret.
    now destruct (_ScanVolume self fuel (Some this) st) as [[[]|e|] s1].
  - assert (Hst1 : grows st st1).
    { destruct Hunlocked as (spec0 & _ & [[_ ->]|(_ & Hunlock & _)]);
        [apply grows_refl|].
      pose proof (growing_ScanEncryptedVolume self (Some this) st) as G.
      now rewrite Hunlock in G. }
    assert (Ht1 : grows st1 (with_trace st1 t1)).
    { pose proof (growing_lift _ (asking_resolve kind self
                    (Some (node (scan_context st1) this))) st1) as G.
      unfold lift in G. now rewrite Hresolve in G. }
    assert (Hst2 : grows (with_trace st1 t1) st2).
    { pose proof (growing_for_each before
                    (scan_volume_at (_ScanVolume self fuel) this)
                    (fun id => growing_scan_volume_at
                                 (_ScanVolume self fuel) this id
                                 (growing_ScanVolume self fuel))
                    (with_trace st1 t1)) as G.
      now rewrite Hbefore in G. }
    split.
    { apply (grows_trans _ st1); [exact Hst1|].
      apply (grows_trans _ (with_trace st1 t1)); [exact Ht1|].
      apply (grows_trans _ st2); [exact Hst2 | exact IHgrows]. }
    exists (bind rest
              (fun _ => for_each after
                          (scan_volume_at (_ScanVolume self fuel) this))).
    split.
    { apply growing_bind; [exact Hrest|]. intros _.
      apply growing_for_each. intros id.
      apply growing_scan_volume_at. apply growing_ScanVolume. }
    rewrite (_ScanVolume_unlocked self fuel this st st1 Hunlocked).
    rewrite (scan_unlocked_root self _ this st1 Hroot).
    rewrite (_ScanVolumeSystemRoot_resolves self _ this st1 spec kind Hps Hkind).
    rewrite Hresolve, Horder.
    rewrite (for_each_from _ before after volume_identifier _ st2 Hbefore).
    rewrite <- bind_assoc. unfold bind at 1. unfold bind at 2.
    unfold scan_volume_at at 1. cbv beta iota delta [bind get].
    rewrite Hsub. rewrite IH. reflexivity.
  - assert (Hst1 : grows st st1).
    { destruct Hunlocked as (spec0 & _ & [[_ ->]|(_ & Hunlock & _)]);
        [apply grows_refl|].
      pose proof (growing_ScanEncryptedVolume self (Some this) st) as G.
      now rewrite Hunlock in G. }
    assert (Hst2 : grows st1 st2).
    { pose proof (growing_for_each before
                    (fun sub => _ScanVolume self fuel (Some sub))
                    (fun sub => growing_ScanVolume self fuel (Some sub))
                    st1) as G.
      now rewrite Hbefore in G. }
    split.
    { apply (grows_trans _ st1); [exact Hst1|].
      apply (grows_trans _ st2); [exact Hst2 | exact IHgrows]. }
    exists (bind rest
              (fun _ => for_each after
                          (fun sub => _ScanVolume self fuel (Some sub)))).
    split.
    { apply growing_bind; [exact Hrest|]. intros _.
      apply growing_for_each. intros sub. apply growing_ScanVolume. }
    rewrite (_ScanVolume_unlocked self fuel this st st1 Hunlocked).
    rewrite (scan_unlocked_sub_nodes self _ this st1 Hroot Hfs Hti).
    rewrite Hsubs.
    rewrite (for_each_from _ before after sub_scan_node _ st2 Hbefore).
    rewrite <- bind_assoc. unfold bind at 1. unfold bind at 2.
    rewrite IH. reflexivity.
Qed.

(** The same for the walk of [GetBasePathSpecs]. *)
Lemma walk_calls_then_the_rest (self : VolumeScanner) (fuel : nat)
    (ctx : SourceScannerContext) (scan_node : NodeRef) (st : State)
    (fuel' : nat) (target : NodeRef) (st' : State) :
  walk_calls self fuel ctx scan_node st fuel' target st' ->
  grows st st'
  /\ exists rest : M State unit,
       growing rest
       /\ walk_from self fuel ctx scan_node st
          = bind (_ScanVolume self fuel' (Some target)) (fun _ => rest) st'.
Proof.
  intros [fuel0 target0 st0 Hti Hcalls
         |t1 before partition_identifier after st1 sub_scan_node fuel0 target0
            st0 Hti Hresolve Hbefore Hsub Hcalls].
  - unfold walk_from. apply String.eqb_neq in Hti. rewrite Hti. cbn [negb].
    exact (calls_then_the_rest self fuel scan_node st fuel0 target0 st0 Hcalls).
  - destruct (calls_then_the_rest self fuel sub_scan_node st1 fuel0 target0 st0
                Hcalls) as [Hgrows (rest & Hrest & E)].
    split.
    { apply (grows_trans _ (with_trace st t1)).
      - pose proof (growing_lift _ (asking_resolve TSKVolumeSystem self
                      (Some (node ctx scan_node))) st) as G.
        unfold lift in G. cbn [resolve] in G. now rewrite Hresolve in G.
      - apply (grows_trans _ st1); [|exact Hgrows].
        pose proof (growing_scan_partitions self fuel scan_node before
                      (with_trace st t1)) as G.
        now rewrite Hbefore in G. }
    exists (bind rest
              (fun _ => scan_partitions self fuel scan_node after)).
    split.
    { apply growing_bind; [exact Hrest|]. intros _.
      apply growing_scan_partitions. }
    unfold walk_from. rewrite Hti.
    replace (TYPE_INDICATOR_TSK_PARTITION =? TYPE_INDICATOR_TSK_PARTITION)%string
      with true by reflexivity.
    cbn [negb]. unfold bind at 1. unfold lift. rewrite Hresolve.
    unfold scan_partitions in *.
    rewrite (for_each_from _ before after partition_identifier _ st1 Hbefore).
    rewrite <- bind_assoc. unfold bind at 1. unfold bind at 2.
    cbv beta iota delta [bind get]. rewrite Hsub, E. reflexivity.
Qed.

(** Past the first scan of a storage media source, [GetBasePathSpecs] is
    the walk from the node at which it decides, run on an empty list that
    is handed back when the walk returns. *)
Lemma GetBasePathSpecs_walk (self : VolumeScanner) (fuel : nat)
    (source_path : string) (opened scanned : SourceScannerContext)
    (t : list Event) (scan_node : NodeRef) :
  source_path <> "" ->
  startswith source_path "\\.\" = true
  \/ os_path_exists (world self) source_path = true ->
  OpenSourcePath (world self) source_path = inr opened ->
  Scan (world self) opened None = inr scanned ->
  is_storage_media (source_type scanned) = true ->
  first_decision_node fuel scanned (GetRootScanNode scanned) = Some scan_node ->
  GetBasePathSpecs self fuel source_path t
  = collect scanned (walk_from self fuel scanned scan_node)
      (t ++ [SourceScannerScan None])%list.
Proof.
  intros Hne Hexists Hopen Hscan Hmedia Hfirst.
  rewrite (GetBasePathSpecs_scanned self fuel source_path opened scanned t
             Hne Hexists Hopen Hscan).
  now rewrite Hmedia, Hfirst.
Qed.


(** C5. At a locked scan node on which the unlock attempt returns and which
    is still locked afterwards, [_ScanVolume] returns in the state the
    attempt left, with [base_path_specs] as it was, and the loop that
    called it goes on with its remaining branches from there. Wherever in
    the run that call is made, the list that the walk ends with is what
    was in it when the call was entered, followed by what the run appends
    after the call; and when the walk returns, [GetBasePathSpecs] returns
    that list: what the other branches produced. When the node is the one
    at which [GetBasePathSpecs] decides, that is the empty list. *)
Theorem C5_still_locked_contributes_nothing
    (self : VolumeScanner) (fuel : nat) (this : NodeRef) (st st' : State)
    (spec : PathSpec) :
  path_spec (node (scan_context st) this) = Some spec ->
  IsLockedScanNode (scan_context st) (Some spec) = true ->
  _ScanEncryptedVolume self (Some this) st = (Returns tt, st') ->
  IsLockedScanNode (scan_context st')
    (path_spec (node (scan_context st') this)) = true ->
  _ScanVolume self (S fuel) (Some this) st = (Returns tt, st')
  /\ base_path_specs st' = base_path_specs st
  /\ (forall rest : list NodeRef,
        for_each (this :: rest)
          (fun sub_scan_node => _ScanVolume self (S fuel) (Some sub_scan_node)) st
        = for_each rest
            (fun sub_scan_node => _ScanVolume self (S fuel) (Some sub_scan_node))
            st')
  /\ (forall (root : NodeRef) (volume_identifier : string) (rest : list string),
        GetSubNodeByLocation (node (scan_context st) root)
          ("/" ++ volume_identifier) = Some this ->
        for_each (volume_identifier :: rest)
          (scan_volume_at (_ScanVolume self (S fuel)) root) st
        = for_each rest (scan_volume_at (_ScanVolume self (S fuel)) root) st'
        /\ scan_partitions self (S fuel) root (volume_identifier :: rest) st
           = scan_partitions self (S fuel) root rest st')
  /\ (forall (outer_fuel : nat) (outer : NodeRef) (entered : State),
        calls self outer_fuel outer entered (S fuel) this st ->
        exists before_it after_it : list (option PathSpec),
          base_path_specs st = (base_path_specs entered ++ before_it)%list
          /\ base_path_specs
               (snd (_ScanVolume self outer_fuel (Some outer) entered))
             = (base_path_specs entered ++ before_it ++ after_it)%list)
  /\ (forall (source_path : string) (opened scanned : SourceScannerContext)
             (t : list Event) (walk_fuel : nat) (scan_node : NodeRef),
        source_path <> "" ->
        startswith source_path "\\.\" = true
        \/ os_path_exists (world self) source_path = true ->
        OpenSourcePath (world self) source_path = inr opened ->
        Scan (world self) opened None = inr scanned ->
        is_storage_media (source_type scanned) = true ->
        first_decision_node walk_fuel scanned (GetRootScanNode scanned)
        = Some scan_node ->
        let entered :=
          {| scan_context := scanned; base_path_specs := [];
             trace := (t ++ [SourceScannerScan None])%list |} in
        let walk := walk_from self walk_fuel scanned scan_node entered in
        walk_calls self walk_fuel scanned scan_node entered (S fuel) this st ->
        (exists after_it : list (option PathSpec),
            base_path_specs (snd walk)
            = (base_path_specs st ++ after_it)%list)
        /\ (fst walk = Returns tt ->
            GetBasePathSpecs self walk_fuel source_path t
            = (Returns (base_path_specs (snd walk)), trace (snd walk))))
  /\ (forall (source_path : string) (opened : SourceScannerContext)
             (t : list Event),
        source_path <> "" ->
        startswith source_path "\\.\" = true
        \/ os_path_exists (world self) source_path = true ->
        OpenSourcePath (world self) source_path = inr opened ->
        Scan (world self) opened None = inr (scan_context st) ->
        is_storage_media (source_type (scan_context st)) = true ->
        first_decision_node (S fuel) (scan_context st)
          (GetRootScanNode (scan_context st)) = Some this ->
        type_indicator (node (scan_context st) this)
        <> TYPE_INDICATOR_TSK_PARTITION ->
        base_path_specs st = [] ->
        trace st = (t ++ [SourceScannerScan None])%list ->
        GetBasePathSpecs self (S fuel) source_path t = (Returns [], trace st')).
Proof.
  intros Hps Hlocked Hunlock Hstill.
  assert (Hscan : _ScanVolume self (S fuel) (Some this) st = (Returns tt, st')).
  { rewrite (_ScanVolume_locked self fuel this st st' spec Hps Hlocked Hunlock).
    now rewrite Hstill. }
  assert (Hframe : base_path_specs st' = base_path_specs st).
  { pose proof (_ScanEncryptedVolume_frame self (Some this) st) as F.
    now rewrite Hunlock in F. }
  split; [exact Hscan|]. split; [exact Hframe|].
  split; [|split; [|split; [|split]]].
  - intros rest. now apply for_each_returns.
  - intros root volume_identifier rest Hsub. split.
    + apply for_each_returns. unfold scan_volume_at.
      cbv beta iota delta [bind get]. now rewrite Hsub.
    + unfold scan_partitions. apply for_each_returns.
      cbv beta iota delta [bind get]. now rewrite Hsub.
  - intros outer_fuel outer entered Hcalls.
    destruct (calls_then_the_rest _ _ _ _ _ _ _ Hcalls)
      as [[(before_it & Ebefore & _) _] (rest & Hrest & E)].
    rewrite E. unfold bind. rewrite Hscan.
    destruct (Hrest st') as [(after_it & Eafter & _) _].
    exists before_it, after_it. split; [exact Ebefore|].
    now rewrite Eafter, Hframe, Ebefore, app_assoc.
  - intros source_path opened scanned t walk_fuel scan_node Hne Hexists Hopen
           Hscanned Hmedia Hfirst entered walk Hcalls.
    destruct (walk_calls_then_the_rest _ _ _ _ _ _ _ _ Hcalls)
      as [_ (rest & Hrest & E)].
    split.
    + subst walk. rewrite E. unfold bind. rewrite Hscan.
      destruct (Hrest st') as [(after_it & Eafter & _) _].
      exists after_it. now rewrite Eafter, Hframe.
    + intros Hreturns.
      rewrite (GetBasePathSpecs_walk self walk_fuel source_path opened scanned
                 t scan_node Hne Hexists Hopen Hscanned Hmedia Hfirst).
      unfold collect. fold entered. fold walk.
      destruct walk as [[[]|e|] final]; try discriminate Hreturns.
      reflexivity.
  - intros source_path opened t Hne Hexists Hopen Hscanned Hmedia Hfirst Hti
           Hempty Htrace.
    rewrite (GetBasePathSpecs_scanned self (S fuel) source_path opened
               (scan_context st) t Hne Hexists Hopen Hscanned).
    rewrite Hmedia, Hfirst. cbn [negb].
    apply String.eqb_neq in Hti. rewrite Hti. cbn [negb].
    unfold collect. rewrite <- Htrace.
    replace {| scan_context := scan_context st; base_path_specs := [];
               trace := trace st |} with st
      by (destruct st; cbn in Hempty |- *; now subst).
    rewrite Hscan. now rewrite Hframe, Hempty.
Qed.


Lemma C5_on_examples :
  _ScanVolume (scanner (Some select_all) TwoPartitions.context two_partitions)
    1 (Some 5%nat) (start TwoPartitions.context)
  = (Returns tt,
     {| scan_context := TwoPartitions.context;
        base_path_specs := [];
        trace := [MediatorCalled
                    (CallUnlockEncryptedVolume 5 bde_credentials)] |})
  /\ GetBasePathSpecs
       (scanner (Some select_all) TwoPartitions.context two_partitions)
       2 "/image.raw" []
     = (Returns [Some TwoPartitions.ntfs_spec],
        [SourceScannerScan None;
         VolumeSystemOpen TSKVolumeSystem TwoPartitions.table_spec;
         MediatorCalled (CallGetPartitionIdentifiers two_partitions ["p1"; "p2"]);
         MediatorCalled (CallUnlockEncryptedVolume 5 bde_credentials)])
  /\ GetBasePathSpecs
       (scanner (Some select_all) LockedVolume.context two_partitions)
       2 "/image.raw" []
     = (Returns [],
        [SourceScannerScan None;
         MediatorCalled (CallUnlockEncryptedVolume 2 bde_credentials)]).
Proof.
  split; [|split].
  - exact (proj1 (C5_still_locked_contributes_nothing
             (scanner (Some select_all) TwoPartitions.context two_partitions)
             0 5%nat (start TwoPartitions.context)
             {| scan_context := TwoPartitions.context;
                base_path_specs := [];
                trace := [MediatorCalled
                            (CallUnlockEncryptedVolume 5 bde_credentials)] |}
             TwoPartitions.bde_spec eq_refl eq_refl eq_refl eq_refl)).
  - set (asked :=
           [SourceScannerScan None;
            VolumeSystemOpen TSKVolumeSystem TwoPartitions.table_spec;
            MediatorCalled
              (CallGetPartitionIdentifiers two_partitions ["p1"; "p2"])]).
    set (entered :=
           {| scan_context := TwoPartitions.context; base_path_specs := [];
              trace := asked |}).
    refine (proj2 (proj1 (proj2 (proj2 (proj2 (proj2 (proj2
             (C5_still_locked_contributes_nothing
                (scanner (Some select_all) TwoPartitions.context two_partitions)
                0 5%nat entered (record (MediatorCalled
                                    (CallUnlockEncryptedVolume 5 bde_credentials))
                                   entered)
                TwoPartitions.bde_spec eq_refl eq_refl eq_refl eq_refl))))))
             "/image.raw" TwoPartitions.context TwoPartitions.context [] 2%nat
             2%nat _ (or_intror eq_refl) eq_refl eq_refl eq_refl eq_refl _)
             eq_refl).
    + discriminate.
    + refine (walk_calls_partition
                (scanner (Some select_all) TwoPartitions.context two_partitions)
                2 TwoPartitions.context 2%nat
                {| scan_context := TwoPartitions.context;
                   base_path_specs := [];
                   trace := [SourceScannerScan None] |}
                asked [] "p1" ["p2"] entered
                3%nat 1 5%nat entered eq_refl eq_refl eq_refl eq_refl _).
      refine (calls_sub_node
                (scanner (Some select_all) TwoPartitions.context two_partitions)
                1 3%nat entered entered [] 5%nat [] entered
                1 5%nat entered _ eq_refl eq_refl _ eq_refl eq_refl
                (calls_itself _ 1 5%nat entered)).
      * exists TwoPartitions.p1_spec. split; [reflexivity|].
        left. split; reflexivity.
      * discriminate.
  - refine (proj2 (proj2 (proj2 (proj2 (proj2 (proj2
             (C5_still_locked_contributes_nothing
                (scanner (Some select_all) LockedVolume.context two_partitions)
                1 2%nat
                {| scan_context := LockedVolume.context;
                   base_path_specs := [];
                   trace := [SourceScannerScan None] |}
                {| scan_context := LockedVolume.context;
                   base_path_specs := [];
                   trace := [SourceScannerScan None;
                             MediatorCalled
                               (CallUnlockEncryptedVolume 2 bde_credentials)] |}
                LockedVolume.bde_spec eq_refl eq_refl eq_refl eq_refl))))))
             "/image.raw" LockedVolume.context [] _ (or_intror eq_refl)
             eq_refl eq_refl eq_refl eq_refl _ eq_refl eq_refl);
      discriminate.
Defined.


(** ** Where the scanner decides *)

Lemma first_decision_node_found (ctx : SourceScannerContext) (fuel : nat) :
  forall scan_node found : NodeRef,
    first_decision_node fuel ctx scan_node = Some found ->
    length (sub_nodes (node ctx found)) <> 1%nat
    /\ forall more : nat,
         first_decision_node (fuel + more) ctx scan_node = Some found.
Proof.
  induction fuel as [|fuel IH]; intros scan_node found H.
  - cbn [first_decision_node] in H.
    destruct (sub_nodes (node ctx scan_node)) as [|only [|other rest]] eqn:E;
      try discriminate; inversion H; subst found; rewrite E;
      (split; [discriminate|]); intros more;
      destruct more; cbn [Nat.add first_decision_node]; now rewrite E.
  - cbn [first_decision_node] in H.
    destruct (sub_nodes (node ctx scan_node)) as [|only [|other rest]] eqn:E.
    + inversion H; subst found. rewrite E. split; [discriminate|].
      intros more. cbn [Nat.add first_decision_node]. now rewrite E.
    + destruct (IH only found H) as [Hsubs Hmore]. split; [exact Hsubs|].
      intros more. cbn [Nat.add first_decision_node]. rewrite E. apply Hmore.
    + inversion H; subst found. rewrite E. split; [discriminate|].
      intros more. cbn [Nat.add first_decision_node]. now rewrite E.
Qed.

(** X12. The node at which [GetBasePathSpecs] decides never has exactly one
    sub node, and a larger bound on the descent finds the same node. When
    that node is a file system that is not locked and not a volume system
    root, the result is its path specification alone: no volume system is
    opened and the mediator is not called, whatever layers with a single
    sub node lie above it. *)
Theorem X12_decision_node
    (self : VolumeScanner) (fuel : nat) (scanned : SourceScannerContext)
    (found : NodeRef) :
  first_decision_node (S fuel) scanned (GetRootScanNode scanned) = Some found ->
  length (sub_nodes (node scanned found)) <> 1%nat
  /\ (forall more : nat,
        first_decision_node (S fuel + more) scanned (GetRootScanNode scanned)
        = Some found)
  /\ (forall source_path opened t spec,
        source_path <> "" ->
        startswith source_path "\\.\" = true
        \/ os_path_exists (world self) source_path = true ->
        OpenSourcePath (world self) source_path = inr opened ->
        Scan (world self) opened None = inr scanned ->
        is_storage_media (source_type scanned) = true ->
        path_spec (node scanned found) = Some spec ->
        IsLockedScanNode scanned (Some spec) = false ->
        IsVolumeSystemRoot (node scanned found) = false ->
        IsFileSystem (node scanned found) = true ->
        type_indicator (node scanned found) <> TYPE_INDICATOR_TSK_PARTITION ->
        GetBasePathSpecs self (S fuel) source_path t
        = (Returns [Some spec], (t ++ [SourceScannerScan None])%list)).
Proof.
  intros Hfound.
  destruct (first_decision_node_found scanned (S fuel) _ found Hfound)
    as [Hsubs Hmore].
  split; [exact Hsubs|]. split; [exact Hmore|].
  intros source_path opened t spec Hne Hexists Hopen Hscan Hmedia Hps Hlocked
         Hroot Hfs Hti.
  rewrite (GetBasePathSpecs_scanned self (S fuel) source_path opened scanned t
             Hne Hexists Hopen Hscan).
  rewrite Hmedia, Hfound. cbn [negb].
  apply String.eqb_neq in Hti. rewrite Hti. cbn [negb].
  unfold collect.
  rewrite (_ScanVolume_not_locked self fuel found
             {| scan_context := scanned; base_path_specs := [];
                trace := (t ++ [SourceScannerScan None])%list |}
             spec Hps Hlocked).
  unfold scan_unlocked. cbv beta iota delta [bind get].
  cbn [scan_context]. rewrite Hroot, Hfs.
  unfold _ScanFileSystem. cbv beta iota delta [bind get].
  cbn [scan_context]. now rewrite Hps.
Qed.

(** ** The bound on the unfolding *)

Lemma settled_by_refl {S A} (m : M S A) : settled_by m m.
Proof. now intros s _. Qed.

Lemma settled_by_bind {S A B} (m m' : M S A) (k k' : A -> M S B) :
  settled_by m m' -> (forall a, settled_by (k a) (k' a)) ->
  settled_by (bind m k) (bind m' k').
Proof.
  intros Hm Hk s H. unfold bind in *.
  destruct (m s) as [[a|e|] s1] eqn:E.
  - rewrite (Hm s) by (rewrite E; discriminate). rewrite E. now apply Hk.
  - rewrite (Hm s) by (rewrite E; discriminate). now rewrite E.
  - now elim H.
Qed.

Lemma settled_by_get {S B} (k k' : S -> M S B) :
  (forall s, settled_by (k s) (k' s)) -> settled_by (bind get k) (bind get k').
Proof. intros Hk s H. unfold bind, get in *. now apply Hk. Qed.

Lemma settled_by_for_each {S A} (xs : list A) (body body' : A -> M S unit) :
  (forall x, settled_by (body x) (body' x)) ->
  settled_by (for_each xs body) (for_each xs body').
Proof.
  intros Hbody. induction xs as [|x xs IH]; cbn [for_each].
  - apply settled_by_refl.
  - apply settled_by_bind; [apply Hbody | intros _; exact IH].
Qed.

Lemma settled_by_ScanVolumeSystemRoot (self : VolumeScanner)
    (rec rec' : option NodeRef -> M State unit) (scan_node : option NodeRef) :
  (forall scan_node, settled_by (rec scan_node) (rec' scan_node)) ->
  settled_by (_ScanVolumeSystemRoot self rec scan_node)
             (_ScanVolumeSystemRoot self rec' scan_node).
Proof.
  intros Hrec. unfold _ScanVolumeSystemRoot. apply settled_by_get. intros st.
  destruct scan_node as [this|]; [|apply settled_by_refl].
  destruct (path_spec (node (scan_context st) this));
    [|apply settled_by_refl].
  apply settled_by_bind; [apply settled_by_refl|].
  intros ids. apply settled_by_for_each. intros id.
  unfold scan_volume_at. apply settled_by_get. intros st'.
  destruct (GetSubNodeByLocation (node (scan_context st') this) ("/" ++ id));
    [apply Hrec | apply settled_by_refl].
Qed.

Lemma settled_by_scan_unlocked (self : VolumeScanner)
    (rec rec' : option NodeRef -> M State unit) (this : NodeRef) :
  (forall scan_node, settled_by (rec scan_node) (rec' scan_node)) ->
  settled_by (scan_unlocked self rec this) (scan_unlocked self rec' this).
Proof.
  intros Hrec. unfold scan_unlocked. apply settled_by_get. intros st.
  destruct (IsVolumeSystemRoot (node (scan_context st) this)).
  { now apply settled_by_ScanVolumeSystemRoot. }
  destruct (IsFileSystem (node (scan_context st) this));
    [apply settled_by_refl|].
  destruct (type_indicator (node (scan_context st) this)
            =? TYPE_INDICATOR_VSHADOW); [apply settled_by_refl|].
  apply settled_by_for_each. intros sub. apply Hrec.
Qed.

Lemma settled_by_ScanVolume_step (self : VolumeScanner) (fuel : nat) :
  forall scan_node,
    settled_by (_ScanVolume self fuel scan_node)
               (_ScanVolume self (S fuel) scan_node).
Proof.
  induction fuel as [|fuel IH]; intros scan_node.
  - intros s H. now elim H.
  - change (_ScanVolume self (S (S fuel)) scan_node)
      with (st <- get ;;
            match scan_node with
            | None => raise (ScannerError "Invalid or missing scan node.")
            | Some this =>
                match path_spec (node (scan_context st) this) with
                | None => raise (ScannerError "Invalid or missing scan node.")
                | Some _ =>
                    still_locked <-
                      (if IsLockedScanNode (scan_context st)
                            (path_spec (node (scan_context st) this))
                       then
                         _ScanEncryptedVolume self scan_node ;;
                         st <- get ;;
                         ret (IsLockedScanNode (scan_context st)
                                (path_spec (node (scan_context st) this)))
                       else ret false) ;;
                    if still_locked : bool then ret tt
                    else scan_unlocked self (_ScanVolume self (S fuel)) this
                end
            end).
    cbn [_ScanVolume]. apply settled_by_get. intros st.
    destruct scan_node as [this|]; [|apply settled_by_refl].
    destruct (path_spec (node (scan_context st) this));
      [|apply settled_by_refl].
    apply settled_by_bind; [apply settled_by_refl|].
    intros [|]; [apply settled_by_refl|].
    apply settled_by_scan_unlocked. exact IH.
Qed.

Lemma settled_by_ScanVolume (self : VolumeScanner) (fuel more : nat) :
  forall scan_node,
    settled_by (_ScanVolume self fuel scan_node)
               (_ScanVolume self (fuel + more) scan_node).
Proof.
  induction more as [|more IH]; intros scan_node.
  - rewrite Nat.add_0_r. apply settled_by_refl.
  - rewrite Nat.add_succ_r. intros s H.
    rewrite (settled_by_ScanVolume_step self (fuel + more) scan_node s).
    + now apply IH.
    + rewrite (IH scan_node s H). exact H.
Qed.

Lemma settled_by_collect (ctx : SourceScannerContext)
    (walk walk' : M State unit) :
  settled_by walk walk' -> settled_by (collect ctx walk) (collect ctx walk').
Proof.
  intros Hwalk t H. unfold collect in *.
  destruct (walk {| scan_context := ctx; base_path_specs := []; trace := t |})
    as [[[]|e|] st] eqn:E.
  - rewrite (Hwalk _) by (rewrite E; discriminate). now rewrite E.
  - rewrite (Hwalk _) by (rewrite E; discriminate). now rewrite E.
  - now elim H.
Qed.

(** The bound on the unfolding is only a bound: once [_ScanVolume] or
    [GetBasePathSpecs] gives an outcome within a bound, a value or an
    exception, every larger bound gives the same outcome in the same final
    state. *)
Lemma larger_bound_same_outcome
    (self : VolumeScanner) (fuel more : nat) :
  (forall scan_node st,
      fst (_ScanVolume self fuel scan_node st) <> OutOfFuel ->
      _ScanVolume self (fuel + more) scan_node st
      = _ScanVolume self fuel scan_node st)
  /\ (forall source_path t,
        fst (GetBasePathSpecs self fuel source_path t) <> OutOfFuel ->
        GetBasePathSpecs self (fuel + more) source_path t
        = GetBasePathSpecs self fuel source_path t).
Proof.
  split.
  - intros scan_node st. apply settled_by_ScanVolume.
  - intros source_path.
    change (settled_by (GetBasePathSpecs self fuel source_path)
                       (GetBasePathSpecs self (fuel + more) source_path)).
    unfold GetBasePathSpecs.
    destruct (source_path =? "")%string; [apply settled_by_refl|].
    destruct (negb (startswith source_path "\\.\")
              && negb (os_path_exists (world self) source_path));
      [apply settled_by_refl|].
    apply settled_by_bind; [apply settled_by_refl|]. intros opened.
    apply settled_by_bind; [apply settled_by_refl|]. intros scanned.
    destruct (negb (is_storage_media (source_type scanned)));
      [apply settled_by_refl|].
    destruct (first_decision_node fuel scanned (GetRootScanNode scanned))
      as [found|] eqn:Hfound.
    + destruct (first_decision_node_found scanned fuel _ found Hfound)
        as [_ Hmore].
      rewrite (Hmore more). apply settled_by_collect.
      destruct (negb (type_indicator (node scanned found)
                      =? TYPE_INDICATOR_TSK_PARTITION)).
      * apply settled_by_ScanVolume.
      * apply settled_by_bind; [apply settled_by_refl|]. intros ids.
        unfold scan_partitions. apply settled_by_for_each. intros id.
        apply settled_by_get. intros st. apply settled_by_ScanVolume.
    + intros t H. now elim H.
Qed.

(** * The Windows volume scanner *)

(** ** The search for a known directory *)

Lemma scan_directories_answers (self : WindowsVolumeScanner)
    (path_resolver : WindowsPathResolver)
    (known : string -> option PathSpec) (windows_paths : list string) :
  answers self path_resolver known ->
  forall a : Attributes,
    let result := Windows.scan_directories self path_resolver windows_paths a in
    fst result = Returns (existsb (resolves known) windows_paths)
    /\ _source_path (snd result) = _source_path a
    /\ _source_type (snd result) = _source_type a
    /\ _file_system (snd result) = _file_system a
    /\ _path_resolver (snd result) = _path_resolver a
    /\ (existsb (resolves known) windows_paths = false ->
        _windows_directory (snd result) = _windows_directory a)
    /\ (existsb (resolves known) windows_paths = true ->
        exists windows_path,
          In windows_path windows_paths
          /\ resolves known windows_path = true
          /\ _windows_directory (snd result) = Some windows_path).
Proof.
  intros Hknown.
  induction windows_paths as [|windows_path rest IH]; intros a.
  - cbn. repeat split; try reflexivity; discriminate.
  - cbn [Windows.scan_directories existsb]. unfold Windows.resolve_path.
    cbv beta iota delta [bind get note modify answer ret].
    rewrite Hknown. unfold resolves at 1 3 5.
    destruct (known windows_path) as [spec|] eqn:E.
    + cbn. repeat split; try discriminate.
      intros _. exists windows_path. unfold resolves. rewrite E.
      split; [now left|]. now split.
    + cbn [orb].
      match goal with
      | |- context [Windows.scan_directories self path_resolver rest ?a'] =>
          destruct (IH a') as (H1 & H2 & H3 & H4 & H5 & H6 & H7)
      end.
      cbn [_source_path _source_type _file_system _path_resolver
           _windows_directory] in *.
      repeat split; try assumption.
      intros H. destruct (H7 H) as (d & Hin & Hd & Hset).
      exists d. split; [now right|]. now split.
Qed.

Lemma existsb_permutation {A} (f : A -> bool) (l l' : list A) :
  Permutation l l' -> existsb f l = existsb f l'.
Proof.
  intros HP. destruct (existsb f l) eqn:E; symmetry.
  - apply existsb_exists in E as (x & Hin & Hx).
    apply existsb_exists. exists x. split; [|exact Hx].
    now apply (Permutation_in _ HP).
  - destruct (existsb f l') eqn:E'; [|reflexivity].
    apply existsb_exists in E' as (x & Hin & Hx).
    assert (existsb f l = true) as E2.
    { apply existsb_exists. exists x. split; [|exact Hx].
      now apply (Permutation_in _ (Permutation_sym HP)). }
    congruence.
Qed.

(** X14. With a path resolver that answers, and whatever the order in which
    the frozenset is visited, [_ScanFileSystemForWindowsDirectory] returns
    true exactly when one of the four known directories resolves. It then
    leaves in [_windows_directory] a known directory that resolves, the one
    that resolves when there is only one; when it returns false the
    attribute is as it was. The other attributes are never touched. *)
Theorem X14_known_directory_search
    (self : WindowsVolumeScanner) (path_resolver : WindowsPathResolver)
    (known : string -> option PathSpec) (a : Attributes) :
  answers self path_resolver known ->
  Permutation (iteration_order self) _WINDOWS_DIRECTORIES ->
  let result := Windows._ScanFileSystemForWindowsDirectory self path_resolver a in
  let found := existsb (resolves known) _WINDOWS_DIRECTORIES in
  fst result = Returns found
  /\ (found = false -> _windows_directory (snd result) = _windows_directory a)
  /\ (found = true ->
      exists windows_path,
        In windows_path _WINDOWS_DIRECTORIES
        /\ resolves known windows_path = true
        /\ _windows_directory (snd result) = Some windows_path)
  /\ (forall only,
        resolves known only = true ->
        (forall windows_path,
            In windows_path _WINDOWS_DIRECTORIES ->
            resolves known windows_path = true -> windows_path = only) ->
        In only _WINDOWS_DIRECTORIES ->
        _windows_directory (snd result) = Some only)
  /\ _source_path (snd result) = _source_path a
  /\ _source_type (snd result) = _source_type a
  /\ _file_system (snd result) = _file_system a
  /\ _path_resolver (snd result) = _path_resolver a.
Proof.
  intros Hknown Horder result found.
  destruct (scan_directories_answers self path_resolver known
              (iteration_order self) Hknown a)
    as (H1 & H2 & H3 & H4 & H5 & H6 & H7).
  fold (Windows._ScanFileSystemForWindowsDirectory self path_resolver a) in *.
  fold result in H1, H2, H3, H4, H5, H6, H7.
  rewrite (existsb_permutation _ _ _ Horder) in H1, H6, H7. fold found in H1, H6, H7.
  assert (Hfound : found = true ->
            exists windows_path,
              In windows_path _WINDOWS_DIRECTORIES
              /\ resolves known windows_path = true
              /\ _windows_directory (snd result) = Some windows_path).
  { intros H. destruct (H7 H) as (d & Hin & Hd & Hset).
    exists d. split; [now apply (Permutation_in _ Horder)|]. now split. }
  repeat split; try assumption.
  intros only Honly Hunique Hin.
  assert (Hf : found = true).
  { apply existsb_exists. now exists only. }
  destruct (Hfound Hf) as (d & Hd_in & Hd & Hset).
  now rewrite Hset, (Hunique d Hd_in Hd).
Qed.

(** ** The override of [_ScanFileSystem] *)

(** What the search asks, whatever the path resolver does. *)
Lemma scan_directories_asks (self : WindowsVolumeScanner)
    (path_resolver : WindowsPathResolver) (windows_paths : list string) :
  forall a : Attributes,
    let result := Windows.scan_directories self path_resolver windows_paths a in
    (exists middle,
        asked_of_windows (snd result) = (asked_of_windows a ++ middle)%list
        /\ forallb is_PathResolved middle = true)
    /\ (fst result = Returns true ->
        exists windows_path,
          In windows_path windows_paths
          /\ _windows_directory (snd result) = Some windows_path)
    /\ fst result <> OutOfFuel.
Proof.
  induction windows_paths as [|windows_path rest IH]; intros a.
  - cbn. split; [|split]; [|discriminate..].
    exists []. now rewrite app_nil_r.
  - cbn [Windows.scan_directories]. unfold Windows.resolve_path.
    cbv beta iota delta [bind get note modify answer ret raise].
    destruct (ResolvePath (windows_world self) (asked_of_windows a)
                path_resolver windows_path) as [e|[spec|]].
    + cbn. split; [|split]; [|discriminate..].
      exists [PathResolved path_resolver windows_path]. now split.
    + cbn. split; [|split]; [| |discriminate].
      * exists [PathResolved path_resolver windows_path]. now split.
      * intros _. exists windows_path. split; [now left | reflexivity].
    + match goal with
      | |- context [Windows.scan_directories self path_resolver rest ?a'] =>
          destruct (IH a') as ((middle & Hmiddle & Hall) & Hfound & Hfuel)
      end.
      cbn [asked_of_windows] in Hmiddle.
      split; [|split]; [| |exact Hfuel].
      * exists (PathResolved path_resolver windows_path :: middle).
        rewrite Hmiddle, <- app_assoc. now split.
      * intros H. destruct (Hfound H) as (d & Hin & Hd).
        exists d. split; [now right | exact Hd].
Qed.

Lemma no_file_system_event_resolved (middle : list WindowsEvent) :
  forallb is_PathResolved middle = true ->
  forallb (fun ev => negb (is_file_system_event ev)) middle = true.
Proof.
  induction middle as [|ev middle IH]; [reflexivity|].
  cbn [forallb]. intros H. apply andb_true_iff in H as [Hev H].
  rewrite (IH H). now destruct ev.
Qed.

Ltac same_record := rewrite <- ?app_assoc; cbn [app]; reflexivity.

(** The override at a node with a path specification, in all its cases. *)
Lemma _ScanFileSystem_opened (self : WindowsVolumeScanner) (this : NodeRef)
    (a : Attributes) (st : State) (spec : PathSpec) :
  path_spec (node (scan_context st) this) = Some spec ->
  let result := Windows._ScanFileSystem self (Some this) (a, st) in
  let a' := fst (snd result) in
  let st' := snd (snd result) in
  scan_context st' = scan_context st
  /\ trace st' = trace st
  /\ match OpenFileSystem (windows_world self) (Some spec) with
     | inl e =>
         fst result = Raises e
         /\ base_path_specs st' = base_path_specs st
         /\ asked_of_windows a'
            = (asked_of_windows a ++ [FileSystemOpened (Some spec) None])%list
     | inr None =>
         fst result = Returns tt
         /\ base_path_specs st' = base_path_specs st
         /\ asked_of_windows a'
            = (asked_of_windows a ++ [FileSystemOpened (Some spec) None])%list
     | inr (Some file_system) =>
         (exists middle,
             asked_of_windows a'
             = (asked_of_windows a
                ++ FileSystemOpened (Some spec) (Some file_system)
                   :: middle ++ [FileSystemClosed file_system])%list
             /\ forallb (fun ev => negb (is_file_system_event ev)) middle = true)
         /\ (base_path_specs st' = base_path_specs st
             \/ (base_path_specs st' = (base_path_specs st ++ [Some spec])%list
                 /\ exists windows_path,
                      In windows_path (iteration_order self)
                      /\ _windows_directory a' = Some windows_path))
         /\ (fst result = Returns tt ->
             Close (windows_world self) file_system = None)
         /\ (forall e, Close (windows_world self) file_system = Some e ->
             fst result = Raises e)
     end.
Proof.
  intros Hps. unfold Windows._ScanFileSystem.
  cbv beta iota delta [bind get]. cbn [snd fst]. rewrite Hps.
  unfold on_self at 1. unfold Windows.open_file_system. cbn [fst snd].
  destruct (OpenFileSystem (windows_world self) (Some spec))
    as [e|[file_system|]];
    cbv beta iota delta [bind get note modify ret raise]; cbn [fst snd];
    [now repeat split | | now repeat split].
  unfold finally, on_self, on_rest, Windows.new_path_resolver, Windows.close.
  cbv beta iota delta [bind get note modify ret raise]. cbn [fst snd].
  destruct (WindowsPathResolver_init (windows_world self) (Some file_system)
              (spec_parent spec)) as [e|].
  { cbn [fst snd asked_of_windows].
    destruct (Close (windows_world self) file_system) as [e'|];
      cbn [fst snd asked_of_windows]; (split; [reflexivity|]);
      (split; [reflexivity|]); split;
      try (exists [PathResolverMade (Some file_system) (spec_parent spec)];
           split; [same_record | reflexivity]);
      (split; [now left|]); split; intros; congruence. }
  unfold Windows._ScanFileSystemForWindowsDirectory.
  match goal with
  | |- context [Windows.scan_directories self ?r (iteration_order self) ?a0] =>
      destruct (scan_directories_asks self r (iteration_order self) a0)
        as ((middle & Hmiddle & Hall) & Hfound & Hfuel);
      destruct (Windows.scan_directories self r (iteration_order self) a0)
        as [[[|]|e|] a3]
  end; cbn [fst snd asked_of_windows] in *; try (now elim Hfuel);
    unfold append, modify; cbn [fst snd];
    destruct (Close (windows_world self) file_system) as [e'|];
    cbn [fst snd asked_of_windows scan_context trace base_path_specs];
    (split; [reflexivity|]); (split; [reflexivity|]); split;
    try (exists (PathResolverMade (Some file_system) (spec_parent spec)
                 :: middle);
         split; [rewrite Hmiddle; same_record|];
         cbn [forallb is_file_system_event negb andb];
         now apply no_file_system_event_resolved);
    (split; [first [ now left
                   | right; split; [reflexivity|];
                     destruct (Hfound eq_refl) as (d & Hin & Hd);
                     now exists d ]
            |]);
    split; intros; congruence.
Qed.

(** X15. When the resolver hands the override of [_ScanFileSystem] a file
    system, the override closes it, once and last, whatever happens in
    between: the path resolver cannot be made, a resolution raises, the
    directory is found or not. Nothing else is opened or closed meanwhile.
    The path specification of the node is appended at most once, and when
    it is, [_windows_directory] holds one of the directories visited. An
    exception of [Close] is what the override raises. *)
Theorem X15_override_closes_what_it_opens
    (self : WindowsVolumeScanner) (this : NodeRef) (a : Attributes)
    (st : State) (spec : PathSpec) (file_system : FileSystem) :
  path_spec (node (scan_context st) this) = Some spec ->
  OpenFileSystem (windows_world self) (Some spec) = inr (Some file_system) ->
  let result := Windows._ScanFileSystem self (Some this) (a, st) in
  let a' := fst (snd result) in
  let st' := snd (snd result) in
  (exists middle,
      asked_of_windows a'
      = (asked_of_windows a
         ++ FileSystemOpened (Some spec) (Some file_system)
            :: middle ++ [FileSystemClosed file_system])%list
      /\ forallb (fun ev => negb (is_file_system_event ev)) middle = true)
  /\ (base_path_specs st' = base_path_specs st
      \/ (base_path_specs st' = (base_path_specs st ++ [Some spec])%list
          /\ exists windows_path,
               In windows_path (iteration_order self)
               /\ _windows_directory a' = Some windows_path))
  /\ (forall e, Close (windows_world self) file_system = Some e ->
      fst result = Raises e)
  /\ scan_context st' = scan_context st
  /\ trace st' = trace st.
Proof.
  intros Hps Hopen.
  pose proof (_ScanFileSystem_opened self this a st spec Hps) as H.
  cbv zeta in H. rewrite Hopen in H.
  destruct H as (Hctx & Htrace & Hlog & Hspecs & _ & Hclose).
  cbv zeta. now repeat split.
Qed.

(** ** What the walk of the Windows scanner keeps *)

Section Keeping.

Variable R : Attributes -> Attributes -> Prop.
Hypothesis R_refl : forall a, R a a.
Hypothesis R_trans : forall a1 a2 a3, R a1 a2 -> R a2 a3 -> R a1 a3.

Lemma keeping_ret {T A} (x : A) : keeping R (@ret (Attributes * T) A x).
Proof. intros s. apply R_refl. Qed.

Lemma keeping_raise {T A} (e : exn) : keeping R (@raise (Attributes * T) A e).
Proof. intros s. apply R_refl. Qed.

Lemma keeping_out_of_fuel {T A} : keeping R (@out_of_fuel (Attributes * T) A).
Proof. intros s. apply R_refl. Qed.

Lemma keeping_bind {T A B} (m : M (Attributes * T) A)
    (k : A -> M (Attributes * T) B) :
  keeping R m -> (forall x, keeping R (k x)) -> keeping R (bind m k).
Proof.
  intros Hm Hk s. unfold bind. specialize (Hm s).
  destruct (m s) as [[x|e|] s1]; cbn [fst snd] in *; try exact Hm.
  apply (R_trans _ (fst s1)); [exact Hm | apply Hk].
Qed.

Lemma keeping_get {T B} (k : Attributes * T -> M (Attributes * T) B) :
  (forall s, keeping R (k s)) -> keeping R (bind get k).
Proof. intros Hk s. unfold bind, get. apply Hk. Qed.

Lemma keeping_for_each {T A} (xs : list A)
    (body : A -> M (Attributes * T) unit) :
  (forall x, keeping R (body x)) -> keeping R (for_each xs body).
Proof.
  intros Hbody. induction xs as [|x xs IH]; cbn [for_each].
  - apply keeping_ret.
  - apply keeping_bind; [apply Hbody | intros _; exact IH].
Qed.

Lemma keeping_on_rest {T A} (m : M T A) : keeping R (on_rest m).
Proof.
  intros s. unfold on_rest. destruct (m (snd s)). cbn [fst snd]. apply R_refl.
Qed.

Lemma keeping_on_self {T A} (m : M Attributes A) :
  keeps R m -> keeping R (@on_self T A m).
Proof.
  intros Hm s. unfold on_self. specialize (Hm (fst s)).
  now destruct (m (fst s)).
Qed.

Lemma keeping_finally {T A} (body : M (Attributes * T) A)
    (cleanup : M (Attributes * T) unit) :
  keeping R body -> keeping R cleanup -> keeping R (finally body cleanup).
Proof.
  intros Hbody Hcleanup s. unfold finally. specialize (Hbody s).
  destruct (body s) as [outcome s1]. specialize (Hcleanup s1).
  cbn [fst snd] in *.
  destruct (cleanup s1) as [[[]|e|] s2]; cbn [fst snd] in *;
    now apply (R_trans _ (fst s1)).
Qed.

Lemma keeps_ret {A} (x : A) : keeps R (ret x).
Proof. intros a. apply R_refl. Qed.

Lemma keeps_raise {A} (e : exn) : keeps R (@raise Attributes A e).
Proof. intros a. apply R_refl. Qed.

Lemma keeps_bind {A B} (m : M Attributes A) (k : A -> M Attributes B) :
  keeps R m -> (forall x, keeps R (k x)) -> keeps R (bind m k).
Proof.
  intros Hm Hk a. unfold bind. specialize (Hm a).
  destruct (m a) as [[x|e|] a1]; cbn [snd] in *; try exact Hm.
  apply (R_trans _ a1); [exact Hm | apply Hk].
Qed.

Lemma keeps_get {B} (k : Attributes -> M Attributes B) :
  (forall a, keeps R (k a)) -> keeps R (bind get k).
Proof. intros Hk a. unfold bind, get. apply Hk. Qed.

Variable self : VolumeScanner.
Variable method : option NodeRef -> M (Attributes * State) unit.
Hypothesis keeping_method : forall scan_node, keeping R (method scan_node).
Hypothesis keeping_set_source :
  forall source_path source_type,
    keeps R (set_source source_path source_type).

Lemma keeping_ScanVolumeSystemRoot
    (rec : option NodeRef -> M (Attributes * State) unit)
    (scan_node : option NodeRef) :
  (forall scan_node, keeping R (rec scan_node)) ->
  keeping R (Windows._ScanVolumeSystemRoot self rec scan_node).
Proof.
  intros Hrec. unfold Windows._ScanVolumeSystemRoot. apply keeping_get.
  intros s. destruct scan_node as [this|]; [|apply keeping_raise].
  destruct (path_spec (node (scan_context (snd s)) this));
    [|apply keeping_raise].
  apply keeping_bind.
  - destruct (type_indicator (node (scan_context (snd s)) this)
              =? TYPE_INDICATOR_APFS_CONTAINER); [apply keeping_on_rest|].
    destruct (type_indicator (node (scan_context (snd s)) this)
              =? TYPE_INDICATOR_VSHADOW); [|apply keeping_raise].
    apply keeping_bind; [apply keeping_on_rest | intros; apply keeping_ret].
  - intros ids. apply keeping_for_each. intros id.
    unfold Windows.scan_volume_at. apply keeping_get. intros s'.
    destruct (GetSubNodeByLocation (node (scan_context (snd s')) this)
                ("/" ++ id)); [apply Hrec | apply keeping_raise].
Qed.

Lemma keeping_scan_unlocked
    (rec : option NodeRef -> M (Attributes * State) unit) (this : NodeRef) :
  (forall scan_node, keeping R (rec scan_node)) ->
  keeping R (Windows.scan_unlocked self method rec this).
Proof.
  intros Hrec. unfold Windows.scan_unlocked. apply keeping_get. intros s.
  destruct (IsVolumeSystemRoot (node (scan_context (snd s)) this)).
  { now apply keeping_ScanVolumeSystemRoot. }
  destruct (IsFileSystem (node (scan_context (snd s)) this)).
  { apply keeping_method. }
  destruct (type_indicator (node (scan_context (snd s)) this)
            =? TYPE_INDICATOR_VSHADOW); [apply keeping_on_rest|].
  apply keeping_for_each. intros sub. apply Hrec.
Qed.

Lemma keeping_ScanVolume (fuel : nat) :
  forall scan_node,
    keeping R (Windows._ScanVolume self method fuel scan_node).
Proof.
  induction fuel as [|fuel IH]; intros scan_node; cbn [Windows._ScanVolume].
  - apply keeping_out_of_fuel.
  - apply keeping_get. intros s.
    destruct scan_node as [this|]; [|apply keeping_raise].
    destruct (path_spec (node (scan_context (snd s)) this)) as [spec|];
      [|apply keeping_raise].
    apply keeping_bind.
    + destruct (IsLockedScanNode (scan_context (snd s)) (Some spec));
        [|apply keeping_ret].
      apply keeping_bind; [apply keeping_on_rest|].
      intros _. apply keeping_get. intros s'. apply keeping_ret.
    + intros [|]; [apply keeping_ret|]. now apply keeping_scan_unlocked.
Qed.

Lemma keeping_GetBasePathSpecs (fuel : nat) (source_path : string) :
  keeping R (Windows.GetBasePathSpecs self method fuel source_path).
Proof.
  unfold Windows.GetBasePathSpecs.
  destruct (source_path =? "")%string; [apply keeping_raise|].
  destruct (negb (startswith source_path "\\.\")
            && negb (os_path_exists (world self) source_path));
    [apply keeping_raise|].
  apply keeping_bind; [apply keeping_on_rest|]. intros opened.
  apply keeping_bind; [apply keeping_on_rest|]. intros scanned.
  apply keeping_bind; [apply keeping_on_self, keeping_set_source|]. intros _.
  destruct (negb (is_storage_media (source_type scanned)));
    [apply keeping_ret|].
  destruct (first_decision_node fuel scanned (GetRootScanNode scanned))
    as [found|]; [|apply keeping_out_of_fuel].
  match goal with
  | |- keeping R (Windows.collect _ ?walk) => assert (Hwalk : keeping R walk)
  end.
  { destruct (negb (type_indicator (node scanned found)
                    =? TYPE_INDICATOR_TSK_PARTITION)).
    - apply keeping_ScanVolume.
    - apply keeping_bind; [apply keeping_on_rest|]. intros ids.
      unfold Windows.scan_partitions. apply keeping_for_each. intros id.
      apply keeping_get. intros s. apply keeping_ScanVolume. }
  intros s. unfold Windows.collect.
  specialize (Hwalk (fst s, {| scan_context := scanned; base_path_specs := [];
                               trace := snd s |})).
  cbn [fst] in Hwalk.
  destruct (_ (fst s, _)) as [[[]|e|] [a st]]; exact Hwalk.
Qed.

End Keeping.

(** ** File systems opened and closed over the walk *)

Lemma all_closed_since_refl (a : Attributes) : all_closed_since a a.
Proof. exists []. now rewrite app_nil_r. Qed.

Lemma all_closed_since_trans (a1 a2 a3 : Attributes) :
  all_closed_since a1 a2 -> all_closed_since a2 a3 -> all_closed_since a1 a3.
Proof.
  intros (e1 & E1 & B1) (e2 & E2 & B2). exists (e1 ++ e2)%list. split.
  - now rewrite E2, E1, app_assoc.
  - intros fs. rewrite !filter_app, !length_app. now rewrite B1, B2.
Qed.

Lemma all_closed_since_set_source (source_path : string)
    (source_type : option SourceType) :
  keeps all_closed_since (set_source source_path source_type).
Proof. intros a. exists []. cbn. now rewrite app_nil_r. Qed.

Lemma all_closed_since_override (self : WindowsVolumeScanner)
    (scan_node : option NodeRef) :
  keeping all_closed_since (Windows._ScanFileSystem self scan_node).
Proof.
  intros [a st]. cbn [fst].
  destruct scan_node as [this|]; [|apply all_closed_since_refl].
  destruct (path_spec (node (scan_context st) this)) as [spec|] eqn:Hps.
  - pose proof (_ScanFileSystem_opened self this a st spec Hps) as H.
    cbv zeta in H. destruct H as (_ & _ & H).
    destruct (OpenFileSystem (windows_world self) (Some spec))
      as [e|[file_system|]].
    + destruct H as (_ & _ & Hlog).
      exists [FileSystemOpened (Some spec) None]. now split.
    + destruct H as ((middle & Hlog & Hmiddle) & _).
      eexists. split; [exact Hlog|]. intros fs.
      cbn [filter opens closes]. rewrite !filter_app.
      assert (Hnone : forall f,
                (forall ev, is_file_system_event ev = false -> f ev = false) ->
                filter f middle = []).
      { intros f Hf. clear - Hmiddle Hf.
        induction middle as [|ev middle IH]; [reflexivity|].
        cbn [forallb filter] in *. apply andb_true_iff in Hmiddle as [Hev H].
        apply negb_true_iff in Hev. now rewrite (Hf ev Hev), (IH H). }
      rewrite (Hnone (opens fs)) by (now intros []).
      rewrite (Hnone (closes fs)) by (now intros []).
      cbn [filter closes app]. now destruct (fs =? file_system)%nat.
    + destruct H as (_ & _ & Hlog).
      exists [FileSystemOpened (Some spec) None]. now split.
  - unfold Windows._ScanFileSystem. cbv beta iota delta [bind get raise].
    cbn [fst snd]. rewrite Hps. apply all_closed_since_refl.
Qed.

(** X16. [GetBasePathSpecs] of the Windows scanner leaves no file system
    open: over the whole call, whatever it returns or raises and whatever
    the collaborators do, every file system is closed as often as it was
    opened. The walk below it has the same property from any state. *)
Theorem X16_walk_leaves_no_file_system_open
    (self : WindowsVolumeScanner) (fuel : nat) :
  (forall source_path a t,
      all_closed_since a
        (fst (snd (Windows.GetBasePathSpecs (inherited self)
                     (Windows._ScanFileSystem self) fuel source_path (a, t)))))
  /\ (forall scan_node a st,
        all_closed_since a
          (fst (snd (Windows._ScanVolume (inherited self)
                       (Windows._ScanFileSystem self) fuel scan_node (a, st))))).
Proof.
  split.
  - intros source_path a t.
    exact (keeping_GetBasePathSpecs all_closed_since all_closed_since_refl
             all_closed_since_trans (inherited self)
             (Windows._ScanFileSystem self) (all_closed_since_override self)
             all_closed_since_set_source fuel source_path (a, t)).
  - intros scan_node a st.
    exact (keeping_ScanVolume all_closed_since all_closed_since_refl
             all_closed_since_trans (inherited self)
             (Windows._ScanFileSystem self) (all_closed_since_override self)
             fuel scan_node (a, st)).
Qed.

(** ** The inherited methods with the base [_ScanFileSystem] *)

Lemma same_on_rest_ret {T A} (x : A) :
  same (on_rest (ret x)) (@ret (Attributes * T) A x).
Proof. now intros [a t]. Qed.

Lemma same_on_rest_raise {T A} (e : exn) :
  same (on_rest (raise e)) (@raise (Attributes * T) A e).
Proof. now intros [a t]. Qed.

Lemma same_on_rest_bind {T A B} (m : M T A) (k : A -> M T B)
    (m' : M (Attributes * T) A) (k' : A -> M (Attributes * T) B) :
  same (on_rest m) m' -> (forall x, same (on_rest (k x)) (k' x)) ->
  same (on_rest (bind m k)) (bind m' k').
Proof.
  intros Hm Hk [a t]. unfold bind. rewrite <- (Hm (a, t)).
  unfold on_rest at 1 2. cbn [fst snd].
  destruct (m t) as [[x|e|] t1]; try reflexivity.
  rewrite <- (Hk x (a, t1)). reflexivity.
Qed.

Lemma same_on_rest_get {T B} (k : T -> M T B)
    (k' : Attributes * T -> M (Attributes * T) B) :
  (forall s, same (on_rest (k (snd s))) (k' s)) ->
  same (on_rest (bind get k)) (bind get k').
Proof.
  intros Hk [a t]. unfold bind, get. rewrite <- (Hk (a, t) (a, t)).
  reflexivity.
Qed.

Lemma same_on_rest_for_each {T A} (xs : list A) (body : A -> M T unit)
    (body' : A -> M (Attributes * T) unit) :
  (forall x, same (on_rest (body x)) (body' x)) ->
  same (on_rest (for_each xs body)) (for_each xs body').
Proof.
  intros Hbody. induction xs as [|x xs IH]; cbn [for_each].
  - apply same_on_rest_ret.
  - apply same_on_rest_bind; [apply Hbody | intros _; exact IH].
Qed.

Lemma same_refl {S A} (m : M S A) : same m m.
Proof. now intros s. Qed.

Section InheritedBase.

Variable self : VolumeScanner.

Lemma same_ScanVolumeSystemRoot (rec : option NodeRef -> M State unit)
    (rec' : option NodeRef -> M (Attributes * State) unit)
    (scan_node : option NodeRef) :
  (forall scan_node, same (on_rest (rec scan_node)) (rec' scan_node)) ->
  same (on_rest (_ScanVolumeSystemRoot self rec scan_node))
       (Windows._ScanVolumeSystemRoot self rec' scan_node).
Proof.
  intros Hrec. unfold _ScanVolumeSystemRoot, Windows._ScanVolumeSystemRoot.
  apply same_on_rest_get. intros s.
  destruct scan_node as [this|]; [|apply same_on_rest_raise].
  destruct (path_spec (node (scan_context (snd s)) this));
    [|apply same_on_rest_raise].
  apply same_on_rest_bind.
  - destruct (type_indicator (node (scan_context (snd s)) this)
              =? TYPE_INDICATOR_APFS_CONTAINER); [apply same_refl|].
    destruct (type_indicator (node (scan_context (snd s)) this)
              =? TYPE_INDICATOR_VSHADOW); [|apply same_on_rest_raise].
    apply same_on_rest_bind; [apply same_refl|].
    intros ids. apply same_on_rest_ret.
  - intros ids. apply same_on_rest_for_each. intros id.
    unfold scan_volume_at, Windows.scan_volume_at.
    apply same_on_rest_get. intros s'.
    destruct (GetSubNodeByLocation (node (scan_context (snd s')) this)
                ("/" ++ id)); [apply Hrec | apply same_on_rest_raise].
Qed.

Lemma same_scan_unlocked (rec : option NodeRef -> M State unit)
    (rec' : option NodeRef -> M (Attributes * State) unit) (this : NodeRef) :
  (forall scan_node, same (on_rest (rec scan_node)) (rec' scan_node)) ->
  same (on_rest (scan_unlocked self rec this))
       (Windows.scan_unlocked self base_method rec' this).
Proof.
  intros Hrec. unfold scan_unlocked, Windows.scan_unlocked.
  apply same_on_rest_get. intros s.
  destruct (IsVolumeSystemRoot (node (scan_context (snd s)) this)).
  { now apply same_ScanVolumeSystemRoot. }
  destruct (IsFileSystem (node (scan_context (snd s)) this));
    [apply same_refl|].
  destruct (type_indicator (node (scan_context (snd s)) this)
            =? TYPE_INDICATOR_VSHADOW); [apply same_refl|].
  apply same_on_rest_for_each. intros sub. apply Hrec.
Qed.

Lemma same_ScanVolume (fuel : nat) :
  forall scan_node,
    same (on_rest (_ScanVolume self fuel scan_node))
         (Windows._ScanVolume self base_method fuel scan_node).
Proof.
  induction fuel as [|fuel IH]; intros scan_node;
    cbn [_ScanVolume Windows._ScanVolume].
  - now intros [a st].
  - apply same_on_rest_get. intros s.
    destruct scan_node as [this|]; [|apply same_on_rest_raise].
    destruct (path_spec (node (scan_context (snd s)) this)) as [spec|];
      [|apply same_on_rest_raise].
    apply same_on_rest_bind.
    + destruct (IsLockedScanNode (scan_context (snd s)) (Some spec));
        [|apply same_on_rest_ret].
      apply same_on_rest_bind; [apply same_refl|]. intros _.
      apply same_on_rest_get. intros s'. apply same_on_rest_ret.
    + intros [|]; [apply same_on_rest_ret|]. now apply same_scan_unlocked.
Qed.

Lemma as_inherited_bind {A B} (m : M (list Event) A)
    (k : A -> M (list Event) B) (m' : M (Attributes * list Event) A)
    (k' : A -> M (Attributes * list Event) B) :
  as_inherited m m' -> (forall x, as_inherited (k x) (k' x)) ->
  as_inherited (bind m k) (bind m' k').
Proof.
  intros Hm Hk a t. unfold bind. destruct (Hm a t) as [Hfst Hsnd].
  destruct (m' (a, t)) as [o' [a1 t1']]. destruct (m t) as [o t1].
  cbn [fst snd] in *. subst o' t1'.
  destruct o as [x|e|]; [apply Hk | now split..].
Qed.

Lemma as_inherited_on_rest {A} (m : M (list Event) A) :
  as_inherited m (on_rest m).
Proof. intros a t. unfold on_rest. cbn [fst snd]. now destruct (m t). Qed.

Lemma as_inherited_same {A} (m : M (list Event) A) :
  forall m' : M (Attributes * list Event) A,
    same (on_rest m) m' -> as_inherited m m'.
Proof.
  intros m' H a t. rewrite <- (H (a, t)). apply as_inherited_on_rest.
Qed.

Lemma as_inherited_collect (ctx : SourceScannerContext)
    (walk : M State unit) (walk' : M (Attributes * State) unit) :
  same (on_rest walk) walk' ->
  as_inherited (collect ctx walk) (Windows.collect ctx walk').
Proof.
  intros Hwalk a t. unfold collect, Windows.collect. cbn [fst snd].
  rewrite <- (Hwalk (a, _)). unfold on_rest. cbn [fst snd].
  now destruct (walk _) as [[[]|e|] st].
Qed.

Lemma as_inherited_set_source {A} (m : M (list Event) A)
    (m' : M (Attributes * list Event) A) (source_path : string)
    (source_type : option SourceType) :
  as_inherited m m' ->
  as_inherited m (on_self (set_source source_path source_type) ;; m').
Proof.
  intros H a t. unfold bind, on_self, set_source, modify. cbn [fst snd].
  apply H.
Qed.

Lemma as_inherited_GetBasePathSpecs (fuel : nat) (source_path : string) :
  as_inherited (GetBasePathSpecs self fuel source_path)
    (Windows.GetBasePathSpecs self base_method fuel source_path).
Proof.
  unfold GetBasePathSpecs, Windows.GetBasePathSpecs.
  destruct (source_path =? "")%string; [now intros a t|].
  destruct (negb (startswith source_path "\\.\")
            && negb (os_path_exists (world self) source_path));
    [now intros a t|].
  apply as_inherited_bind; [apply as_inherited_on_rest|]. intros opened.
  apply as_inherited_bind; [apply as_inherited_on_rest|]. intros scanned.
  apply as_inherited_set_source.
  destruct (negb (is_storage_media (source_type scanned)));
    [now intros a0 t|].
  destruct (first_decision_node fuel scanned (GetRootScanNode scanned))
    as [found|]; [|now intros a0 t].
  apply as_inherited_collect.
  destruct (negb (type_indicator (node scanned found)
                  =? TYPE_INDICATOR_TSK_PARTITION)).
  + apply same_ScanVolume.
  + apply same_on_rest_bind; [apply same_refl|]. intros ids.
    unfold scan_partitions, Windows.scan_partitions.
    apply same_on_rest_for_each. intros id.
    apply same_on_rest_get. intros s. apply same_ScanVolume.
Qed.

End InheritedBase.

(** With the [_ScanFileSystem] of the base class as the method they
    call, the methods that the Windows scanner inherits do what the methods
    of the base scanner do: [_ScanVolume] reaches the same outcome and the
    same state and leaves the attributes alone, and [GetBasePathSpecs]
    returns or raises the same and asks the same. *)
Lemma inherited_methods_are_the_base_methods
    (self : VolumeScanner) (fuel : nat) :
  (forall scan_node a st,
      Windows._ScanVolume self base_method fuel scan_node (a, st)
      = (fst (_ScanVolume self fuel scan_node st),
         (a, snd (_ScanVolume self fuel scan_node st))))
  /\ (forall source_path a t,
        fst (Windows.GetBasePathSpecs self base_method fuel source_path (a, t))
        = fst (GetBasePathSpecs self fuel source_path t)
        /\ snd (snd (Windows.GetBasePathSpecs self base_method fuel
                       source_path (a, t)))
           = snd (GetBasePathSpecs self fuel source_path t)).
Proof.
  split.
  - intros scan_node a st.
    rewrite <- (same_ScanVolume self fuel scan_node (a, st)).
    unfold on_rest. cbn [fst snd].
    now destruct (_ScanVolume self fuel scan_node st).
  - intros source_path. apply as_inherited_GetBasePathSpecs.
Qed.

(** ** The attributes over the walk and over [ScanForWindowsVolume] *)

Lemma directory_among_refl (windows_paths : list string) (a : Attributes) :
  directory_among windows_paths a a.
Proof. repeat split. now left. Qed.

Lemma directory_among_trans (windows_paths : list string)
    (a1 a2 a3 : Attributes) :
  directory_among windows_paths a1 a2 -> directory_among windows_paths a2 a3 ->
  directory_among windows_paths a1 a3.
Proof.
  intros (F1 & P1 & D1) (F2 & P2 & D2). split; [congruence|].
  split; [congruence|].
  destruct D2 as [D2|D2]; [|now right].
  rewrite D2. exact D1.
Qed.

Lemma directory_among_note (windows_paths : list string) (ev : WindowsEvent) :
  keeps (directory_among windows_paths) (note ev).
Proof. intros a. repeat split. now left. Qed.

Lemma directory_among_set_source (windows_paths : list string)
    (source_path : string) (source_type : option SourceType) :
  keeps (directory_among windows_paths) (set_source source_path source_type).
Proof. intros a. repeat split. now left. Qed.

Ltac keeps_step windows_paths :=
  first
    [ apply (keeps_get _)
    | apply (keeps_bind _ (directory_among_trans windows_paths))
    | apply (keeps_ret _ (directory_among_refl windows_paths))
    | apply (keeps_raise _ (directory_among_refl windows_paths))
    | apply directory_among_note ].

Lemma directory_among_resolve_path (windows_paths : list string)
    (self : WindowsVolumeScanner) (path_resolver : WindowsPathResolver)
    (windows_path : string) :
  keeps (directory_among windows_paths)
        (Windows.resolve_path self path_resolver windows_path).
Proof.
  unfold Windows.resolve_path. keeps_step windows_paths. intros a.
  keeps_step windows_paths; [keeps_step windows_paths|]. intros _.
  unfold answer.
  destruct (ResolvePath _ _ _ _); keeps_step windows_paths.
Qed.

Lemma directory_among_scan_directories (windows_paths : list string)
    (self : WindowsVolumeScanner) (path_resolver : WindowsPathResolver)
    (visited : list string) :
  incl visited windows_paths ->
  keeps (directory_among windows_paths)
        (Windows.scan_directories self path_resolver visited).
Proof.
  induction visited as [|windows_path rest IH]; intros Hincl;
    cbn [Windows.scan_directories].
  - keeps_step windows_paths.
  - keeps_step windows_paths; [apply directory_among_resolve_path|].
    intros [spec|].
    + keeps_step windows_paths; [|intros _; keeps_step windows_paths].
      intros a. split; [reflexivity|]. split; [reflexivity|]. right.
      exists windows_path. split; [|reflexivity]. apply Hincl. now left.
    + apply IH. intros x Hx. apply Hincl. now right.
Qed.

Lemma directory_among_override (self : WindowsVolumeScanner)
    (scan_node : option NodeRef) :
  keeping (directory_among (iteration_order self))
          (Windows._ScanFileSystem self scan_node).
Proof.
  pose proof (directory_among_refl (iteration_order self)) as Hrefl.
  pose proof (directory_among_trans (iteration_order self)) as Htrans.
  unfold Windows._ScanFileSystem. apply (keeping_get _). intros s.
  destruct scan_node as [this|]; [|now apply keeping_raise].
  destruct (path_spec (node (scan_context (snd s)) this)) as [spec|];
    [|now apply keeping_raise].
  apply (keeping_bind _ Htrans).
  { apply keeping_on_self. unfold Windows.open_file_system.
    destruct (OpenFileSystem _ _);
      (keeps_step (iteration_order self); [keeps_step (iteration_order self)|]);
      intros _; keeps_step (iteration_order self). }
  intros [file_system|]; [|now apply keeping_ret].
  apply (keeping_finally _ Htrans).
  - apply (keeping_bind _ Htrans).
    { apply keeping_on_self. unfold Windows.new_path_resolver.
      keeps_step (iteration_order self); [keeps_step (iteration_order self)|].
      intros _. destruct (WindowsPathResolver_init _ _ _);
        keeps_step (iteration_order self). }
    intros path_resolver. apply (keeping_bind _ Htrans).
    { apply keeping_on_self. apply directory_among_scan_directories.
      now intros x. }
    intros [|]; [now apply keeping_on_rest | now apply keeping_ret].
  - apply keeping_on_self. unfold Windows.close.
    keeps_step (iteration_order self); [keeps_step (iteration_order self)|].
    intros _. destruct (Close _ _); keeps_step (iteration_order self).
Qed.

Lemma bind_returns_inv {S A B} (m : M S A) (k : A -> M S B)
    (s s' : S) (y : B) :
  bind m k s = (Returns y, s') ->
  exists x s1, m s = (Returns x, s1) /\ k x s1 = (Returns y, s').
Proof.
  unfold bind. destruct (m s) as [[x|e|] s1]; intros H; try discriminate.
  now exists x, s1.
Qed.

(** What [ScanForWindowsVolume] has done when it answers true, after a
    [GetBasePathSpecs] that left the attributes [a]. *)
Lemma bind_windows_volume_true (self : WindowsVolumeScanner)
    (windows_path_specs : list (option PathSpec)) (a a' : Attributes) :
  Windows.bind_windows_volume self windows_path_specs a = (Returns true, a') ->
  exists spec rest windows_directory path_resolver before,
    windows_path_specs = Some spec :: rest
    /\ _source_type a <> Some SOURCE_TYPE_FILE
    /\ _windows_directory a' = Some windows_directory
    /\ windows_directory <> ""
    /\ (_windows_directory a = Some windows_directory
        \/ In windows_directory (iteration_order self))
    /\ _path_resolver a' = Some path_resolver
    /\ resolver_file_system path_resolver = _file_system a'
    /\ OpenFileSystem (windows_world self) (Some spec) = inr (_file_system a')
    /\ resolver_mount_point path_resolver
       = (if spec_type_indicator spec =? TYPE_INDICATOR_OS
          then Some spec else spec_parent spec)
    /\ asked_of_windows a'
       = (before
          ++ [EnvironmentVariableSet path_resolver "SystemRoot" windows_directory;
              EnvironmentVariableSet path_resolver "WinDir" windows_directory])%list.
Proof.
  unfold Windows.bind_windows_volume. intros H.
  apply bind_returns_inv in H as (a0 & s0 & Hget & H).
  inversion Hget; subst a0 s0; clear Hget.
  destruct windows_path_specs as [|first rest]; [discriminate|].
  assert (Hfile : _source_type a <> Some SOURCE_TYPE_FILE).
  { intros E. rewrite E in H. discriminate. }
  assert (H' : (file_system <- Windows.open_file_system self first ;;
                set_file_system file_system ;;
                match first with
                | None =>
                    raise (OtherException "AttributeError"
                             "'NoneType' object has no attribute 'type_indicator'")
                | Some spec =>
                    let mount_point :=
                      if spec_type_indicator spec =? TYPE_INDICATOR_OS
                      then Some spec else spec_parent spec in
                    path_resolver <-
                      Windows.new_path_resolver self file_system mount_point ;;
                    set_path_resolver path_resolver ;;
                    a <- get ;;
                    (if Windows.no_windows_directory a then
                       Windows._ScanFileSystemForWindowsDirectory self
                         path_resolver ;; ret tt
                     else ret tt) ;;
                    a <- get ;;
                    match _windows_directory a with
                    | None => ret false
                    | Some windows_directory =>
                        if (windows_directory =? "")%string then ret false
                        else
                          Windows.set_environment_variable self path_resolver
                            "SystemRoot" windows_directory ;;
                          Windows.set_environment_variable self path_resolver
                            "WinDir" windows_directory ;;
                          ret true
                    end
                end) a = (Returns true, a')).
  { destruct (_source_type a) as [[]|]; try exact H. now elim Hfile. }
  clear H.
  apply bind_returns_inv in H' as (file_system & a1 & Hopen & H).
  apply bind_returns_inv in H as ([] & a2 & Hset & H).
  destruct first as [spec|]; [|discriminate].
  cbv zeta in H.
  apply bind_returns_inv in H as (path_resolver & a3 & Hnew & H).
  apply bind_returns_inv in H as ([] & a4 & Hsetr & H).
  apply bind_returns_inv in H as (a4' & s4 & Hget & H).
  inversion Hget; subst a4' s4; clear Hget.
  apply bind_returns_inv in H as ([] & a5 & Hscan & H).
  apply bind_returns_inv in H as (a5' & s5 & Hget & H).
  inversion Hget; subst a5' s5; clear Hget.
  destruct (_windows_directory a5) as [windows_directory|] eqn:Hdir;
    [|discriminate].
  destruct (windows_directory =? "")%string eqn:Hempty; [discriminate|].
  apply String.eqb_neq in Hempty.
  apply bind_returns_inv in H as ([] & a6 & Henv1 & H).
  apply bind_returns_inv in H as ([] & a7 & Henv2 & H).
  inversion H; subst a7; clear H.
  (* the file system *)
  unfold Windows.open_file_system in Hopen.
  destruct (OpenFileSystem (windows_world self) (Some spec))
    as [e|opened] eqn:Hresolver;
    cbv beta iota delta [bind note modify ret raise] in Hopen;
    [discriminate|].
  inversion Hopen; subst file_system a1; clear Hopen.
  inversion Hset; subst a2; clear Hset.
  (* the path resolver *)
  unfold Windows.new_path_resolver in Hnew.
  cbv beta iota delta [bind note modify ret raise] in Hnew.
  destruct (WindowsPathResolver_init (windows_world self) opened _);
    [discriminate|].
  inversion Hnew; subst path_resolver a3; clear Hnew.
  inversion Hsetr; subst a4; clear Hsetr.
  (* the search *)
  match type of Hscan with
  | (if Windows.no_windows_directory ?attributes then _ else _) _ = _ =>
      set (a4 := attributes) in *
  end.
  assert (Hkept : directory_among (iteration_order self) a4 a5
                  /\ (Windows.no_windows_directory a4 = false -> a5 = a4)).
  { destruct (Windows.no_windows_directory a4).
    - apply bind_returns_inv in Hscan as (found & a5' & Hscan & Hret).
      inversion Hret; subst a5'. split; [|discriminate].
      unfold Windows._ScanFileSystemForWindowsDirectory in Hscan.
      match type of Hscan with
      | Windows.scan_directories self ?r _ _ = _ =>
          pose proof (directory_among_scan_directories (iteration_order self)
                        self r (iteration_order self) (fun x H => H) a4) as K
      end.
      now rewrite Hscan in K.
    - inversion Hscan. split; [apply directory_among_refl | reflexivity]. }
  destruct Hkept as [(Hfs & Hpr & Hwd) Hsame].
  (* the environment variables *)
  unfold Windows.set_environment_variable in Henv1, Henv2.
  cbv beta iota delta [bind get note modify ret raise] in Henv1, Henv2.
  destruct (SetEnvironmentVariable (windows_world self) (asked_of_windows a5)
              _ "SystemRoot" windows_directory); [discriminate|].
  inversion Henv1; subst a6; clear Henv1. cbn [asked_of_windows] in Henv2.
  destruct (SetEnvironmentVariable (windows_world self) _ _ "WinDir"
              windows_directory); [discriminate|].
  inversion Henv2; subst a'; clear Henv2.
  cbn [_windows_directory _path_resolver _file_system asked_of_windows].
  subst a4. cbn [_windows_directory _path_resolver _file_system] in Hfs, Hpr, Hwd.
  eexists spec, rest, windows_directory, _, (asked_of_windows a5).
  repeat split; try eassumption; try reflexivity; try (now rewrite Hfs);
    try same_record.
  destruct Hwd as [Hwd|(d & Hin & Hd)].
  - left. congruence.
  - right. congruence.
Qed.

Lemma on_self_returns_inv {T A} (m : M Attributes A) (a a' : Attributes)
    (t t' : T) (outcome : Outcome A) :
  on_self m (a, t) = (outcome, (a', t')) -> m a = (outcome, a') /\ t' = t.
Proof.
  unfold on_self. cbn [fst snd]. destruct (m a) as [o a1]. intros H.
  inversion H. now split.
Qed.

(** X18. When [ScanForWindowsVolume] answers true, [_windows_directory]
    holds a directory that is not empty, one of the four known directories
    unless it is the one the scanner already held before the call; the
    scanner holds a path resolver made on the file system it holds, and the
    last two things it asked are to set [SystemRoot] and then [WinDir] of
    that resolver to that directory. [OpenFile] then answers [None] for a
    path that this resolver does not resolve, without asking the file
    system. *)
Theorem X18_true_means_bound
    (self : WindowsVolumeScanner) (fuel : nat) (source_path : string)
    (a a' : Attributes) (t t' : list Event) :
  Permutation (iteration_order self) _WINDOWS_DIRECTORIES ->
  Windows.ScanForWindowsVolume self fuel source_path (a, t)
  = (Returns true, (a', t')) ->
  exists windows_directory path_resolver before,
    _windows_directory a' = Some windows_directory
    /\ windows_directory <> ""
    /\ (In windows_directory _WINDOWS_DIRECTORIES
        \/ _windows_directory a = Some windows_directory)
    /\ _path_resolver a' = Some path_resolver
    /\ resolver_file_system path_resolver = _file_system a'
    /\ asked_of_windows a'
       = (before
          ++ [EnvironmentVariableSet path_resolver "SystemRoot" windows_directory;
              EnvironmentVariableSet path_resolver "WinDir" windows_directory])%list
    /\ (forall windows_path,
          ResolvePath (windows_world self) (asked_of_windows a') path_resolver
            windows_path = inr None ->
          fst (Windows.OpenFile self windows_path a') = Returns None
          /\ asked_of_windows (snd (Windows.OpenFile self windows_path a'))
             = (asked_of_windows a'
                ++ [PathResolved path_resolver windows_path])%list).
Proof.
  intros Horder H. unfold Windows.ScanForWindowsVolume in H.
  apply bind_returns_inv in H as (specs & [a1 t1] & Hbase & H).
  apply on_self_returns_inv in H as [H _].
  pose proof (keeping_GetBasePathSpecs (directory_among (iteration_order self))
                (directory_among_refl _) (directory_among_trans _)
                (inherited self) (Windows._ScanFileSystem self)
                (directory_among_override self)
                (directory_among_set_source _) fuel source_path (a, t)) as K.
  rewrite Hbase in K. cbn [fst snd] in K. destruct K as (_ & _ & Kdir).
  destruct (bind_windows_volume_true self specs a1 a' H)
    as (spec & rest & d & r & before & _ & _ & Hd & Hne & Hfrom & Hr & Hfs
        & _ & _ & Hlog).
  exists d, r, before.
  split; [exact Hd|]. split; [exact Hne|]. split; [|split; [exact Hr|]].
  - destruct Hfrom as [Hfrom|Hfrom].
    + destruct Kdir as [Kdir|(d' & Hin & Hd')].
      * right. congruence.
      * left. apply (Permutation_in _ Horder). congruence.
    + left. now apply (Permutation_in _ Horder).
  - split; [exact Hfs|]. split; [exact Hlog|].
    intros windows_path Hnone.
    unfold Windows.OpenFile, Windows.resolve_path.
    cbv beta iota delta [bind get note modify answer ret]. rewrite Hr.
    cbn [asked_of_windows]. now rewrite Hnone.
Qed.

(** The start of the inherited [GetBasePathSpecs], up to the classification
    of the source. *)
Lemma Windows_GetBasePathSpecs_plain (self : VolumeScanner)
    (method : option NodeRef -> M (Attributes * State) unit) (fuel : nat)
    (source_path : string) (opened scanned : SourceScannerContext)
    (a : Attributes) (t : list Event) :
  source_path <> "" ->
  startswith source_path "\\.\" = true
  \/ os_path_exists (world self) source_path = true ->
  OpenSourcePath (world self) source_path = inr opened ->
  Scan (world self) opened None = inr scanned ->
  is_storage_media (source_type scanned) = false ->
  Windows.GetBasePathSpecs self method fuel source_path (a, t)
  = (Returns [path_spec (node scanned (GetRootScanNode scanned))],
     (snd (set_source source_path (source_type scanned) a),
      (t ++ [SourceScannerScan None])%list)).
Proof.
  intros Hne Hexists Hopen Hscan Hmedia. unfold Windows.GetBasePathSpecs.
  destruct (source_path =? "")%string eqn:E;
    [apply String.eqb_eq in E; contradiction|].
  assert (G : negb (startswith source_path "\\.\")
              && negb (os_path_exists (world self) source_path) = false).
  { destruct Hexists as [-> | ->]; [reflexivity | apply andb_false_r]. }
  rewrite G, Hopen. unfold first_scan, on_rest, on_self.
  cbv beta iota delta [bind answer ret emit modify set_source].
  cbn [fst snd]. rewrite Hscan. cbn [fst snd]. now rewrite Hmedia.
Qed.

(** X19. For a source classified as a single file, [ScanForWindowsVolume]
    answers false although [GetBasePathSpecs] returned the path
    specification of the root: no file system is opened, no path is
    resolved, and the attributes other than the source path and type are
    as before. It also answers false, having asked nothing more, whenever
    [GetBasePathSpecs] returned no path specification. *)
Theorem X19_single_file_is_no_windows_volume
    (self : WindowsVolumeScanner) (fuel : nat) (source_path : string)
    (opened scanned : SourceScannerContext) (a : Attributes)
    (t : list Event) :
  source_path <> "" ->
  startswith source_path "\\.\" = true
  \/ os_path_exists (world (inherited self)) source_path = true ->
  OpenSourcePath (world (inherited self)) source_path = inr opened ->
  Scan (world (inherited self)) opened None = inr scanned ->
  source_type scanned = Some SOURCE_TYPE_FILE ->
  Windows.ScanForWindowsVolume self fuel source_path (a, t)
  = (Returns false,
     ({| _source_path := Some source_path;
         _source_type := Some SOURCE_TYPE_FILE;
         _file_system := _file_system a;
         _path_resolver := _path_resolver a;
         _windows_directory := _windows_directory a;
         asked_of_windows := asked_of_windows a |},
      (t ++ [SourceScannerScan None])%list))
  /\ (forall a0 : Attributes,
        Windows.bind_windows_volume self [] a0 = (Returns false, a0)).
Proof.
  intros Hne Hexists Hopen Hscan Htype. split; [|reflexivity].
  unfold Windows.ScanForWindowsVolume, bind.
  rewrite (Windows_GetBasePathSpecs_plain (inherited self) _ fuel source_path
             opened scanned a t Hne Hexists Hopen Hscan)
    by now rewrite Htype.
  rewrite Htype. reflexivity.
Qed.

(** X20. A directory found earlier is not searched for again. When the
    scanner already holds a directory, from a file system accepted during
    the walk or from an earlier call, [ScanForWindowsVolume] opens the file
    system of the first path specification, makes the path resolver and
    binds [SystemRoot] and [WinDir] to the directory it held, without
    resolving any path on the file system it opened. *)
Theorem X20_held_directory_is_not_searched_again
    (self : WindowsVolumeScanner) (spec : PathSpec)
    (rest : list (option PathSpec)) (a : Attributes)
    (windows_directory : string) (file_system : option FileSystem) :
  _source_type a <> Some SOURCE_TYPE_FILE ->
  _windows_directory a = Some windows_directory ->
  windows_directory <> "" ->
  OpenFileSystem (windows_world self) (Some spec) = inr file_system ->
  let mount_point :=
    if spec_type_indicator spec =? TYPE_INDICATOR_OS
    then Some spec else spec_parent spec in
  let path_resolver :=
    {| resolver_file_system := file_system;
       resolver_mount_point := mount_point |} in
  WindowsPathResolver_init (windows_world self) file_system mount_point = None ->
  (forall asked name value,
      SetEnvironmentVariable (windows_world self) asked path_resolver name value
      = None) ->
  Windows.bind_windows_volume self (Some spec :: rest) a
  = (Returns true,
     {| _source_path := _source_path a;
        _source_type := _source_type a;
        _file_system := file_system;
        _path_resolver := Some path_resolver;
        _windows_directory := Some windows_directory;
        asked_of_windows :=
          (asked_of_windows a
           ++ [FileSystemOpened (Some spec) file_system;
               PathResolverMade file_system mount_point;
               EnvironmentVariableSet path_resolver "SystemRoot"
                 windows_directory;
               EnvironmentVariableSet path_resolver "WinDir"
                 windows_directory])%list |}).
Proof.
  intros Hfile Hdir Hne Hopen mount_point path_resolver Hinit Henv.
  subst path_resolver mount_point.
  unfold Windows.bind_windows_volume.
  assert (Hskip : forall A (k1 k2 : A),
            match _source_type a with
            | Some SOURCE_TYPE_FILE => k1
            | _ => k2
            end = k2).
  { intros A k1 k2. destruct (_source_type a) as [[]|]; try reflexivity.
    now elim Hfile. }
  cbv beta iota delta [bind get]. rewrite Hskip.
  unfold Windows.open_file_system. rewrite Hopen.
  cbv beta iota delta [bind get note modify ret raise
    set_file_system set_path_resolver Windows.new_path_resolver].
  rewrite Hinit.
  unfold Windows.no_windows_directory, Windows.set_environment_variable.
  cbv beta iota delta [bind get note modify ret raise].
  cbn [_source_path _source_type _file_system _path_resolver
       _windows_directory asked_of_windows].
  apply String.eqb_neq in Hne.
  repeat (rewrite ?Hdir, ?Hne, ?Henv; cbv beta iota;
          cbn [_source_path _source_type _file_system _path_resolver
               _windows_directory asked_of_windows]).
  rewrite <- !app_assoc. reflexivity.
Qed.

(** ** The further properties on concrete sources *)

Import MoreExamples.

Lemma X2_on_examples :
  length ["p2"; "p1"] = length [IdInt 2; IdStr " 1 "]
  /\ ["p2"; "p1"] = map (normalized_form "p") [IdInt 2; IdStr " 1 "]
  /\ forallb (volume_exists two_partitions) ["p2"; "p1"] = true.
Proof.
  refine (proj1 (X2_normalization_outcomes two_partitions "p"
                   [IdInt 2; IdStr " 1 "] _) ["p2"; "p1"] eq_refl).
  vm_compute. reflexivity.
Defined.

Lemma X3_on_examples :
  _NormalizedVolumeIdentifiers two_partitions ([IdInt 2] ++ [IdStr "p1"]) "p"
  = inr (["p2"] ++ ["p1"])%list
  /\ _NormalizedVolumeIdentifiers two_partitions ([IdInt 7] ++ [IdStr "p1"]) "p"
     = inl (ScannerError "Volume missing for identifier: p7.").
Proof.
  split.
  - exact (proj2 (proj2 (X3_normalization_of_concatenation two_partitions "p"
             [IdInt 2] [IdStr "p1"])) ["p2"] ["p1"] eq_refl eq_refl).
  - exact (proj1 (X3_normalization_of_concatenation two_partitions "p"
             [IdInt 7] [IdStr "p1"]) _ eq_refl).
Defined.

Lemma X4_on_examples :
  snd (resolve TSKVolumeSystem
         (scanner (Some select_all) TwoPartitions.context two_partitions)
         (Some (TwoPartitions.nodes 2)) [SourceScannerScan None])
  = [SourceScannerScan None;
     VolumeSystemOpen TSKVolumeSystem TwoPartitions.table_spec;
     MediatorCalled (CallGetPartitionIdentifiers two_partitions ["p1"; "p2"])]
  /\ snd (resolve APFSVolumeSystem
            (scanner (Some select_all) OneContainer.context
               (volume_system_of ["apfs1"]))
            (Some (OneContainer.nodes 0)) [])
     = [VolumeSystemOpen APFSVolumeSystem OneContainer.container_spec]
  /\ snd (resolve VShadowVolumeSystem
            (scanner (Some select_all) TwoStores.context two_stores)
            None [SourceScannerScan None])
     = [SourceScannerScan None].
Proof.
  split; [|split].
  - exact (X4_resolution_asks_at_most_twice TSKVolumeSystem
             (scanner (Some select_all) TwoPartitions.context two_partitions)
             (Some (TwoPartitions.nodes 2)) [SourceScannerScan None]).
  - exact (X4_resolution_asks_at_most_twice APFSVolumeSystem
             (scanner (Some select_all) OneContainer.context
                (volume_system_of ["apfs1"]))
             (Some (OneContainer.nodes 0)) []).
  - exact (X4_resolution_asks_at_most_twice VShadowVolumeSystem
             (scanner (Some select_all) TwoStores.context two_stores)
             None [SourceScannerScan None]).
Defined.

Lemma X5_on_examples :
  forallb (volume_exists two_partitions) ["p1"; "p2"] = true.
Proof.
  refine (X5_resolved_identifiers_have_volumes TSKVolumeSystem
            (scanner (Some select_all) TwoPartitions.context two_partitions)
            (TwoPartitions.nodes 2) TwoPartitions.table_spec two_partitions
            [] ["p1"; "p2"] eq_refl eq_refl _ eq_refl).
  intros _. discriminate.
Defined.

Lemma X6_on_examples :
  _ScanVolume (scanner (Some select_all) TwoPartitions.context two_partitions)
    1 (Some 2%nat) (start TwoPartitions.context)
  = (Raises (ScannerError "Unsupported volume system type: TSK_PARTITION."),
     start TwoPartitions.context).
Proof.
  refine (proj2 (X6_unsupported_volume_system_type
            (scanner (Some select_all) TwoPartitions.context two_partitions)
            0 2%nat (start TwoPartitions.context) TwoPartitions.table_spec
            eq_refl _ _) eq_refl eq_refl); discriminate.
Defined.

Lemma X7_on_examples :
  for_each (["vss1"] ++ "vss3" :: [])%list
    (scan_volume_at
       (_ScanVolume (scanner None TwoStores.context stores_with_stranger) 1)
       0%nat)
    (start TwoStores.context)
  = (Raises (ScannerError "Scan node missing for volume identifier: vss3."),
     {| scan_context := TwoStores.context;
        base_path_specs := [Some (child "TSK" "/" TwoStores.vss1_spec)];
        trace := [] |}).
Proof.
  exact (proj1 (X7_missing_sub_node
           (scanner None TwoStores.context stores_with_stranger)
           (_ScanVolume (scanner None TwoStores.context stores_with_stranger) 1)
           0%nat (start TwoStores.context)
           {| scan_context := TwoStores.context;
              base_path_specs := [Some (child "TSK" "/" TwoStores.vss1_spec)];
              trace := [] |}
           ["vss1"] [] "vss3" eq_refl eq_refl)).
Defined.

Lemma X8_on_examples :
  fst (_ScanEncryptedVolume
         (scanner (Some select_all) TwoPartitions.context two_partitions)
         (Some 5%nat) (start TwoPartitions.context))
  = Returns tt
  /\ trace (snd (_ScanEncryptedVolume
                   (scanner (Some select_all) TwoPartitions.context
                      two_partitions)
                   (Some 5%nat) (start TwoPartitions.context)))
     = [MediatorCalled (CallUnlockEncryptedVolume 5 bde_credentials)]
  /\ scan_context (snd (_ScanEncryptedVolume
                          (scanner (Some select_all) TwoPartitions.context
                             two_partitions)
                          (Some 5%nat) (start TwoPartitions.context)))
     = TwoPartitions.context.
Proof.
  exact (proj2 (X8_unlock_attempt_asks
           (scanner (Some select_all) TwoPartitions.context two_partitions)
           5%nat (start TwoPartitions.context) TwoPartitions.bde_spec eq_refl)
           bde_credentials (mediator_with select_all) eq_refl eq_refl).
Defined.

Lemma X9_on_examples :
  _ScanVolume (scanner_with interrupted_unlock TwoPartitions.context
                 two_partitions)
    1 (Some 5%nat) (start TwoPartitions.context)
  = (Raises KeyboardInterrupt,
     record (MediatorCalled (CallUnlockEncryptedVolume 5 bde_credentials))
       (start TwoPartitions.context)).
Proof.
  exact (proj1 (X9_unlock_exception_is_not_caught
           (scanner_with interrupted_unlock TwoPartitions.context
              two_partitions)
           0 5%nat (start TwoPartitions.context) TwoPartitions.bde_spec
           bde_credentials interrupted_unlock KeyboardInterrupt
           eq_refl eq_refl eq_refl eq_refl eq_refl)).
Defined.

Lemma X10_on_examples :
  GetBasePathSpecs (scanner None PlainFile.context two_partitions)
    0 "/no/such/path" []
  = (Raises (ScannerError
       "No such device, file or directory: /no/such/path."), [])
  /\ GetBasePathSpecs
       (unscannable (BackEndError "corrupt header") PlainFile.context)
       0 "/image.raw" []
     = (Raises (ScannerError
          "Unable to scan source with error: corrupt header"),
        [SourceScannerScan None])
  /\ GetBasePathSpecs
       (unscannable
          (Subclass "UnicodeDecodeError"
             (Subclass "UnicodeError" (ValueError "invalid start byte")))
          PlainFile.context)
       0 "/image.raw" []
     = (Raises (ScannerError
          "Unable to scan source with error: invalid start byte"),
        [SourceScannerScan None])
  /\ GetBasePathSpecs
       (unscannable (OtherException "OSError" "unreadable")
          PlainFile.context)
       0 "/image.raw" []
     = (Raises (OtherException "OSError" "unreadable"),
        [SourceScannerScan None]).
Proof.
  split; [|split; [|split]].
  - refine (proj1 (proj2 (X10_failures_before_the_walk
              (scanner None PlainFile.context two_partitions)
              0 "/no/such/path" [])) _ eq_refl eq_refl).
    discriminate.
  - refine (proj2 (proj2 (proj2 (X10_failures_before_the_walk
              (unscannable (BackEndError "corrupt header") PlainFile.context)
              0 "/image.raw" []))
              _ (or_intror eq_refl))
              PlainFile.context (BackEndError "corrupt header")
              eq_refl eq_refl).
    discriminate.
  - refine (proj2 (proj2 (proj2 (X10_failures_before_the_walk
              (unscannable
                 (Subclass "UnicodeDecodeError"
                    (Subclass "UnicodeError"
                       (ValueError "invalid start byte")))
                 PlainFile.context)
              0 "/image.raw" []))
              _ (or_intror eq_refl))
              PlainFile.context
              (Subclass "UnicodeDecodeError"
                 (Subclass "UnicodeError" (ValueError "invalid start byte")))
              eq_refl eq_refl).
    discriminate.
  - refine (proj2 (proj2 (proj2 (X10_failures_before_the_walk
              (unscannable (OtherException "OSError" "unreadable")
                 PlainFile.context)
              0 "/image.raw" []))
              _ (or_intror eq_refl))
              PlainFile.context (OtherException "OSError" "unreadable")
              eq_refl eq_refl).
    discriminate.
Defined.

Lemma X11_on_examples :
  Forall (fun entry => entry <> None) [Some TwoPartitions.ntfs_spec].
Proof.
  refine (proj1 (proj2 (proj2 (X11_walk_only_appends
            (scanner (Some select_all) TwoPartitions.context two_partitions)
            2))
            "/image.raw" TwoPartitions.context TwoPartitions.context []
            [Some TwoPartitions.ntfs_spec] _ (or_intror eq_refl) eq_refl
            eq_refl eq_refl eq_refl)).
  discriminate.
Defined.

Lemma X12_on_examples :
  length (sub_nodes (node OneContainer.context 2)) <> 1%nat
  /\ GetBasePathSpecs
       (scanner None OneContainer.context (volume_system_of ["apfs1"]))
       2 "/image.raw" []
     = (Returns [Some OneContainer.apfs_spec], [SourceScannerScan None]).
Proof.
  pose proof (X12_decision_node
                (scanner None OneContainer.context (volume_system_of ["apfs1"]))
                1 OneContainer.context 2%nat eq_refl) as (Hsubs & _ & Hleaf).
  split; [exact Hsubs|].
  refine (Hleaf "/image.raw" OneContainer.context [] OneContainer.apfs_spec
            _ (or_intror eq_refl) eq_refl eq_refl eq_refl eq_refl eq_refl
            eq_refl eq_refl _); discriminate.
Defined.

Lemma X14_on_examples :
  fst (Windows._ScanFileSystemForWindowsDirectory
         (windows_scanner (scanner None TwoPartitions.context two_partitions))
         ntfs_resolver initial_attributes)
  = Returns true
  /\ _windows_directory
       (snd (Windows._ScanFileSystemForWindowsDirectory
               (windows_scanner
                  (scanner None TwoPartitions.context two_partitions))
               ntfs_resolver initial_attributes))
     = Some "C:\WINNT".
Proof.
  pose proof (X14_known_directory_search
                (windows_scanner
                   (scanner None TwoPartitions.context two_partitions))
                ntfs_resolver known_winnt initial_attributes
                (fun _ _ => eq_refl)
                (Permutation_app_comm ["C:\WTSRV"; "C:\WINNT35"]
                   ["C:\Windows"; "C:\WINNT"]))
    as (Hfound & _ & _ & Honly & _).
  split; [exact Hfound|].
  apply Honly; [reflexivity | | right; left; reflexivity].
  intros windows_path Hin Hresolves.
  destruct Hin as [<-|[<-|[<-|[<-|[]]]]]; try discriminate Hresolves.
  reflexivity.
Defined.

Lemma X15_on_examples :
  base_path_specs
    (snd (snd (Windows._ScanFileSystem
                 (windows_scanner
                    (scanner None TwoPartitions.context two_partitions))
                 (Some 6%nat)
                 (initial_attributes, start TwoPartitions.context))))
  = base_path_specs (start TwoPartitions.context)
  \/ (base_path_specs
        (snd (snd (Windows._ScanFileSystem
                     (windows_scanner
                        (scanner None TwoPartitions.context two_partitions))
                     (Some 6%nat)
                     (initial_attributes, start TwoPartitions.context))))
      = (base_path_specs (start TwoPartitions.context)
         ++ [Some TwoPartitions.ntfs_spec])%list
      /\ exists windows_path,
           In windows_path visiting_order
           /\ _windows_directory
                (fst (snd (Windows._ScanFileSystem
                             (windows_scanner
                                (scanner None TwoPartitions.context
                                   two_partitions))
                             (Some 6%nat)
                             (initial_attributes,
                              start TwoPartitions.context))))
              = Some windows_path).
Proof.
  exact (proj1 (proj2 (X15_override_closes_what_it_opens
           (windows_scanner (scanner None TwoPartitions.context two_partitions))
           6%nat initial_attributes (start TwoPartitions.context)
           TwoPartitions.ntfs_spec 7%nat eq_refl eq_refl))).
Defined.

Lemma X18_on_examples :
  exists windows_directory path_resolver before,
    _windows_directory
      (fst (snd (Windows.ScanForWindowsVolume
                   (windows_scanner
                      (scanner (Some select_all) TwoPartitions.context
                         two_partitions))
                   2 "/image.raw" (initial_attributes, []))))
    = Some windows_directory
    /\ windows_directory <> ""
    /\ (In windows_directory _WINDOWS_DIRECTORIES
        \/ _windows_directory initial_attributes = Some windows_directory)
    /\ _path_resolver
         (fst (snd (Windows.ScanForWindowsVolume
                      (windows_scanner
                         (scanner (Some select_all) TwoPartitions.context
                            two_partitions))
                      2 "/image.raw" (initial_attributes, []))))
       = Some path_resolver
    /\ resolver_file_system path_resolver
       = _file_system
           (fst (snd (Windows.ScanForWindowsVolume
                        (windows_scanner
                           (scanner (Some select_all) TwoPartitions.context
                              two_partitions))
                        2 "/image.raw" (initial_attributes, []))))
    /\ asked_of_windows
         (fst (snd (Windows.ScanForWindowsVolume
                      (windows_scanner
                         (scanner (Some select_all) TwoPartitions.context
                            two_partitions))
                      2 "/image.raw" (initial_attributes, []))))
       = (before
          ++ [EnvironmentVariableSet path_resolver "SystemRoot" windows_directory;
              EnvironmentVariableSet path_resolver "WinDir" windows_directory])%list.
Proof.
  set (run := Windows.ScanForWindowsVolume
                (windows_scanner
                   (scanner (Some select_all) TwoPartitions.context
                      two_partitions))
                2 "/image.raw" (initial_attributes, [])).
  assert (Hrun : run = (Returns true, (fst (snd run), snd (snd run))))
    by (vm_compute; reflexivity).
  destruct (X18_true_means_bound
              (windows_scanner
                 (scanner (Some select_all) TwoPartitions.context
                    two_partitions))
              2 "/image.raw" initial_attributes (fst (snd run)) []
              (snd (snd run))
              (Permutation_app_comm ["C:\WTSRV"; "C:\WINNT35"]
                 ["C:\Windows"; "C:\WINNT"])
              Hrun)
    as (d & r & before & H1 & H2 & H3 & H4 & H5 & H6 & _).
  exists d, r, before. repeat split; assumption.
Defined.

Lemma X19_on_examples :
  Windows.ScanForWindowsVolume
    (windows_scanner (scanner None PlainFile.context two_partitions))
    0 "/notes.txt" (initial_attributes, [])
  = (Returns false,
     ({| _source_path := Some "/notes.txt";
         _source_type := Some SOURCE_TYPE_FILE;
         _file_system := None; _path_resolver := None;
         _windows_directory := None; asked_of_windows := [] |},
      [SourceScannerScan None])).
Proof.
  refine (proj1 (X19_single_file_is_no_windows_volume
            (windows_scanner (scanner None PlainFile.context two_partitions))
            0 "/notes.txt" PlainFile.context PlainFile.context
            initial_attributes [] _ (or_intror eq_refl) eq_refl eq_refl
            eq_refl)).
  discriminate.
Defined.

Lemma X20_on_examples :
  fst (Windows.bind_windows_volume
         (windows_scanner (scanner None TwoPartitions.context two_partitions))
         [Some TwoPartitions.ntfs_spec] found_before)
  = Returns true
  /\ forallb (fun ev => negb (is_PathResolved ev))
       (asked_of_windows
          (snd (Windows.bind_windows_volume
                  (windows_scanner
                     (scanner None TwoPartitions.context two_partitions))
                  [Some TwoPartitions.ntfs_spec] found_before)))
     = true.
Proof.
  assert (E := X20_held_directory_is_not_searched_again
            (windows_scanner (scanner None TwoPartitions.context two_partitions))
            TwoPartitions.ntfs_spec [] found_before "C:\WINNT" (Some 7%nat)).
  cbv zeta in E.
  rewrite E; [now split | discriminate | reflexivity | discriminate
             | reflexivity | reflexivity | reflexivity].
Defined.
